(** * fix stmd: the Statistical Temperature Molecular Dynamics update engine

    A shallow embedding of [src/USER-MISC/fix_stmd.cpp] (class [FixStmd]) and
    of the exchange rule of [temper/stmd].

    Numeric model.  A C++ [double] is an exact rational [Q]: rounding error,
    NaN and the infinities are outside the model, with one exception: the
    two quotients of [Yval], whose denominators can vanish, are taken in
    the doubles extended with the infinities and NaN, and the clamps that
    follow can bring an infinity back to a finite value.  A C++ [int] is a
    [Z]; signed overflow, and a conversion to [int] of a value outside its
    range, are undefined behaviour in the source and are not modelled.
    The libm functions [sqrt], [log] and [exp] are parameters of the
    development.  MPI, the diagnostic streams and the log output carry no
    engine state and are left out; the scratch arrays [Y1] and [Prob] are
    never read by the engine and are left out as well.  [modify_fix], by
    which the host overwrites [BinMin], [BinMax], [bin] or [Y2] between
    steps, is not part of a run as modelled here. *)

From Stdlib Require Import ZArith QArith Qround Qabs Qminmax Lia Lqa Bool.
From Stdlib Require Import Decimal DecimalPos DecimalN.
From stdpp Require Import base list strings.

Open Scope Z_scope.

(** ** Numbers *)

Module Num.

(** [round] of <math.h>: nearest integer, halfway cases away from zero. *)
Definition c_round (x : Q) : Z :=
  if Qle_bool 0 x then Qfloor (x + (1 # 2)) else Qceiling (x - (1 # 2)).

(** [static_cast<int>] of a double: truncation toward zero.  The source
    is undefined for a value outside the range of [int]. *)
Definition to_int (x : Q) : Z := Z.quot (Qnum x) (Z.pos (Qden x)).

(** The implicit conversion of an [int] to [double]. *)
Definition of_int (z : Z) : Q := inject_Z z.

(** The comparison operators on doubles. *)
Definition Qlt_bool (x y : Q) : bool := negb (Qle_bool y x).

End Num.
Import Num.

(** ** Outcomes of a call

    [error->all] aborts the run: [Fatal].  An access outside an allocated
    array is undefined behaviour in C++: [Undefined]. *)

Inductive fatal : Type :=
  | HistogramIndexOutOfRange   (* "STMD: Histogram index out of range" *)
  | FValueLessThanUnity        (* "f-value is less than unity" *)
  | PotentialEnergyOutOfRange  (* "STMD: Sampled potential energy out of range" *)
  | RestartFileMissing         (* "STMD: Restart file does not exist" *)
  | RestartFileInvalid.        (* "STMD: Restart file is empty/invalid" *)

Inductive outcome (A : Type) : Type :=
  | Ok (a : A)
  | Fatal (e : fatal)
  | Undefined.
Arguments Ok {A} a.
Arguments Fatal {A} e.
Arguments Undefined {A}.

Definition bind {A B : Type} (m : outcome A) (k : A -> outcome B) : outcome B :=
  match m with
  | Ok a => k a
  | Fatal e => Fatal e
  | Undefined => Undefined
  end.

Notation "x <- m ;; k" := (bind m (fun x => k))
  (at level 100, m at next level, right associativity).

(** ** Arrays

    [a[i]] read and [a[i] = v] write on an array of [length a] elements. *)

Definition rd {A : Type} (a : list A) (i : Z) : outcome A :=
  if i <? 0 then Undefined
  else match a !! Z.to_nat i with
       | Some x => Ok x
       | None => Undefined
       end.

Definition wr {A : Type} (a : list A) (i : Z) (v : A) : outcome (list A) :=
  if (0 <=? i) && (i <? Z.of_nat (length a))
  then Ok (<[Z.to_nat i := v]> a)
  else Undefined.

(** [a[i] = g(a[i])] *)
Definition upd {A : Type} (a : list A) (i : Z) (g : A -> A) : outcome (list A) :=
  x <- rd a i ;; wr a i (g x).

(** [a % b]; a zero divisor is undefined behaviour. *)
Definition c_rem (a b : Z) : outcome Z :=
  if b =? 0 then Undefined else Ok (Z.rem a b).

(** ** Configuration: the arguments of the fix command

    fix ID group stmd RSTFRQ f_style init_f final_f Tlo Thi Elo Ehi binsize
    TSC1 TSC2 ST OREST *)

Record config : Type := mkConfig {
  RSTFRQ : Z;       (* restart and print frequency *)
  f_flag : Z;       (* type of f-reduction: none 0, hchk 1, sqrt 2,
                       constant_f 3, constant_df 4 *)
  initf : Q;        (* initial delta-f *)
  dFval3 : Q;       (* delta-f tolerance for stage 3 *)
  TL : Q;           (* unscaled lower temperature cutoff *)
  TH : Q;           (* unscaled upper temperature cutoff *)
  Emin : Q;         (* energy range *)
  Emax : Q;
  bin : Q;          (* bin size *)
  TSC1 : Z;         (* dig frequency *)
  TSC2 : Z;         (* HCHK or f-reduction frequency *)
  ST : Q;           (* kinetic temperature *)
  OREST : bool;     (* restart flag *)
}.

Definition dFval4 (cfg : config) : Q := dFval3 cfg / 10.
Definition BinMin (cfg : config) : Z := c_round (Emin cfg / bin cfg).
Definition BinMax (cfg : config) : Z := c_round (Emax cfg / bin cfg).
(** The member [N] of the class: the number of bins. *)
Definition Nbin (cfg : config) : Z := BinMax cfg - BinMin cfg + 1.

(** ** Engine state: the mutable members of the class *)

Record state : Type := mkState {
  Y2 : list Q;  (* statistical temperature array *)
  Hist : list Z;  (* window histogram *)
  Htot : list Z;  (* cumulative histogram *)
  PROH : list Z;  (* production histogram *)
  STG : Z;  (* stage flag *)
  f : Q;  (* current f-value *)
  df : Q;  (* delta-f *)
  T1 : Q;  (* scaled lower temperature cutoff *)
  T2 : Q;  (* scaled upper temperature cutoff *)
  CTmin : Q;  (* flatness-check cutoffs *)
  CTmax : Q;
  pfinFval : Q;  (* f-tolerance for stage 3 *)
  finFval : Q;  (* f-tolerance for stage 4 *)
  Count : Z;  (* histogram counts *)
  CountH : Z;
  CountPH : Z;
  totCi : Z;  (* total count *)
  SWf : Z;  (* histogram flatness checks *)
  SWfold : Z;
  SWchk : Z;
  curbin : Z;  (* current sampled bin *)
  Gamma : Q;  (* force scaling factor *)
  T : Q;  (* latest sampled temperature *)
}.

Definition set_Y2 (v : list Q) (s : state) : state :=
  mkState v (Hist s) (Htot s) (PROH s) (STG s) (f s) (df s) (T1 s) (T2 s)
    (CTmin s) (CTmax s) (pfinFval s) (finFval s) (Count s) (CountH s)
    (CountPH s) (totCi s) (SWf s) (SWfold s) (SWchk s) (curbin s) (Gamma s)
    (T s).
Definition set_Hist (v : list Z) (s : state) : state :=
  mkState (Y2 s) v (Htot s) (PROH s) (STG s) (f s) (df s) (T1 s) (T2 s)
    (CTmin s) (CTmax s) (pfinFval s) (finFval s) (Count s) (CountH s)
    (CountPH s) (totCi s) (SWf s) (SWfold s) (SWchk s) (curbin s) (Gamma s)
    (T s).
Definition set_Htot (v : list Z) (s : state) : state :=
  mkState (Y2 s) (Hist s) v (PROH s) (STG s) (f s) (df s) (T1 s) (T2 s)
    (CTmin s) (CTmax s) (pfinFval s) (finFval s) (Count s) (CountH s)
    (CountPH s) (totCi s) (SWf s) (SWfold s) (SWchk s) (curbin s) (Gamma s)
    (T s).
Definition set_PROH (v : list Z) (s : state) : state :=
  mkState (Y2 s) (Hist s) (Htot s) v (STG s) (f s) (df s) (T1 s) (T2 s)
    (CTmin s) (CTmax s) (pfinFval s) (finFval s) (Count s) (CountH s)
    (CountPH s) (totCi s) (SWf s) (SWfold s) (SWchk s) (curbin s) (Gamma s)
    (T s).
Definition set_STG (v : Z) (s : state) : state :=
  mkState (Y2 s) (Hist s) (Htot s) (PROH s) v (f s) (df s) (T1 s) (T2 s)
    (CTmin s) (CTmax s) (pfinFval s) (finFval s) (Count s) (CountH s)
    (CountPH s) (totCi s) (SWf s) (SWfold s) (SWchk s) (curbin s) (Gamma s)
    (T s).
Definition set_f (v : Q) (s : state) : state :=
  mkState (Y2 s) (Hist s) (Htot s) (PROH s) (STG s) v (df s) (T1 s) (T2 s)
    (CTmin s) (CTmax s) (pfinFval s) (finFval s) (Count s) (CountH s)
    (CountPH s) (totCi s) (SWf s) (SWfold s) (SWchk s) (curbin s) (Gamma s)
    (T s).
Definition set_df (v : Q) (s : state) : state :=
  mkState (Y2 s) (Hist s) (Htot s) (PROH s) (STG s) (f s) v (T1 s) (T2 s)
    (CTmin s) (CTmax s) (pfinFval s) (finFval s) (Count s) (CountH s)
    (CountPH s) (totCi s) (SWf s) (SWfold s) (SWchk s) (curbin s) (Gamma s)
    (T s).
Definition set_Count (v : Z) (s : state) : state :=
  mkState (Y2 s) (Hist s) (Htot s) (PROH s) (STG s) (f s) (df s) (T1 s) (T2
    s) (CTmin s) (CTmax s) (pfinFval s) (finFval s) v (CountH s) (CountPH s)
    (totCi s) (SWf s) (SWfold s) (SWchk s) (curbin s) (Gamma s) (T s).
Definition set_CountH (v : Z) (s : state) : state :=
  mkState (Y2 s) (Hist s) (Htot s) (PROH s) (STG s) (f s) (df s) (T1 s) (T2
    s) (CTmin s) (CTmax s) (pfinFval s) (finFval s) (Count s) v (CountPH s)
    (totCi s) (SWf s) (SWfold s) (SWchk s) (curbin s) (Gamma s) (T s).
Definition set_CountPH (v : Z) (s : state) : state :=
  mkState (Y2 s) (Hist s) (Htot s) (PROH s) (STG s) (f s) (df s) (T1 s) (T2
    s) (CTmin s) (CTmax s) (pfinFval s) (finFval s) (Count s) (CountH s) v
    (totCi s) (SWf s) (SWfold s) (SWchk s) (curbin s) (Gamma s) (T s).
Definition set_totCi (v : Z) (s : state) : state :=
  mkState (Y2 s) (Hist s) (Htot s) (PROH s) (STG s) (f s) (df s) (T1 s) (T2
    s) (CTmin s) (CTmax s) (pfinFval s) (finFval s) (Count s) (CountH s)
    (CountPH s) v (SWf s) (SWfold s) (SWchk s) (curbin s) (Gamma s) (T s).
Definition set_SWf (v : Z) (s : state) : state :=
  mkState (Y2 s) (Hist s) (Htot s) (PROH s) (STG s) (f s) (df s) (T1 s) (T2
    s) (CTmin s) (CTmax s) (pfinFval s) (finFval s) (Count s) (CountH s)
    (CountPH s) (totCi s) v (SWfold s) (SWchk s) (curbin s) (Gamma s) (T s).
Definition set_SWfold (v : Z) (s : state) : state :=
  mkState (Y2 s) (Hist s) (Htot s) (PROH s) (STG s) (f s) (df s) (T1 s) (T2
    s) (CTmin s) (CTmax s) (pfinFval s) (finFval s) (Count s) (CountH s)
    (CountPH s) (totCi s) (SWf s) v (SWchk s) (curbin s) (Gamma s) (T s).
Definition set_SWchk (v : Z) (s : state) : state :=
  mkState (Y2 s) (Hist s) (Htot s) (PROH s) (STG s) (f s) (df s) (T1 s) (T2
    s) (CTmin s) (CTmax s) (pfinFval s) (finFval s) (Count s) (CountH s)
    (CountPH s) (totCi s) (SWf s) (SWfold s) v (curbin s) (Gamma s) (T s).
Definition set_curbin (v : Z) (s : state) : state :=
  mkState (Y2 s) (Hist s) (Htot s) (PROH s) (STG s) (f s) (df s) (T1 s) (T2
    s) (CTmin s) (CTmax s) (pfinFval s) (finFval s) (Count s) (CountH s)
    (CountPH s) (totCi s) (SWf s) (SWfold s) (SWchk s) v (Gamma s) (T s).
Definition set_Gamma (v : Q) (s : state) : state :=
  mkState (Y2 s) (Hist s) (Htot s) (PROH s) (STG s) (f s) (df s) (T1 s) (T2
    s) (CTmin s) (CTmax s) (pfinFval s) (finFval s) (Count s) (CountH s)
    (CountPH s) (totCi s) (SWf s) (SWfold s) (SWchk s) (curbin s) v (T s).
Definition set_T (v : Q) (s : state) : state :=
  mkState (Y2 s) (Hist s) (Htot s) (PROH s) (STG s) (f s) (df s) (T1 s) (T2
    s) (CTmin s) (CTmax s) (pfinFval s) (finFval s) (Count s) (CountH s)
    (CountPH s) (totCi s) (SWf s) (SWfold s) (SWchk s) (curbin s) (Gamma s)
    v.

(** ** The restart file oREST.<walker>.d

    The file is whitespace-separated ASCII.  Its contents are the numerals
    written by [fprintf]: ["%d"] prints an integer, ["%f"] prints a sign,
    the integer part and exactly six decimals, the value being rounded to
    the nearest millionth (halfway cases to even). *)

Inductive numeral : Type :=
  | Num_d (z : Z)                    (* "%d" *)
  | Num_f (neg : bool) (micro : N).  (* "%f": [micro] millionths *)

Definition million : Z := 1000000.

(** Nearest integer of a nonnegative rational, halfway cases to even. *)
Definition round_half_even (x : Q) : N :=
  let d := Z.pos (Qden x) in
  let q := Qnum x / d in
  let r := Qnum x mod d in
  Z.to_N (if 2 * r <? d then q
          else if d <? 2 * r then q + 1
          else if Z.even q then q else q + 1).

Definition fmt_d (z : Z) : numeral := Num_d z.
Definition fmt_f (x : Q) : numeral :=
  Num_f (Qlt_bool x 0) (round_half_even (Qabs x * inject_Z million)).

(** The double that [file >> list[i]] extracts from a numeral. *)
Definition numeral_value (t : numeral) : Q :=
  match t with
  | Num_d z => inject_Z z
  | Num_f neg micro =>
      let v := Qmake (Z.of_N micro) 1000000 in
      if neg then (- v)%Q else v
  end.

(** Number of characters of a numeral. *)
Definition nb_digits (n : N) : Z :=
  Z.of_nat (Decimal.nb_digits (N.to_uint n)).

Definition numeral_len (t : numeral) : Z :=
  match t with
  | Num_d z => (if z <? 0 then 1 else 0) + nb_digits (Z.to_N (Z.abs z))
  | Num_f neg micro =>
      (if neg then 1 else 0) + nb_digits (micro / 1000000)%N + 1 + 6
  end.

Record restart_file : Type := mkFile {
  sz : Z;                   (* size of the file in bytes *)
  contents : list numeral;  (* the numerals in the file, in order *)
}.

(** What a state holds after a write in ["%f"] and a read back. *)
Definition reread (x : Q) : Q := numeral_value (fmt_f x).

(** ** Quotients with a vanishing denominator

    IEEE 754: a nonzero double divided by zero is an infinity, zero by zero
    is NaN.  The denominators [1.0 - df * y] and [1.0 + df * y] of [Yval]
    are [+0] when they vanish, so the infinity has the sign of the
    numerator.  While [Yval] runs the table is held in these extended
    doubles. *)

Inductive xdouble : Type :=
  | Finite (q : Q)
  | PlusInf
  | MinusInf
  | NotANumber.

(** [num / den] for two finite doubles. *)
Definition x_div (num den : Q) : xdouble :=
  if Qeq_bool den 0 then
    if Qlt_bool 0 num then PlusInf
    else if Qlt_bool num 0 then MinusInf
    else NotANumber
  else Finite (num / den).

(** [y / den(y)] for an operand [y] read from the table.  An operand that
    is not finite makes the quotient NaN: the denominator is then infinite
    or NaN as well. *)
Definition x_quot (den : Q -> Q) (y : xdouble) : xdouble :=
  match y with
  | Finite q => x_div q (den q)
  | _ => NotANumber
  end.

(** [y < t] and [y > t] against a finite double. *)
Definition x_lt (y : xdouble) (t : Q) : bool :=
  match y with
  | Finite q => Qlt_bool q t
  | MinusInf => true
  | _ => false
  end.

Definition x_gt (y : xdouble) (t : Q) : bool :=
  match y with
  | Finite q => Qlt_bool t q
  | PlusInf => true
  | _ => false
  end.

(** The rational that the table of the model holds for a double.  An
    infinity or a NaN that [Yval] leaves in the table is outside the
    numeric model; the table then holds 0 in its place. *)
Definition x_value (y : xdouble) : Q :=
  match y with
  | Finite q => q
  | _ => 0%Q
  end.

(** ** The engine *)

Section Engine.

(** libm *)
Variables (sqrt log exp : Q -> Q).

Variable cfg : config.

(** [FixStmd::Yval]: bin lookup and statistical temperature update.  The
    two quotients are taken in the extended doubles: with a vanishing
    denominator the bin holds an infinity until its clamp is reached. *)
Definition Yval (potE : Q) (s : state) : outcome (Z * state) :=
  let i := c_round (potE / bin cfg) - BinMin cfg + 1 in
  let s := set_curbin i s in
  if (i <? 1) || (i >? Nbin cfg - 1) then Fatal HistogramIndexOutOfRange
  else
    Y <- upd (Finite <$> Y2 s) (i + 1) (x_quot (fun y => 1 - df s * y)%Q) ;;
    Y <- upd Y (i - 1) (x_quot (fun y => 1 + df s * y)%Q) ;;
    Y <- upd Y (i - 1) (fun y => if x_lt y (T1 s) then Finite (T1 s) else y) ;;
    Y <- upd Y (i + 1) (fun y => if x_gt y (T2 s) then Finite (T2 s) else y) ;;
    Ok (i, set_Y2 (x_value <$> Y) s).

(** [FixStmd::dig]: the scan for the minimum, then the fill below it.  The
    arrays hold [N] elements, and a loop [for (i=0; i<N; i++)] is a
    traversal of the list. *)
Fixpoint dig_scan (Y : list Q) (i : nat) (keepmin : Q) (nkeepmin : nat)
  : Q * nat :=
  match Y with
  | [] => (keepmin, nkeepmin)
  | y :: Y' =>
      if Qle_bool y keepmin then dig_scan Y' (S i) y i
      else dig_scan Y' (S i) keepmin nkeepmin
  end.

Definition dig_fill (keepmin : Q) (nkeepmin : nat) (Y : list Q) : list Q :=
  fold_left (fun Y i => <[i := keepmin]> Y) (seq 0 nkeepmin) Y.

Definition dig (s : state) : outcome state :=
  y0 <- rd (Y2 s) 0 ;;
  let '(keepmin, nkeepmin) := dig_scan (Y2 s) 0 y0 0 in
  Ok (set_Y2 (dig_fill keepmin nkeepmin (Y2 s)) s).

(** [FixStmd::GammaE] *)
Definition GammaE (potE : Q) (indx : Z) (s : state) : outcome state :=
  let i := indx in
  let im := indx - 1 in
  let ip := indx + 1 in
  let e := (potE - inject_Z (c_round (potE / bin cfg)) * bin cfg)%Q in
  t <- (if Qlt_bool 0 e then
          yp <- rd (Y2 s) ip ;; y <- rd (Y2 s) i ;;
          let lam := ((yp - y) / bin cfg)%Q in
          Ok (y + lam * e)%Q
        else if Qlt_bool e 0 then
          y <- rd (Y2 s) i ;; ym <- rd (Y2 s) im ;;
          let lam := ((y - ym) / bin cfg)%Q in
          Ok (y + lam * e)%Q
        else rd (Y2 s) i) ;;
  Ok (set_Gamma (1 / t)%Q (set_T t s)).

(** [FixStmd::AddedEHis] *)
Definition AddedEHis (i : Z) (s : state) : outcome state :=
  H <- upd (Hist s) i (fun h => h + 1) ;;
  let s := set_Hist H s in
  H <- upd (Htot s) i (fun h => h + 1) ;;
  Ok (set_Htot H s).

(** [FixStmd::ResetPH] *)
Definition ResetPH (s : state) : state :=
  set_Hist (replicate (length (Hist s)) 0) s.

(** [FixStmd::TCHK] *)
Definition TCHK (s : state) : outcome state :=
  y0 <- rd (Y2 s) 0 ;;
  Ok (if Qeq_bool y0 (T1 s) then set_STG 2 s else s).

(** [FixStmd::HCHK].  [HCKtol] is set to 0.2 in [init].  [abs] is applied to
    a double and is the floating-point absolute value. *)
Definition HCKtol : Q := 2 # 10.

Definition in_cut (s : state) (y : Q) : bool :=
  Qlt_bool (CTmin s) y && Qlt_bool y (CTmax s).

Definition HCHK (s : state) : state :=
  let s := set_SWfold (SWf s) s in
  let '(aveH, icnt) :=
    fold_left (fun '(aveH, icnt) '(y, h) =>
                 if in_cut s y then ((aveH + of_int h)%Q, icnt + 1)
                 else (aveH, icnt))
              (zip (Y2 s) (Hist s)) (0%Q, 0) in
  if icnt =? 0 then s
  else
    let aveH := (aveH / of_int icnt)%Q in
    let ichk :=
      fold_left (fun ichk '(y, h) =>
                   if in_cut s y then
                     let eval := Qabs ((of_int h - aveH) / aveH) in
                     if Qlt_bool HCKtol eval then ichk + 1 else ichk
                   else ichk)
                (zip (Y2 s) (Hist s)) 0 in
    if ichk <? 1 then set_SWf (SWf s + 1) s else s.

(** [df = log(f) * 0.5 / bin] *)
Definition df_of (fv : Q) : Q := (log fv * (5 # 10) / bin cfg)%Q.

(** The window reset [ResetPH(); CountH = 0;]. *)
Definition reset_window (s : state) : state := set_CountH 0 (ResetPH s).

(** [FixStmd::MAIN], the block [if (STG >= 3)]: check the histogram and
    further reduce f until the cutoff.  Its two branches first. *)

(** [if (f_flag == 1)]: reduction based on histogram flatness. *)
Definition stg3_hchk (s : state) : state :=
  let s := HCHK s in
  if negb (SWfold s =? SWf s) then
    let s := if STG s =? 3 then set_f (sqrt (f s)) s else s in
    let s := set_df (df_of (f s)) s in
    let s := set_SWchk 1 s in
    reset_window s
  else set_SWchk (SWchk s + 1) s.

(** [if (f_flag > 1)] *)
Definition stg3_unconditional (s : state) : state :=
  let s := if STG s =? 3 then set_f (sqrt (f s)) s else s in
  let s := set_df (df_of (f s)) s in
  reset_window s.

Definition MAIN_stg3 (istep : Z) (s : state) : outcome state :=
  if 3 <=? STG s then
    m <- c_rem istep (TSC2 cfg) ;;
    if m =? 0 then
      let s := if f_flag cfg =? 1 then stg3_hchk s else s in
      let s := if 1 <? f_flag cfg then stg3_unconditional s else s in
      Ok (if Qle_bool (f s) (finFval s) then set_STG 4 s else s)
    else Ok s
  else Ok s.

(** [FixStmd::MAIN], the block [if (STG == 2)]: modify the f value.  Its
    five branches first. *)

(** [if (f_flag == 0)]: no f-reduction. *)
Definition stg2_none (s : state) : state := reset_window s.

(** [if (f_flag == 1)]: standard f-reduction as [HCHK]. *)
Definition stg2_hchk (s : state) : state :=
  let s := HCHK s in
  let s :=
    if negb (SWfold s =? SWf s) then
      let s := set_f (sqrt (f s)) s in
      let s := set_df (df_of (f s)) s in
      let s := set_SWchk 1 s in
      reset_window s
    else set_SWchk (SWchk s + 1) s in
  if Qle_bool (f s) (pfinFval s) then
    let s := set_STG 3 s in
    let s := set_CountPH 0 s in
    let s := set_SWchk 1 s in
    reset_window s
  else s.

(** [if (f_flag == 2)]: reduce as sqrt(f). *)
Definition stg2_sqrt (istep : Z) (s : state) : state :=
  let s :=
    if negb (istep =? 0) then
      let s := set_f (sqrt (f s)) s in
      set_df (df_of (f s)) s
    else s in
  reset_window s.

(** [if (f_flag == 3)]: reduce f by a constant, by sqrt(f) when too
    small. *)
Definition stg2_constant_f (istep : Z) (s : state) : state :=
  let reduce_val := (1 # 10)%Q in
  let s :=
    if negb (istep =? 0) then
      if Qlt_bool (1 + 2 * reduce_val) (f s)
      then set_f (f s - reduce_val * f s)%Q s
      else set_f (sqrt (f s)) s
    else s in
  let s := set_df (df_of (f s)) s in
  reset_window s.

(** [if (f_flag == 4)]: reduce df by a constant. *)
Definition stg2_constant_df (istep : Z) (s : state) : state :=
  let reduce_val := (1 # 100)%Q in
  if negb (istep =? 0) then
    let s := set_df (df s - df s * reduce_val)%Q s in
    set_f (exp (2 * bin cfg * df s)%Q) s
  else s.

Definition MAIN_stg2 (istep : Z) (s : state) : outcome state :=
  if STG s =? 2 then
    m <- c_rem istep (TSC2 cfg) ;;
    if m =? 0 then
      let s := if f_flag cfg =? 0 then stg2_none s else s in
      let s := if f_flag cfg =? 1 then stg2_hchk s else s in
      let s := if f_flag cfg =? 2 then stg2_sqrt istep s else s in
      let s := if f_flag cfg =? 3 then stg2_constant_f istep s else s in
      let s := if f_flag cfg =? 4 then stg2_constant_df istep s else s in
      if Qle_bool (f s) 1 then Fatal FValueLessThanUnity
      else
        Ok (if Qle_bool (f s) (pfinFval s) && (1 <? f_flag cfg)
            then set_CountPH 0 (set_STG 3 s)
            else s)
    else Ok s
  else Ok s.

(** [FixStmd::MAIN], the block [if (STG == 1)]: digging. *)
Definition MAIN_stg1 (istep : Z) (s : state) : outcome state :=
  if STG s =? 1 then
    m <- c_rem istep (TSC1 cfg) ;;
    if m =? 0 then
      s <- dig s ;;
      s <- TCHK s ;;
      Ok (if 1 <? STG s then reset_window s else s)
    else Ok s
  else Ok s.

(** [FixStmd::MAIN], from its first statement to the histogram output:
    the counters, the temperature update, the force scale and the
    histogram update of the sampled bin, which is returned with the
    state. *)
Definition MAIN_sample (istep : Z) (potE : Q) (s : state)
  : outcome (Z * state) :=
  let s := set_Count istep s in
  let s := set_totCi (totCi s + 1) s in
  let s := if 3 <=? STG s then set_CountPH (CountPH s + 1) s else s in
  r <- Yval potE s ;;
  let '(stmdi, s) := r in
  s <- GammaE potE stmdi s ;;
  s <- AddedEHis stmdi s ;;
  let s := set_CountH (CountH s + 1) s in
  s <- (if 3 <=? STG s then
          P <- upd (PROH s) stmdi (fun h => h + 1) ;;
          let s := set_PROH P s in
          Ok (set_CountPH (CountPH s + 1) s)
        else Ok s) ;;
  _ <- c_rem istep (RSTFRQ cfg) ;;
  Ok (stmdi, s).

(** [FixStmd::MAIN]: one MD step with the sampled potential energy. *)
Definition MAIN (istep : Z) (potE : Q) (s : state) : outcome state :=
  r <- MAIN_sample istep potE s ;;
  s <- MAIN_stg3 istep (snd r) ;;
  s <- MAIN_stg2 istep s ;;
  MAIN_stg1 istep s.

(** [FixStmd::post_force] on the root rank: the range check on the sampled
    energy, then [MAIN].  The broadcast of [Gamma] and the scaling of the
    forces act on the host's atoms and carry no engine state. *)
Definition post_force (ntimestep : Z) (potE : Q) (s : state) : outcome state :=
  if Qlt_bool potE (Emin cfg) || Qlt_bool (Emax cfg) potE
  then Fatal PotentialEnergyOutOfRange
  else MAIN ntimestep potE s.

(** [FixStmd::init] without a restart file.  [curbin] is not initialised
    by the source; it is 0 here and it is written by [Yval] before any
    read. *)
Definition CutTmin : Q := 50.
Definition CutTmax : Q := 50.

Definition init_fresh : state :=
  let fv := exp (initf cfg * 2 * bin cfg)%Q in
  let t2 := (TH cfg / ST cfg)%Q in
  let n := Z.to_nat (Nbin cfg) in
  mkState (replicate n t2) (replicate n 0) (replicate n 0) (replicate n 0)
    1 fv (df_of fv)
    (TL cfg / ST cfg)%Q t2
    ((TL cfg + CutTmin) / ST cfg)%Q ((TH cfg - CutTmax) / ST cfg)%Q
    (exp (dFval3 cfg * 2 * bin cfg)%Q) (exp (dFval4 cfg * 2 * bin cfg)%Q)
    0 0 0 0 1 1 1 0 1 (ST cfg).

(** [FixStmd::init], the block [if (OREST)]: read oREST.d into the
    variables.  Extracting more numerals than the file holds leaves
    [list] unset: [Undefined]. *)
Definition numb : Z := 13.

Definition read_orest (file : restart_file) (s : state) : outcome state :=
  let nsize := 3 * Nbin cfg + numb in
  if sz file <? nsize * 8 then Fatal RestartFileInvalid
  else if Z.of_nat (length (contents file)) <? nsize then Undefined
  else
    let list := numeral_value <$> take (Z.to_nat nsize) (contents file) in
    let n := Z.to_nat (Nbin cfg) in
    v_STG <- rd list 0 ;;
    v_f <- rd list 1 ;;
    v_CountH <- rd list 2 ;;
    v_SWf <- rd list 3 ;;
    v_SWfold <- rd list 4 ;;
    v_SWchk <- rd list 5 ;;
    v_Count <- rd list 6 ;;
    v_totCi <- rd list 7 ;;
    v_CountPH <- rd list 8 ;;
    v_T1 <- rd list 9 ;;
    v_T2 <- rd list 10 ;;
    v_CTmin <- rd list 11 ;;
    v_CTmax <- rd list 12 ;;
    Ok (mkState
          (take n (drop 13 list))
          (Hist s)
          (to_int <$> take n (drop (13 + n) list))
          (to_int <$> take n (drop (13 + n + n) list))
          (to_int v_STG) v_f (df_of v_f) v_T1 v_T2 v_CTmin v_CTmax
          (pfinFval s) (finFval s)
          (to_int v_Count) (to_int v_CountH) (to_int v_CountPH)
          (to_int v_totCi) (to_int v_SWf) (to_int v_SWfold) (to_int v_SWchk)
          (curbin s) (Gamma s) (T s)).

(** [FixStmd::init] on the root rank; [file] is oREST.<walker>.d when it
    exists. *)
Definition init (file : option restart_file) : outcome state :=
  if OREST cfg then
    match file with
    | None => Fatal RestartFileMissing
    | Some fl => read_orest fl init_fresh
    end
  else Ok init_fresh.

(** [FixStmd::write_orest] on the root rank at a step that is a multiple
    of [RSTFRQ]: the file that replaces oREST.<walker>.d.  Every numeral is
    followed by one separator and three of the rows end in an extra
    newline. *)
Definition orest_list (s : state) : list numeral :=
  [ fmt_d (STG s); fmt_f (f s);
    fmt_f (of_int (CountH s)); fmt_f (of_int (SWf s));
    fmt_f (of_int (SWfold s)); fmt_f (of_int (SWchk s));
    fmt_f (of_int (Count s)); fmt_f (of_int (totCi s));
    fmt_f (of_int (CountPH s));
    fmt_f (T1 s); fmt_f (T2 s); fmt_f (CTmin s); fmt_f (CTmax s) ]
  ++ (fmt_f <$> Y2 s)
  ++ ((fun h => fmt_f (of_int h)) <$> Htot s)
  ++ ((fun h => fmt_f (of_int h)) <$> PROH s).

Definition file_size (l : list numeral) : Z :=
  fold_right (fun t acc => numeral_len t + 1 + acc) 3 l.

Definition write_orest (s : state) : restart_file :=
  let l := orest_list s in mkFile (file_size l) l.

(** The states of a run: [init], then any number of steps. *)
Inductive reachable : state -> Prop :=
  | reach_init file s : init file = Ok s -> reachable s
  | reach_MAIN s istep potE s' :
      reachable s -> MAIN istep potE s = Ok s' -> reachable s'.

End Engine.


(** The index computed by [Yval]. *)
Definition Yval_index (cfg : config) (potE : Q) : Z :=
  c_round (potE / bin cfg) - BinMin cfg + 1.

(** What [Yval] leaves in the bin above the sampled one, which held [y]:
    the quotient, clamped from above; and in the bin below it: the
    quotient, clamped from below. *)
Definition raised (d t2 y : Q) : Q :=
  let v := x_div y (1 - d * y) in
  x_value (if x_gt v t2 then Finite t2 else v).

Definition lowered (d t1 y : Q) : Q :=
  let v := x_div y (1 + d * y) in
  x_value (if x_lt v t1 then Finite t1 else v).

(** ** A five-bin engine used in the examples

    Window [0, 4] with unit bins, [T1 = 1/2], [T2 = 2], [df = 1/100]. *)

Definition cfg5 : config :=
  mkConfig 100 2 (1 # 100) (1 # 200) 150 600 0 4 1 10 10 300 true.

Definition st5 : state :=
  mkState (replicate 5 2%Q) (replicate 5 0) (replicate 5 0) (replicate 5 0)
    1 (51 # 50) (1 # 100) (1 # 2) 2 (2 # 3) (11 # 6) (101 # 100) (1001 # 1000)
    0 0 0 0 1 1 1 0 1 1.


(** ** Sequences of temperature updates

    [in_range s]: every bin of the table lies in [[T1, T2]].
    [Yval_reach cfg ok s]: [s] is produced from an initial table, all bins
    at [T2], by a finite sequence of calls of [Yval], each made in a state
    that satisfies [ok]; between two calls the f-schedule may give [df] any
    value. *)

Definition in_range (s : state) : Prop :=
  Forall (fun y => (T1 s <= y <= T2 s)%Q) (Y2 s).

Inductive Yval_reach (cfg : config) (ok : state -> Prop) : state -> Prop :=
  | reach_initial s :
      Y2 s = replicate (Z.to_nat (Nbin cfg)) (T2 s) ->
      (T1 s <= T2 s)%Q ->
      Yval_reach cfg ok s
  | reach_Yval s potE i s' :
      Yval_reach cfg ok s -> ok s ->
      Yval cfg potE s = Ok (i, s') ->
      Yval_reach cfg ok s'
  | reach_schedule s d :
      Yval_reach cfg ok s ->
      Yval_reach cfg ok (set_df d s).

(** The learning rates for which the denominators of the update stay
    positive on every table that the updates produce: [df * T2 < 1], and,
    should the temperatures be negative, [-1 < df * T1]. *)
Definition df_small (s : state) : Prop :=
  (0 <= df s /\ df s * T2 s < 1 /\ (0 <= T2 s \/ -1 < df s * T1 s))%Q.

(** [nonneg_table s]: with [T2 >= 0] no bin is negative. *)
Definition nonneg_table (s : state) : Prop :=
  (0 <= T2 s)%Q -> Forall (fun y => (0 <= y)%Q) (Y2 s).

(** ** The minimum of the table

    [attains_min Y i y]: bin [i] holds [y] and no bin holds less. *)

Definition attains_min (Y : list Q) (i : nat) (y : Q) : Prop :=
  Y !! i = Some y /\ Forall (fun z => (y <= z)%Q) Y.

(** ** The flatness check in the words of the specification

    The mean of [Hist] over the bins whose temperature lies strictly
    between [CTmin] and [CTmax]; no change when there is no such bin;
    otherwise the number of those bins whose relative deviation
    [|Hist[i] - mean| / mean] exceeds [HCKtol]; [SWf] is incremented when
    that number is zero. *)

Definition qualifying (s : state) : list (Q * Z) :=
  List.filter (fun p => in_cut s (fst p)) (zip (Y2 s) (Hist s)).

Definition hist_sum (q : list (Q * Z)) : Z :=
  fold_right (fun p acc => snd p + acc) 0 q.

Definition hist_mean (q : list (Q * Z)) : Q :=
  (inject_Z (hist_sum q) / inject_Z (Z.of_nat (length q)))%Q.

Definition deviates (mean : Q) (p : Q * Z) : bool :=
  Qlt_bool HCKtol (Qabs (inject_Z (snd p) - mean) / mean).

Definition hchk_spec (s : state) : state :=
  let q := qualifying s in
  let s := set_SWfold (SWf s) s in
  match q with
  | [] => s
  | _ :: _ =>
      match List.filter (deviates (hist_mean q)) q with
      | [] => set_SWf (SWf s + 1) s
      | _ :: _ => s
      end
  end.

(** A stage-2 state of the five-bin engine whose three middle bins lie
    inside the cut-offs, with a flat window histogram. *)
Definition st5_flat : state :=
  set_STG 2 (set_Hist [0; 10; 11; 9; 0] (set_Y2 [2; 1; 1; 1; 2]%Q st5)).

(** ** One step

    [sampled cfg istep s i s']: the effect on every member of the sampling
    part of a step that samples bin [i]. *)

Record sampled (cfg : config) (istep : Z) (s : state) (i : Z) (s' : state)
  : Prop := {
  smp_index : 1 <= i <= Nbin cfg - 1;
  smp_curbin : curbin s' = i;
  smp_STG : STG s' = STG s;
  smp_f : f s' = f s;
  smp_df : df s' = df s;
  smp_T1 : T1 s' = T1 s;
  smp_T2 : T2 s' = T2 s;
  smp_CTmin : CTmin s' = CTmin s;
  smp_CTmax : CTmax s' = CTmax s;
  smp_pfinFval : pfinFval s' = pfinFval s;
  smp_finFval : finFval s' = finFval s;
  smp_SWf : SWf s' = SWf s;
  smp_SWfold : SWfold s' = SWfold s;
  smp_SWchk : SWchk s' = SWchk s;
  smp_Count : Count s' = istep;
  smp_totCi : totCi s' = totCi s + 1;
  smp_CountH : CountH s' = CountH s + 1;
  smp_CountPH :
    CountPH s' = if 3 <=? STG s then CountPH s + 2 else CountPH s;
  smp_Hist : exists h : Z,
    Hist s !! Z.to_nat i = Some h /\
    Hist s' = <[Z.to_nat i := h + 1]> (Hist s);
  smp_Htot : exists h : Z,
    Htot s !! Z.to_nat i = Some h /\
    Htot s' = <[Z.to_nat i := h + 1]> (Htot s);
  smp_PROH :
    if 3 <=? STG s
    then exists h : Z,
           PROH s !! Z.to_nat i = Some h /\
           PROH s' = <[Z.to_nat i := h + 1]> (PROH s)
    else PROH s' = PROH s;
  smp_RSTFRQ : RSTFRQ cfg <> 0;
}.


(** [block_kept s s']: what every branch of the stage blocks keeps. *)
Record block_kept (s s' : state) : Prop := {
  bk_Y2 : Y2 s' = Y2 s;
  bk_Htot : Htot s' = Htot s;
  bk_PROH : PROH s' = PROH s;
  bk_Hist : length (Hist s') = length (Hist s);
  bk_T1 : T1 s' = T1 s;
  bk_T2 : T2 s' = T2 s;
  bk_pfinFval : pfinFval s' = pfinFval s;
  bk_finFval : finFval s' = finFval s;
  bk_Count : Count s' = Count s;
  bk_totCi : totCi s' = totCi s;
}.

(** [df_follows_f log cfg s]: in stage 4, and under every scheme other
    than constant_df, [df] is the value that [log(f) * 0.5 / bin] gives. *)
Definition df_follows_f (log : Q -> Q) (cfg : config) (s : state) : Prop :=
  STG s = 4 \/ f_flag cfg <> 4 -> df s = df_of log cfg (f s).

(** [allocated cfg s]: the four arrays hold [N] elements, as [init]
    allocates them. *)
Definition allocated (cfg : config) (s : state) : Prop :=
  length (Y2 s) = Z.to_nat (Nbin cfg) /\
  length (Hist s) = Z.to_nat (Nbin cfg) /\
  length (Htot s) = Z.to_nat (Nbin cfg) /\
  length (PROH s) = Z.to_nat (Nbin cfg).

(** ** Restart round trip

    [restored log cfg s s']: what [s'], reloaded from the file written in
    state [s], holds.  [same_after_restart s s']: the round trip of the
    specification, with the real-valued fields compared as numbers. *)

Definition restored (log : Q -> Q) (cfg : config) (s s' : state) : Prop :=
  STG s' = STG s /\ Htot s' = Htot s /\ PROH s' = PROH s /\
  CountH s' = CountH s /\ SWf s' = SWf s /\ SWfold s' = SWfold s /\
  SWchk s' = SWchk s /\ Count s' = Count s /\ totCi s' = totCi s /\
  CountPH s' = CountPH s /\
  f s' = reread (f s) /\ df s' = df_of log cfg (reread (f s)) /\
  T1 s' = reread (T1 s) /\ T2 s' = reread (T2 s) /\
  CTmin s' = reread (CTmin s) /\ CTmax s' = reread (CTmax s) /\
  Y2 s' = reread <$> Y2 s /\
  Hist s' = replicate (Z.to_nat (Nbin cfg)) 0.

Definition same_after_restart (s s' : state) : Prop :=
  Forall2 Qeq (Y2 s') (Y2 s) /\ Htot s' = Htot s /\ PROH s' = PROH s /\
  (f s' == f s)%Q /\ STG s' = STG s /\
  SWf s' = SWf s /\ SWfold s' = SWfold s /\ SWchk s' = SWchk s /\
  Count s' = Count s /\ totCi s' = totCi s /\ CountPH s' = CountPH s /\
  Hist s' = replicate (length (Hist s)) 0.

(** ** temper/stmd: the exchange rule between two walkers

    The body of [TemperStmd::command] (temper_stmd.cpp) is missing from the
    sources, which hold its header only; the rule is the one of section 4.3
    of the specification. *)

Module TemperStmd.

(** Modelled from the spec: the summary (T_me, U_me, STG_me, Emin_me,
    Emax_me) that a walker root contributes to an exchange attempt; the
    source of [TemperStmd::command] that gathers it is missing. *)
Record walker : Type := mkWalker {
  U_me : Q;      (* sampled potential energy *)
  T_me : Q;      (* latest sampled temperature, the local 1/Gamma *)
  STG_me : Z;    (* current STMD stage *)
  Emin_me : Q;   (* energy window *)
  Emax_me : Q;
}.

(** Modelled from the spec: the stage gate of the missing
    [TemperStmd::command]; exchanges are permitted once both walkers have
    entered stage 2. *)
Definition stage_gate : Z := 2.

(** Modelled from the spec: the window test of the missing
    [TemperStmd::command]; an energy lies inside a walker's
    [[Emin, Emax]]. *)
Definition inside (U : Q) (w : walker) : bool :=
  Qle_bool (Emin_me w) U && Qle_bool U (Emax_me w).

(** Modelled from the spec: the admission test of the missing
    [TemperStmd::command]; swaps are turned on ([EX_flag]), each walker's
    energy lies inside the other's window, and both walkers report
    [STG >= stage_gate]. *)
Definition admitted (EX_flag : Z) (a b : walker) : bool :=
  negb (EX_flag =? 0)
  && inside (U_me a) b && inside (U_me b) a
  && (stage_gate <=? STG_me a) && (stage_gate <=? STG_me b).

(** Modelled from the spec: the Metropolis factor of the missing
    [TemperStmd::command], [(1/T_a - 1/T_b) * (U_a - U_b) / k_B]. *)
Definition metropolis_factor (boltz : Q) (a b : walker) : Q :=
  ((1 / T_me a - 1 / T_me b) * (U_me a - U_me b) / boltz)%Q.

(** Modelled from the spec: the decision of the missing
    [TemperStmd::command]; an admitted swap is accepted with probability
    [min(1, exp(factor))], decided against a uniform random number [u]. *)
Definition exchange (exp : Q -> Q) (EX_flag : Z) (boltz : Q)
    (a b : walker) (u : Q) : bool :=
  admitted EX_flag a b
  && Qlt_bool u (Qmin 1 (exp (metropolis_factor boltz a b))).

End TemperStmd.

(** ** Rational stand-ins for libm, used to run the engine on examples

    Truncated series around the points where the examples evaluate them:
    [exp] and [log] near 0 and 1, [sqrt] by three Newton steps from 1. *)

Definition exp_q (x : Q) : Q :=
  (1 + x + x * x / 2 + x * x * x / 6)%Q.

Definition log_q (y : Q) : Q :=
  let z := ((y - 1) / (y + 1))%Q in
  (2 * (z + z * z * z / 3))%Q.

Definition sqrt_q (y : Q) : Q :=
  let step := fun r : Q => ((r + y / r) / 2)%Q in
  Qred (step (step (step 1%Q))).

(** Two stage-3 and stage-4 states of the five-bin engine; the second is
    what [init] reloads from the restart file of the first. *)
Definition st5_production : state :=
  set_CountPH 40 (set_CountH 6 (set_Hist [0; 2; 3; 1; 0]
    (set_PROH [0; 7; 8; 5; 0] (set_Htot [0; 9; 9; 9; 0] (set_STG 3 st5))))).

Definition st5_stage4_file : restart_file :=
  write_orest (set_f (1001 # 1000) (set_STG 4 st5_production)).

Definition st5_stage4 : state :=
  Eval vm_compute in
    match init log_q exp_q cfg5 (Some st5_stage4_file) with
    | Ok s => s
    | _ => st5
    end.

(** The five-bin engine with the constant_df scheme, in stage 2 with
    [df = 0.004], [f = exp(2 * bin * df)] and a window histogram under
    way. *)
Definition cfg5_df : config :=
  mkConfig 100 4 (1 # 100) (1 # 200) 150 600 0 4 1 10 10 300 true.

Definition st5_learn : state :=
  set_STG 2 (set_df (4 # 1000) (set_f (exp_q (8 # 1000))
    (set_CountH 6 (set_Hist [0; 2; 3; 1; 0] st5)))).

(** The state after step 10 at energy 2. *)
Definition st5_learn_next : state :=
  Eval vm_compute in
    match MAIN sqrt_q log_q exp_q cfg5_df 10 2 st5_learn with
    | Ok s => s
    | _ => st5
    end.

(** ** The maintenance blocks of a step

    [upkeep s s']: what the stage block that follows the sampling part of a
    step leaves of [s] in [s']: the members it never writes, the window,
    which is kept or cleared, and the stage, which is kept or raised. *)

Record upkeep (s s' : state) : Prop := {
  uk_Htot : Htot s' = Htot s;
  uk_PROH : PROH s' = PROH s;
  uk_T1 : T1 s' = T1 s;
  uk_T2 : T2 s' = T2 s;
  uk_CTmin : CTmin s' = CTmin s;
  uk_CTmax : CTmax s' = CTmax s;
  uk_pfinFval : pfinFval s' = pfinFval s;
  uk_finFval : finFval s' = finFval s;
  uk_Count : Count s' = Count s;
  uk_totCi : totCi s' = totCi s;
  uk_curbin : curbin s' = curbin s;
  uk_Gamma : Gamma s' = Gamma s;
  uk_T : T s' = T s;
  uk_Y2 : STG s <> 1 -> Y2 s' = Y2 s;
  uk_Y2_length : length (Y2 s') = length (Y2 s);
  uk_window :
    (Hist s' = Hist s /\ CountH s' = CountH s) \/
    (Hist s' = replicate (length (Hist s)) 0 /\ CountH s' = 0);
  uk_CountPH : CountPH s' = CountPH s \/ (STG s = 2 /\ CountPH s' = 0);
  uk_STG :
    STG s' = STG s \/ (STG s = 1 /\ STG s' = 2) \/
    (STG s = 2 /\ STG s' = 3) \/ (3 <= STG s /\ STG s' = 4);
  uk_f : STG s <> 2 -> STG s <> 3 -> f s' = f s;
  uk_df : STG s < 2 -> df s' = df s;
}.

(** ** Totals of the histograms

    [accounted s]: the counters agree with the histograms they count. *)

Definition hist_total (h : list Z) : Z := fold_right Z.add 0 h.

Record accounted (s : state) : Prop := {
  ac_STG : 1 <= STG s <= 4;
  ac_Htot : hist_total (Htot s) = totCi s;
  ac_Hist : hist_total (Hist s) = CountH s;
  ac_PROH : CountPH s = 2 * hist_total (PROH s);
  ac_learning : STG s < 3 -> hist_total (PROH s) = 0;
  ac_Hist_nonneg : Forall (fun h => 0 <= h) (Hist s);
  ac_Htot_nonneg : Forall (fun h => 0 <= h) (Htot s);
  ac_PROH_nonneg : Forall (fun h => 0 <= h) (PROH s);
}.

(** The five-bin engine started without a restart file, and its state
    after the first step, at energy 2. *)
Definition cfg5_fresh : config :=
  mkConfig 100 2 (1 # 100) (1 # 200) 150 600 0 4 1 10 10 300 false.

Definition st5_fresh_next : state :=
  Eval vm_compute in
    match MAIN sqrt_q log_q exp_q cfg5_fresh 1 2
            (init_fresh log_q exp_q cfg5_fresh) with
    | Ok s => s
    | _ => st5
    end.

(** ** What the fix reports to the host

    [compute_scalar], [compute_vector] and [compute_array].  The last two
    return an uninitialised local for an index that they do not know:
    [Undefined]. *)

Section Output.
Variable cfg : config.

Definition compute_scalar (s : state) : Q := (T s * ST cfg)%Q.

Definition compute_vector (s : state) (i : Z) : outcome Q :=
  if i =? 0 then Ok (of_int (STG s))           (* current stage *)
  else if i =? 1 then Ok (of_int (Nbin cfg))   (* number of bins *)
  else if i =? 2 then Ok (of_int (BinMin cfg))
  else if i =? 3 then Ok (of_int (BinMax cfg))
  else if i =? 4 then Ok (of_int (curbin s))   (* last sampled bin *)
  else if i =? 5 then Ok (bin cfg)
  else if i =? 6 then Ok (df s)
  else if i =? 7 then Ok (Gamma s)
  else Undefined.

Definition compute_array (s : state) (i j : Z) : outcome Q :=
  if i =? 0 then Ok (of_int j * bin cfg + Emin cfg)%Q   (* binned energies *)
  else if i =? 1 then rd (Y2 s) j
  else if i =? 2 then h <- rd (Hist s) j ;; Ok (of_int h)
  else if i =? 3 then h <- rd (PROH s) j ;; Ok (of_int h)
  else Undefined.

End Output.

(** ** The fix command

    [FixStmd::FixStmd]: the arguments
    [ID group stmd RSTFRQ f_style init_f final_f Tlo Thi Elo Ehi binsize
    TSC1 TSC2 ST OREST [dir_output]] and their validation.  [atoi] and
    [atof] of <stdlib.h> are parameters.  The constructor also computes
    [pfinFval] and [finFval] from [bin] before [bin] is assigned; [init]
    assigns both again before any use, and those two assignments are left
    out here. *)

Inductive command_error : Type :=
  | IllegalFixStmdCommand     (* "Illegal fix stmd command" *)
  | InvalidFReductionScheme   (* "STMD: invalid f-reduction scheme" *)
  | InitialDeltaFTooLarge     (* "STMD: initial deltaF value too large" *)
  | FinalDeltaFTooSmall       (* "STMD: final deltaF value too small" *)
  | InvalidRestartOption.     (* "STMD: invalid restart option" *)

(** The chain of [strcmp] on [arg[4]]. *)
Definition f_style (a : string) : option Z :=
  if String.eqb a "none" then Some 0
  else if String.eqb a "hchk" then Some 1
  else if String.eqb a "sqrt" then Some 2
  else if String.eqb a "constant_f" then Some 3
  else if String.eqb a "constant_df" then Some 4
  else None.

(** The chain of [strcmp] on [arg[15]]. *)
Definition restart_option (a : string) : option bool :=
  if String.eqb a "yes" then Some true
  else if String.eqb a "no" then Some false
  else None.

Section Command.
Variables (atoi : string -> Z) (atof : string -> Q).

(** [arg[i]], for an index below [narg]. *)
Definition arg_at (arg : list string) (i : nat) : string :=
  nth i arg EmptyString.

(** The constructor: the configuration and [dir_output], or the error. *)
Definition FixStmd (arg : list string) : command_error + config * string :=
  let narg := Z.of_nat (length arg) in
  if (narg <? 16) || (narg >? 17) then inl IllegalFixStmdCommand
  else
    let v_RSTFRQ := atoi (arg_at arg 3) in
    match f_style (arg_at arg 4) with
    | None => inl InvalidFReductionScheme
    | Some v_f_flag =>
        let v_initf := atof (arg_at arg 5) in
        if Qlt_bool 1 v_initf then inl InitialDeltaFTooLarge
        else
          let v_dFval3 := atof (arg_at arg 6) in
          if Qlt_bool v_dFval3 (1 # 100000) then inl FinalDeltaFTooSmall
          else
            let v_TL := atof (arg_at arg 7) in
            let v_TH := atof (arg_at arg 8) in
            let v_Emin := atof (arg_at arg 9) in
            let v_Emax := atof (arg_at arg 10) in
            let v_bin := atof (arg_at arg 11) in
            let v_TSC1 := atoi (arg_at arg 12) in
            let v_TSC2 := atoi (arg_at arg 13) in
            let v_ST := atof (arg_at arg 14) in
            match restart_option (arg_at arg 15) with
            | None => inl InvalidRestartOption
            | Some v_OREST =>
                let dir_output :=
                  if narg =? 17 then arg_at arg 16 else "./"%string in
                inr (mkConfig v_RSTFRQ v_f_flag v_initf v_dFval3 v_TL v_TH
                       v_Emin v_Emax v_bin v_TSC1 v_TSC2 v_ST v_OREST,
                     dir_output)
            end
    end.

End Command.

(** Stand-ins for [atoi] and [atof] on plain decimal numerals, used to run
    the constructor on examples. *)
Fixpoint atof_digits (a : string) (seen_point : bool) (num : Z)
    (den : positive) : Q :=
  match a with
  | EmptyString => num # den
  | String c a' =>
      if String.eqb (String c EmptyString) "." then
        if seen_point then num # den else atof_digits a' true num den
      else
        let d := Z.of_nat (Ascii.nat_of_ascii c) - 48 in
        if (0 <=? d) && (d <=? 9) then
          atof_digits a' seen_point (10 * num + d)
            (if seen_point then 10 * den else den)%positive
        else num # den
  end.

Definition atof_q (a : string) : Q :=
  match a with
  | EmptyString => 0%Q
  | String c a' =>
      if String.eqb (String c EmptyString) "-"
      then (- atof_digits a' false 0 1)%Q
      else atof_digits a false 0 1
  end.

Definition atoi_q (a : string) : Z := to_int (atof_q a).

(** fix fxstmd all stmd 100 sqrt 0.01 0.005 150 600 0 4 1 10 10 300 no *)
Definition fix5 : list string :=
  ["fxstmd"; "all"; "stmd"; "100"; "sqrt"; "0.01"; "0.005"; "150"; "600";
   "0"; "4"; "1"; "10"; "10"; "300"; "no"]%string.

(** The configuration that the constructor builds from [fix5]. *)
Definition cfg_fix5 : config :=
  mkConfig 100 2 (1 # 100) (5 # 1000) 150 600 0 4 1 10 10 300 false.

(** ** A time step on the host

    [FixStmd::end_of_step] on the root rank: with a single walker the fix
    writes its own output, [write_temperature] and then [write_orest], each
    on the multiples of [RSTFRQ]; with several walkers temper/stmd does.
    [disk] is oREST.<walker>.d.  [timestep] is what the integrator runs at
    one step: [post_force], then [end_of_step]. *)

Section Host.
Variables (sqrt log exp : Q -> Q) (cfg : config).



End Host.

(** ** The range of [int]

    The [int] members of the class are integers of the model.
    [counters_fit s]: each of them lies in the range of a 32-bit [int].
    [room_to_count s]: each counter that a step increments is below
    [INT_MAX], [CountPH], which a step increments twice, by two.
    [flat_kept s s']: what a step does to the counters of the flatness
    check. *)





(** * Proofs *)

(** ** Numbers *)

Lemma Qlt_bool_iff (x y : Q) : Qlt_bool x y = true <-> (x < y)%Q.
Proof.
  unfold Qlt_bool. rewrite negb_true_iff. split.
  - intros H. apply Qnot_le_lt. intros Hle.
    apply Qle_bool_iff in Hle. congruence.
  - intros H. destruct (Qle_bool y x) eqn:E; [|reflexivity].
    apply Qle_bool_iff in E. exfalso. apply (Qlt_not_le _ _ H E).
Qed.

Lemma Qlt_bool_false (x y : Q) : Qlt_bool x y = false <-> (y <= x)%Q.
Proof.
  unfold Qlt_bool. rewrite negb_false_iff. apply Qle_bool_iff.
Qed.

Lemma Qlt_bool_compare (x y : Q) :
  Qlt_bool x y = match Qcompare x y with Lt => true | _ => false end.
Proof.
  destruct (Qlt_bool x y) eqn:E.
  - apply Qlt_bool_iff in E. rewrite Qlt_alt in E.
    change (Qcompare x y = Lt) in E. now rewrite E.
  - apply Qlt_bool_false in E.
    destruct (Qcompare x y) eqn:C; try reflexivity.
    exfalso. apply (Qle_not_lt _ _ E). apply Qlt_alt. exact C.
Qed.

(** The two one-sided clamps of [Yval] are a maximum and a minimum. *)
Lemma clamp_lo_Qmax (y t : Q) : (if Qlt_bool y t then t else y) = Qmax y t.
Proof.
  unfold Qmax, GenericMinMax.gmax. rewrite Qlt_bool_compare.
  now destruct (Qcompare y t).
Qed.

Lemma clamp_hi_Qmin (y t : Q) : (if Qlt_bool t y then t else y) = Qmin y t.
Proof.
  unfold Qmin, GenericMinMax.gmin. rewrite Qlt_bool_compare.
  rewrite <- (Qcompare_antisym y t). now destruct (Qcompare y t).
Qed.

Lemma to_int_of_int (z : Z) : to_int (of_int z) = z.
Proof. unfold to_int, of_int. simpl. apply Z.quot_1_r. Qed.

(** ** Outcomes *)

Lemma bind_Ok_inv {A B : Type} (m : outcome A) (k : A -> outcome B) (b : B) :
  bind m k = Ok b -> exists a, m = Ok a /\ k a = Ok b.
Proof. destruct m; simpl; intros H; try discriminate. eauto. Qed.

(** ** Array accesses *)

Section Arrays.
Context {A : Type}.
Implicit Types (a : list A) (i : Z).

Lemma rd_Ok_inv a i x :
  rd a i = Ok x -> 0 <= i /\ a !! Z.to_nat i = Some x.
Proof.
  unfold rd. destruct (Z.ltb_spec i 0); [discriminate|].
  destruct (a !! Z.to_nat i) eqn:E; [|discriminate].
  intros [= ->]. split; [lia|reflexivity].
Qed.

Lemma rd_Ok a i x :
  0 <= i -> a !! Z.to_nat i = Some x -> rd a i = Ok x.
Proof.
  intros Hi E. unfold rd. destruct (Z.ltb_spec i 0); [lia|].
  now rewrite E.
Qed.

Lemma wr_Ok a i v :
  0 <= i < Z.of_nat (length a) -> wr a i v = Ok (<[Z.to_nat i := v]> a).
Proof.
  intros Hi. unfold wr.
  destruct (Z.leb_spec 0 i); [|lia].
  destruct (Z.ltb_spec i (Z.of_nat (length a))); [reflexivity|lia].
Qed.

Lemma upd_Ok a i g x :
  0 <= i -> a !! Z.to_nat i = Some x ->
  upd a i g = Ok (<[Z.to_nat i := g x]> a).
Proof.
  intros Hi E. unfold upd. rewrite (rd_Ok _ _ _ Hi E). simpl.
  apply wr_Ok. apply lookup_lt_Some in E. lia.
Qed.

Lemma upd_Ok_inv a i g a' :
  upd a i g = Ok a' ->
  0 <= i /\ exists x, a !! Z.to_nat i = Some x /\ a' = <[Z.to_nat i := g x]> a.
Proof.
  unfold upd. intros H. apply bind_Ok_inv in H as (x & Hr & Hw).
  apply rd_Ok_inv in Hr as [Hi E]. split; [exact Hi|].
  exists x. split; [exact E|].
  rewrite wr_Ok in Hw by (apply lookup_lt_Some in E; lia).
  now injection Hw as <-.
Qed.

Lemma upd_Undefined a i g :
  Z.of_nat (length a) <= i -> upd a i g = Undefined.
Proof.
  intros Hi. unfold upd, rd. destruct (Z.ltb_spec i 0); [reflexivity|].
  destruct (a !! Z.to_nat i) eqn:E; [|reflexivity].
  apply lookup_lt_Some in E. lia.
Qed.

End Arrays.

(** ** The quotients of [Yval] *)

Lemma x_value_Finite_fmap (Y : list Q) : x_value <$> (Finite <$> Y) = Y.
Proof.
  induction Y as [|y Y IH]; [reflexivity|]. cbn. now rewrite IH.
Qed.

(** With a denominator that does not vanish the two bins hold the clamped
    quotients. *)
Lemma raised_finite (d t2 y : Q) :
  ~ (1 - d * y == 0)%Q -> raised d t2 y = Qmin (y / (1 - d * y)) t2.
Proof.
  intros Hd. unfold raised, x_div.
  destruct (Qeq_bool (1 - d * y) 0) eqn:E;
    [apply Qeq_bool_iff in E; contradiction|].
  cbn [x_gt x_value]. rewrite <- clamp_hi_Qmin.
  destruct (Qlt_bool t2 (y / (1 - d * y))); reflexivity.
Qed.

Lemma lowered_finite (d t1 y : Q) :
  ~ (1 + d * y == 0)%Q -> lowered d t1 y = Qmax (y / (1 + d * y)) t1.
Proof.
  intros Hd. unfold lowered, x_div.
  destruct (Qeq_bool (1 + d * y) 0) eqn:E;
    [apply Qeq_bool_iff in E; contradiction|].
  cbn [x_lt x_value]. rewrite <- clamp_lo_Qmax.
  destruct (Qlt_bool (y / (1 + d * y)) t1); reflexivity.
Qed.

(** With a vanishing denominator the quotient is an infinity, and the
    clamp that faces it replaces it. *)
Lemma raised_infinite (d t2 y : Q) :
  (1 - d * y == 0)%Q -> (0 < y)%Q -> raised d t2 y = t2.
Proof.
  intros Hd Hy. unfold raised, x_div.
  rewrite (proj2 (Qeq_bool_iff _ _) Hd), (proj2 (Qlt_bool_iff _ _) Hy).
  reflexivity.
Qed.

Lemma lowered_infinite (d t1 y : Q) :
  (1 + d * y == 0)%Q -> (y < 0)%Q -> lowered d t1 y = t1.
Proof.
  intros Hd Hy. unfold lowered, x_div.
  rewrite (proj2 (Qeq_bool_iff _ _) Hd).
  assert (E : Qlt_bool 0 y = false) by (apply Qlt_bool_false; lra).
  rewrite E, (proj2 (Qlt_bool_iff _ _) Hy). reflexivity.
Qed.

(** ** The bin lookup of [Yval] *)

Section YvalFacts.
Variable cfg : config.

Lemma upd_not_Fatal {A : Type} (a : list A) (i : Z) (g : A -> A) (e : fatal) :
  upd a i g <> Fatal e.
Proof.
  unfold upd, rd, wr. destruct (i <? 0); [discriminate|].
  destruct (a !! Z.to_nat i); simpl; [|discriminate].
  destruct ((0 <=? i) && (i <? Z.of_nat (length a))); discriminate.
Qed.

Lemma Yval_guard potE :
  (Yval_index cfg potE <? 1) || (Yval_index cfg potE >? Nbin cfg - 1) = false <->
  1 <= Yval_index cfg potE <= Nbin cfg - 1.
Proof.
  rewrite orb_false_iff, Z.ltb_ge, Z.gtb_ltb, Z.ltb_ge. lia.
Qed.

Lemma Yval_fatal_iff potE s e :
  Yval cfg potE s = Fatal e <->
  e = HistogramIndexOutOfRange /\
  (Yval_index cfg potE < 1 \/ Yval_index cfg potE > Nbin cfg - 1).
Proof.
  unfold Yval. fold (Yval_index cfg potE).
  destruct ((Yval_index cfg potE <? 1) || (Yval_index cfg potE >? Nbin cfg - 1)) eqn:G.
  - apply orb_true_iff in G. rewrite Z.ltb_lt, Z.gtb_ltb, Z.ltb_lt in G.
    split; [intros [= <-]; split; [reflexivity|lia] | intros [-> _]; reflexivity].
  - apply Yval_guard in G. split; [|lia]. intros H. exfalso.
    repeat match type of H with
    | bind ?m _ = Fatal _ =>
        let E := fresh "E" in
        destruct m eqn:E; simpl in H;
        [ | apply upd_not_Fatal in E; exact E | discriminate ]
    end.
    discriminate.
Qed.

Lemma Yval_Ok_inv potE s i s' :
  Yval cfg potE s = Ok (i, s') ->
  i = Yval_index cfg potE /\ 1 <= i <= Nbin cfg - 1 /\
  exists yhi ylo,
    Y2 s !! Z.to_nat (i + 1) = Some yhi /\
    Y2 s !! Z.to_nat (i - 1) = Some ylo /\
    s' = set_Y2
           (<[Z.to_nat (i + 1) := raised (df s) (T2 s) yhi]>
              (<[Z.to_nat (i - 1) := lowered (df s) (T1 s) ylo]>
                 (Y2 s)))
           (set_curbin i s).
Proof.
  unfold Yval. fold (Yval_index cfg potE). set (j := Yval_index cfg potE).
  destruct ((j <? 1) || (j >? Nbin cfg - 1)) eqn:G; [discriminate|].
  apply Yval_guard in G. fold j in G. simpl Y2; simpl df; simpl T1; simpl T2.
  intros H.
  apply bind_Ok_inv in H as (Ya & Ha & H).
  apply bind_Ok_inv in H as (Yb & Hb & H).
  apply bind_Ok_inv in H as (Yc & Hc & H).
  apply bind_Ok_inv in H as (Yd & Hd & H).
  injection H as <- <-.
  apply upd_Ok_inv in Ha as (_ & xhi & Ehi & ->).
  apply upd_Ok_inv in Hb as (_ & xlo & Elo & ->).
  apply upd_Ok_inv in Hc as (_ & yc & Ec & ->).
  apply upd_Ok_inv in Hd as (_ & yd & Ed & ->).
  assert (Hne : Z.to_nat (j + 1) <> Z.to_nat (j - 1)) by lia.
  rewrite list_lookup_insert_ne in Elo by exact Hne.
  rewrite list_lookup_insert_eq in Ec
    by (rewrite length_insert; apply lookup_lt_Some in Elo; exact Elo).
  injection Ec as <-.
  rewrite list_insert_insert_eq in Ed.
  rewrite list_lookup_insert_ne in Ed by (intros E; apply Hne; now symmetry).
  rewrite list_lookup_insert_eq in Ed by (apply lookup_lt_Some in Ehi; exact Ehi).
  injection Ed as <-.
  rewrite list_lookup_fmap in Ehi, Elo.
  destruct (Y2 s !! Z.to_nat (j + 1)) as [yhi|] eqn:Fhi; [|discriminate].
  destruct (Y2 s !! Z.to_nat (j - 1)) as [ylo|] eqn:Flo; [|discriminate].
  injection Ehi as <-. injection Elo as <-.
  split; [reflexivity|]. split; [exact G|].
  exists yhi, ylo. split; [reflexivity|]. split; [reflexivity|].
  f_equal.
  rewrite !list_fmap_insert, x_value_Finite_fmap.
  rewrite list_insert_insert_eq.
  rewrite (list_insert_insert_ne _ (Z.to_nat (j - 1)) (Z.to_nat (j + 1)))
    by (intros E; apply Hne; now symmetry).
  rewrite list_insert_insert_eq.
  reflexivity.
Qed.

Lemma Yval_Ok potE s yhi ylo :
  let i := Yval_index cfg potE in
  1 <= i <= Nbin cfg - 1 ->
  Y2 s !! Z.to_nat (i + 1) = Some yhi ->
  Y2 s !! Z.to_nat (i - 1) = Some ylo ->
  Yval cfg potE s =
  Ok (i, set_Y2
           (<[Z.to_nat (i + 1) := raised (df s) (T2 s) yhi]>
              (<[Z.to_nat (i - 1) := lowered (df s) (T1 s) ylo]>
                 (Y2 s)))
           (set_curbin i s)).
Proof.
  intros i G Ehi Elo.
  assert (Hne : Z.to_nat (i + 1) <> Z.to_nat (i - 1)) by lia.
  pose proof (lookup_lt_Some _ _ _ Ehi) as Lhi.
  pose proof (lookup_lt_Some _ _ _ Elo) as Llo.
  assert (Fhi : (Finite <$> Y2 s) !! Z.to_nat (i + 1) = Some (Finite yhi))
    by (rewrite list_lookup_fmap, Ehi; reflexivity).
  assert (Flo : (Finite <$> Y2 s) !! Z.to_nat (i - 1) = Some (Finite ylo))
    by (rewrite list_lookup_fmap, Elo; reflexivity).
  assert (LF : length (Finite <$> Y2 s) = length (Y2 s))
    by apply length_fmap.
  unfold Yval. fold (Yval_index cfg potE).
  rewrite (proj2 (Yval_guard potE) G). fold i.
  simpl Y2; simpl df; simpl T1; simpl T2.
  rewrite (upd_Ok _ _ _ (Finite yhi)) by (lia || exact Fhi). simpl bind.
  rewrite (upd_Ok _ _ _ (Finite ylo))
    by (lia || (rewrite list_lookup_insert_ne by exact Hne; exact Flo)).
  simpl bind.
  rewrite (upd_Ok _ _ _ (x_quot (fun y => 1 + df s * y)%Q (Finite ylo)))
    by (lia || (apply list_lookup_insert_eq; rewrite length_insert, LF;
                exact Llo)).
  simpl bind. rewrite list_insert_insert_eq.
  rewrite (upd_Ok _ _ _ (x_quot (fun y => 1 - df s * y)%Q (Finite yhi)))
    by (lia || (rewrite list_lookup_insert_ne by (intros E; apply Hne; now symmetry);
                apply list_lookup_insert_eq; rewrite LF; exact Lhi)).
  simpl bind.
  rewrite !list_fmap_insert, x_value_Finite_fmap.
  rewrite (list_insert_insert_ne _ (Z.to_nat (i - 1)) (Z.to_nat (i + 1)))
    by (intros E; apply Hne; now symmetry).
  rewrite list_insert_insert_eq.
  reflexivity.
Qed.

(** The guard lets the index [N - 1] through, and the update then touches
    [Y2[N]], one past the end of the array. *)
Lemma Yval_top_bin_Undefined potE s :
  length (Y2 s) = Z.to_nat (Nbin cfg) ->
  Yval_index cfg potE = Nbin cfg - 1 -> 2 <= Nbin cfg ->
  Yval cfg potE s = Undefined.
Proof.
  intros L E HN. unfold Yval. fold (Yval_index cfg potE).
  rewrite (proj2 (Yval_guard potE)) by lia.
  simpl Y2. rewrite upd_Undefined; [reflexivity|].
  rewrite length_fmap, L. lia.
Qed.

End YvalFacts.

(** C1.  The bin lookup of [Yval] is not the one of the claim.  In the
    five-bin engine, window [0, 4], the energy 3 has
    [round(U/bin) - BinMin = 3 = N - 2], an interior bin for the claim.
    [Yval] computes the index [4 = N - 1], its guard [i < 1 || i > N - 1]
    raises no error, and the update reads and writes [Y2[5]] outside the
    array of five elements; so does the step that [post_force] runs.  One
    bin lower, at energy 2, [Yval] returns the index 3 where the claim
    has 2. *)
Theorem Yval_bin_lookup_off_by_one :
  c_round (3 / bin cfg5) - BinMin cfg5 = Nbin cfg5 - 2 /\
  Yval_index cfg5 3 = Nbin cfg5 - 1 /\
  Yval cfg5 3 st5 = Undefined /\
  post_force sqrt_q log_q exp_q cfg5 1 3 st5 = Undefined /\
  c_round (2 / bin cfg5) - BinMin cfg5 = 2 /\
  exists s', Yval cfg5 2 st5 = Ok (3, s').
Proof.
  repeat split; try reflexivity.
  eexists. vm_compute. reflexivity.
Qed.

(** C2.  For a sampled bin [i] with both neighbours inside the table, one
    call of [Yval] sets [Y2[i+1]] to [Y2[i+1] / (1 - df * Y2[i+1])] clamped
    to at most [T2], sets [Y2[i-1]] to [Y2[i-1] / (1 + df * Y2[i-1])]
    clamped to at least [T1], and leaves [Y2[i]] and every other bin as it
    was, for every table and every [df].  Where a denominator vanishes the
    quotient is an infinity: [+inf] above is clamped to [T2], [-inf] below
    is clamped to [T1]; with [df >= 0] these are the only infinities.  An
    infinity that faces no clamp ([-inf] above or [+inf] below, which take
    [df < 0]) stays in the bin, outside the rationals of the table; every
    other part of the statement holds there as well. *)
Theorem Yval_update (cfg : config) (potE : Q) (s : state) :
  let i := Yval_index cfg potE in
  length (Y2 s) = Z.to_nat (Nbin cfg) ->
  1 <= i <= Nbin cfg - 2 ->
  exists s' yhi ylo,
    Yval cfg potE s = Ok (i, s') /\
    Y2 s !! Z.to_nat (i + 1) = Some yhi /\
    Y2 s !! Z.to_nat (i - 1) = Some ylo /\
    (~ (1 - df s * yhi == 0)%Q ->
     Y2 s' !! Z.to_nat (i + 1)
     = Some (Qmin (yhi / (1 - df s * yhi)) (T2 s))) /\
    ((1 - df s * yhi == 0)%Q -> (0 < yhi)%Q ->
     Y2 s' !! Z.to_nat (i + 1) = Some (T2 s)) /\
    (~ (1 + df s * ylo == 0)%Q ->
     Y2 s' !! Z.to_nat (i - 1)
     = Some (Qmax (ylo / (1 + df s * ylo)) (T1 s))) /\
    ((1 + df s * ylo == 0)%Q -> (ylo < 0)%Q ->
     Y2 s' !! Z.to_nat (i - 1) = Some (T1 s)) /\
    ((0 <= df s)%Q ->
     ((1 - df s * yhi == 0)%Q -> Y2 s' !! Z.to_nat (i + 1) = Some (T2 s)) /\
     ((1 + df s * ylo == 0)%Q -> Y2 s' !! Z.to_nat (i - 1) = Some (T1 s))) /\
    Y2 s' !! Z.to_nat i = Y2 s !! Z.to_nat i /\
    (forall j : nat, j <> Z.to_nat (i + 1) -> j <> Z.to_nat (i - 1) ->
                     Y2 s' !! j = Y2 s !! j) /\
    length (Y2 s') = length (Y2 s).
Proof.
  intros i L G.
  destruct (lookup_lt_is_Some_2 (Y2 s) (Z.to_nat (i + 1))) as [yhi Ehi]; [lia|].
  destruct (lookup_lt_is_Some_2 (Y2 s) (Z.to_nat (i - 1))) as [ylo Elo]; [lia|].
  eexists _, yhi, ylo. split.
  { apply Yval_Ok; [fold i; lia | exact Ehi | exact Elo]. }
  fold i. simpl Y2.
  assert (Hne : Z.to_nat (i + 1) <> Z.to_nat (i - 1)) by lia.
  assert (Hhi : forall v : Q,
             raised (df s) (T2 s) yhi = v ->
             <[Z.to_nat (i + 1) := raised (df s) (T2 s) yhi]>
               (<[Z.to_nat (i - 1) := lowered (df s) (T1 s) ylo]> (Y2 s))
             !! Z.to_nat (i + 1) = Some v).
  { intros v <-. apply list_lookup_insert_eq. rewrite length_insert. lia. }
  assert (Hlo : forall v : Q,
             lowered (df s) (T1 s) ylo = v ->
             <[Z.to_nat (i + 1) := raised (df s) (T2 s) yhi]>
               (<[Z.to_nat (i - 1) := lowered (df s) (T1 s) ylo]> (Y2 s))
             !! Z.to_nat (i - 1) = Some v).
  { intros v <-. rewrite list_lookup_insert_ne by exact Hne.
    apply list_lookup_insert_eq. lia. }
  split; [exact Ehi|]. split; [exact Elo|].
  split; [intros N; apply Hhi, raised_finite, N|].
  split; [intros E P; apply Hhi, raised_infinite; assumption|].
  split; [intros N; apply Hlo, lowered_finite, N|].
  split; [intros E P; apply Hlo, lowered_infinite; assumption|].
  split.
  { intros Hd. split; intros E.
    - apply Hhi, raised_infinite; [exact E|].
      destruct (Qlt_le_dec 0 yhi) as [P | P]; [exact P | exfalso; nra].
    - apply Hlo, lowered_infinite; [exact E|].
      destruct (Qlt_le_dec ylo 0) as [P | P]; [exact P | exfalso; nra]. }
  split; [|split].
  - rewrite !list_lookup_insert_ne by lia. reflexivity.
  - intros j H1 H2. rewrite !list_lookup_insert_ne by congruence. reflexivity.
  - now rewrite !length_insert.
Qed.

Lemma Yval_update_witness :
  exists s' yhi ylo,
    Yval cfg5 1 st5 = Ok (2, s') /\
    Y2 st5 !! Z.to_nat (2 + 1) = Some yhi /\
    Y2 st5 !! Z.to_nat (2 - 1) = Some ylo /\
    (~ (1 - df st5 * yhi == 0)%Q ->
     Y2 s' !! Z.to_nat (2 + 1)
     = Some (Qmin (yhi / (1 - df st5 * yhi)) (T2 st5))) /\
    ((1 - df st5 * yhi == 0)%Q -> (0 < yhi)%Q ->
     Y2 s' !! Z.to_nat (2 + 1) = Some (T2 st5)) /\
    (~ (1 + df st5 * ylo == 0)%Q ->
     Y2 s' !! Z.to_nat (2 - 1)
     = Some (Qmax (ylo / (1 + df st5 * ylo)) (T1 st5))) /\
    ((1 + df st5 * ylo == 0)%Q -> (ylo < 0)%Q ->
     Y2 s' !! Z.to_nat (2 - 1) = Some (T1 st5)) /\
    ((0 <= df st5)%Q ->
     ((1 - df st5 * yhi == 0)%Q ->
      Y2 s' !! Z.to_nat (2 + 1) = Some (T2 st5)) /\
     ((1 + df st5 * ylo == 0)%Q ->
      Y2 s' !! Z.to_nat (2 - 1) = Some (T1 st5))) /\
    Y2 s' !! Z.to_nat 2 = Y2 st5 !! Z.to_nat 2 /\
    (forall j : nat, j <> Z.to_nat (2 + 1) -> j <> Z.to_nat (2 - 1) ->
                     Y2 s' !! j = Y2 st5 !! j) /\
    length (Y2 s') = length (Y2 st5).
Proof.
  apply (Yval_update cfg5 1 st5); [reflexivity | vm_compute; split; discriminate].
Defined.

(** The first step of a run with [initf = 0.5], unit bins and [T2 = 2] has
    [df = 1/2]: the denominator [1 - df * Y2[i+1]] vanishes, the quotient
    is [+inf] and the clamp leaves [T2] in the bin. *)
Example Yval_vanishing_denominator :
  exists s' : state,
    Yval cfg5 1 (set_df (1 # 2) st5) = Ok (2, s') /\
    (1 - df (set_df (1 # 2) st5) * 2 == 0)%Q /\
    Y2 s' !! 3%nat = Some (T2 (set_df (1 # 2) st5)) /\
    Y2 s' = [2; 4 # 4; 2; 2; 2]%Q.
Proof. eexists. split; [vm_compute; reflexivity|]. repeat split. Qed.

(** ** The clamping invariant *)

Lemma update_up_in_range (d y t1 t2 : Q) :
  (0 <= d -> d * t2 < 1 -> t1 <= y <= t2 ->
   t1 <= Qmin (y / (1 - d * y)) t2 <= t2 /\
   (0 <= t2 -> 0 <= y -> 0 <= Qmin (y / (1 - d * y)) t2))%Q.
Proof.
  intros Hd Ht [Hlo Hhi].
  assert (Hden : (0 < 1 - d * y)%Q) by nra.
  assert (Hup : (y <= y / (1 - d * y))%Q).
  { apply Qle_shift_div_l; [exact Hden|]. nra. }
  split; [split; [|apply Q.le_min_r]|].
  - apply Q.min_glb; lra.
  - intros H2 Hy. apply Q.min_glb; lra.
Qed.

Lemma update_down_in_range (d y t1 t2 : Q) :
  (0 <= d -> 0 <= y \/ -1 < d * t1 -> t1 <= y <= t2 ->
   t1 <= Qmax (y / (1 + d * y)) t1 <= t2 /\
   (0 <= y -> 0 <= Qmax (y / (1 + d * y)) t1))%Q.
Proof.
  intros Hd Ht [Hlo Hhi].
  assert (Hden : (0 < 1 + d * y)%Q) by (destruct Ht; nra).
  assert (Hdown : (y / (1 + d * y) <= y)%Q).
  { apply Qle_shift_div_r; [exact Hden|]. nra. }
  split; [split; [apply Q.le_max_r|]|].
  - apply Q.max_lub; lra.
  - intros Hy. apply Qle_trans with (y / (1 + d * y))%Q; [|apply Q.le_max_l].
    apply Qle_shift_div_l; [exact Hden|]. lra.
Qed.

Lemma Yval_in_range cfg potE s i s' :
  in_range s -> nonneg_table s -> df_small s ->
  Yval cfg potE s = Ok (i, s') ->
  in_range s' /\ nonneg_table s' /\ T1 s' = T1 s /\ T2 s' = T2 s.
Proof.
  intros R NN (Hd & Hhi & Hlo) H.
  apply Yval_Ok_inv in H as (_ & _ & yhi & ylo & Ehi & Elo & ->).
  unfold in_range, nonneg_table in *. simpl.
  pose proof (proj1 (Forall_lookup _ _) R _ _ Ehi) as Rhi.
  pose proof (proj1 (Forall_lookup _ _) R _ _ Elo) as Rlo.
  assert (Hlo' : (0 <= ylo \/ -1 < df s * T1 s)%Q).
  { destruct Hlo as [H2|Hl]; [left | right; exact Hl].
    apply (proj1 (Forall_lookup _ _) (NN H2) _ _ Elo). }
  assert (Nhi : ~ (1 - df s * yhi == 0)%Q)
    by (intros E; destruct Rhi; nra).
  assert (Nlo : ~ (1 + df s * ylo == 0)%Q)
    by (intros E; destruct Rlo; destruct Hlo'; nra).
  rewrite (raised_finite _ _ _ Nhi), (lowered_finite _ _ _ Nlo).
  destruct (update_up_in_range _ _ _ _ Hd Hhi Rhi) as [Ur Upos].
  destruct (update_down_in_range _ _ _ _ Hd Hlo' Rlo) as [Dr Dpos].
  split; [|split; [|split; reflexivity]].
  - apply Forall_insert; [apply Forall_insert; [exact R|]|]; assumption.
  - intros H2. specialize (NN H2).
    apply Forall_insert; [apply Forall_insert; [exact NN|]|].
    + apply Dpos. apply (proj1 (Forall_lookup _ _) NN _ _ Elo).
    + apply Upos; [exact H2|]. apply (proj1 (Forall_lookup _ _) NN _ _ Ehi).
Qed.

(** C3 as amended.  Starting from the initial table, all bins at [T2] with
    [T1 <= T2], after any finite sequence of [Yval] updates each made with
    a learning rate [df >= 0] such that [df * T2 < 1] (and, should [T2] be
    negative, [-1 < df * T1]), every bin lies in [[T1, T2]]. *)
Theorem Yval_reach_in_range (cfg : config) (s : state) :
  Yval_reach cfg df_small s -> in_range s.
Proof.
  intros H.
  enough (in_range s /\ nonneg_table s /\ (T1 s <= T2 s)%Q) by tauto.
  induction H as [s E Hle | s potE i s' _ (IH & NN & Hle) Hok H | s d _ IH].
  - unfold in_range, nonneg_table. rewrite E.
    split; [|split; [|exact Hle]].
    + apply Forall_replicate. split; [exact Hle | apply Qle_refl].
    + intros H2. apply Forall_replicate. exact H2.
  - destruct (Yval_in_range _ _ _ _ _ IH NN Hok H) as (R & NN' & E1 & E2).
    split; [exact R|]. split; [exact NN'|]. now rewrite E1, E2.
  - exact IH.
Qed.

Lemma Yval_reach_in_range_witness :
  in_range (set_Y2 [2; 200 # 102; 2; 2; 2]%Q (set_curbin 2 st5)).
Proof.
  apply (Yval_reach_in_range cfg5).
  apply (reach_Yval cfg5 df_small st5 1 2).
  - apply reach_initial; [reflexivity | vm_compute; discriminate].
  - split; [|split; [|left]]; vm_compute; (reflexivity || discriminate).
  - vm_compute. reflexivity.
Defined.

(** C3 as stated fails.  With [df = 1 >= 0], [T1 = 1/2] and [T2 = 2], the
    first update from the initial table at bin 2 takes [Y2[3]] from 2 to
    [2 / (1 - 2) = -2], below [T1]; only the upper clamp is applied to that
    bin. *)
Lemma Yval_reach_not_in_range :
  ~ (forall s : state,
       Yval_reach cfg5 (fun s => (0 <= df s)%Q) s -> in_range s).
Proof.
  intros H.
  assert (R : Yval_reach cfg5 (fun s => (0 <= df s)%Q)
                (set_Y2 [2; 2 # 3; 2; -2 # 1; 2]%Q
                   (set_curbin 2 (set_df 1 st5)))).
  { apply (reach_Yval cfg5 _ (set_df 1 st5) 1 2).
    - apply reach_schedule. apply reach_initial; [reflexivity|].
      vm_compute. discriminate.
    - vm_compute. discriminate.
    - vm_compute. reflexivity. }
  apply H in R. unfold in_range in R.
  apply (proj1 (Forall_lookup _ _)) with (i := 3%nat) (x := (-2 # 1)%Q) in R;
    [|reflexivity].
  destruct R as [R _]. vm_compute in R. apply R. reflexivity.
Qed.

(** ** [dig] *)

Lemma dig_scan_spec (Y : list Q) (i : nat) (k : Q) (n : nat) :
  let '(k', n') := dig_scan Y i k n in
  (k' <= k)%Q /\ Forall (fun z => (k' <= z)%Q) Y /\
  ((k' = k /\ n' = n /\ Forall (fun z => (k < z)%Q) Y) \/
   (exists j : nat,
      Y !! j = Some k' /\ n' = (i + j)%nat /\
      forall (j' : nat) (z : Q),
        (j < j')%nat -> Y !! j' = Some z -> (k' < z)%Q)).
Proof.
  revert i k n. induction Y as [|y Y IH]; intros i k n; simpl.
  - split; [apply Qle_refl|]. split; [constructor|]. left. auto.
  - destruct (Qle_bool y k) eqn:E.
    + apply Qle_bool_iff in E.
      specialize (IH (S i) y i). destruct (dig_scan Y (S i) y i) as [k' n'].
      destruct IH as (Hk & HF & Hc). split; [lra|].
      split; [constructor; assumption|]. right.
      destruct Hc as [(-> & -> & Hgt) | (j & Ej & -> & Hlast)].
      * exists 0%nat. split; [reflexivity|]. split; [lia|].
        intros [|j'] z Hj Ez; [lia|]. simpl in Ez.
        apply (proj1 (Forall_lookup _ _) Hgt _ _ Ez).
      * exists (S j). split; [exact Ej|]. split; [lia|].
        intros [|j'] z Hj Ez; [lia|]. simpl in Ez.
        apply (Hlast j' z); [lia | exact Ez].
    + assert (Hlt : (k < y)%Q).
      { apply Qnot_le_lt. intros Hle. apply Qle_bool_iff in Hle. congruence. }
      specialize (IH (S i) k n). destruct (dig_scan Y (S i) k n) as [k' n'].
      destruct IH as (Hk & HF & Hc). split; [exact Hk|].
      split; [constructor; [lra | assumption]|].
      destruct Hc as [(-> & -> & Hgt) | (j & Ej & -> & Hlast)].
      * left. repeat split. constructor; assumption.
      * right. exists (S j). split; [exact Ej|]. split; [lia|].
        intros [|j'] z Hj Ez; [lia|]. simpl in Ez.
        apply (Hlast j' z); [lia | exact Ez].
Qed.

Lemma dig_fill_S (k : Q) (n : nat) (Y : list Q) :
  dig_fill k (S n) Y = <[n := k]> (dig_fill k n Y).
Proof.
  unfold dig_fill. rewrite seq_S, fold_left_app. reflexivity.
Qed.

Lemma dig_fill_length (k : Q) (n : nat) (Y : list Q) :
  length (dig_fill k n Y) = length Y.
Proof.
  induction n as [|n IH]; [reflexivity|].
  now rewrite dig_fill_S, length_insert.
Qed.

Lemma dig_fill_lookup_lt (k : Q) (n : nat) (Y : list Q) (i : nat) :
  (i < n)%nat -> (i < length Y)%nat -> dig_fill k n Y !! i = Some k.
Proof.
  induction n as [|n IH]; intros Hi HL; [lia|].
  rewrite dig_fill_S. destruct (decide (n = i)) as [->|Hne].
  - apply list_lookup_insert_eq. now rewrite dig_fill_length.
  - rewrite list_lookup_insert_ne by exact Hne. apply IH; [lia | exact HL].
Qed.

Lemma dig_fill_lookup_ge (k : Q) (n : nat) (Y : list Q) (i : nat) :
  (n <= i)%nat -> dig_fill k n Y !! i = Y !! i.
Proof.
  induction n as [|n IH]; intros Hi; [reflexivity|].
  rewrite dig_fill_S, list_lookup_insert_ne by lia. apply IH. lia.
Qed.

(** C8 as amended.  On a nonempty table [dig] selects the largest index
    [istar] that attains the minimum of [Y2] (the scan tests
    [Y2[i] <= keepmin], so ties go to the largest index), assigns that
    minimum to every bin below [istar], and leaves the bins at or above
    [istar] and the rest of the state as they were. *)
Theorem dig_fills_below_last_minimum (s : state) :
  Y2 s <> [] ->
  exists (s' : state) (istar : nat) (ymin : Q),
    dig s = Ok s' /\
    attains_min (Y2 s) istar ymin /\
    (forall (j : nat) (y : Q),
        (istar < j)%nat -> Y2 s !! j = Some y -> (ymin < y)%Q) /\
    (forall i : nat, (i < istar)%nat -> Y2 s' !! i = Some ymin) /\
    (forall i : nat, (istar <= i)%nat -> Y2 s' !! i = Y2 s !! i) /\
    s' = set_Y2 (Y2 s') s.
Proof.
  intros Hne. unfold dig.
  destruct (Y2 s) as [|y0 Y] eqn:EY; [congruence|].
  change (rd (y0 :: Y) 0) with (Ok y0). cbv beta iota delta [bind].
  pose proof (dig_scan_spec (y0 :: Y) 0 y0 0) as H.
  destruct (dig_scan (y0 :: Y) 0 y0 0) as [k' n'].
  destruct H as (Hk & HF & Hc).
  destruct Hc as [(_ & _ & Hgt) | (j & Ej & -> & Hlast)].
  { exfalso. inversion Hgt as [|? ? Hlt _]. revert Hlt. apply Qlt_irrefl. }
  exists (set_Y2 (dig_fill k' (0 + j) (y0 :: Y)) s), j, k'.
  simpl Y2. repeat split; try assumption.
  - intros i Hi. apply dig_fill_lookup_lt; [lia|].
    apply lookup_lt_Some in Ej. lia.
  - intros i Hi. apply dig_fill_lookup_ge. lia.
Qed.

Lemma dig_fills_below_last_minimum_witness :
  exists (s' : state) (istar : nat) (ymin : Q),
    dig (set_Y2 [2; 1; 3; 1; 5]%Q st5) = Ok s' /\
    attains_min [2; 1; 3; 1; 5]%Q istar ymin /\
    (forall (j : nat) (y : Q),
        (istar < j)%nat -> [2; 1; 3; 1; 5]%Q !! j = Some y -> (ymin < y)%Q) /\
    (forall i : nat, (i < istar)%nat -> Y2 s' !! i = Some ymin) /\
    (forall i : nat, (istar <= i)%nat -> Y2 s' !! i = [2; 1; 3; 1; 5]%Q !! i) /\
    s' = set_Y2 (Y2 s') (set_Y2 [2; 1; 3; 1; 5]%Q st5).
Proof.
  apply (dig_fills_below_last_minimum (set_Y2 [2; 1; 3; 1; 5]%Q st5)).
  simpl. discriminate.
Defined.

(** C8 as stated fails.  On the table [2; 1; 3; 1; 5] the smallest index
    that attains the minimum is 1, and the claim leaves bin 2 at 3; [dig]
    takes the last minimum, at index 3, and sets bin 2 to 1. *)
Lemma dig_not_first_minimum :
  ~ (forall s s' : state,
       dig s = Ok s' ->
       exists (istar : nat) (ymin : Q),
         attains_min (Y2 s) istar ymin /\
         (forall (j : nat) (y : Q),
             (j < istar)%nat -> Y2 s !! j = Some y -> (ymin < y)%Q) /\
         (forall i : nat, (i < istar)%nat -> Y2 s' !! i = Some ymin) /\
         (forall i : nat, (istar <= i)%nat -> Y2 s' !! i = Y2 s !! i)).
Proof.
  intros H.
  destruct (H (set_Y2 [2; 1; 3; 1; 5]%Q st5)
              (set_Y2 [1; 1; 1; 1; 5]%Q st5) eq_refl)
    as (istar & ymin & [Ei HF] & Hfirst & _ & Hframe).
  simpl in Ei, HF, Hfirst, Hframe.
  assert (H1 : (ymin <= 1)%Q).
  { apply (proj1 (Forall_lookup _ _) HF 1%nat). reflexivity. }
  destruct istar as [|[|[|[|[|istar]]]]]; simpl in Ei; try discriminate;
    injection Ei as <-.
  - revert H1. vm_compute. intros H1. apply H1. reflexivity.
  - specialize (Hframe 2%nat ltac:(lia)). discriminate.
  - revert H1. vm_compute. intros H1. apply H1. reflexivity.
  - specialize (Hfirst 1%nat 1%Q ltac:(lia) eq_refl).
    revert Hfirst. apply Qlt_irrefl.
  - revert H1. vm_compute. intros H1. apply H1. reflexivity.
Qed.

(** ** [HCHK] *)

Lemma Qle_bool_comp (x x' y y' : Q) :
  (x == x')%Q -> (y == y')%Q -> Qle_bool x y = Qle_bool x' y'.
Proof.
  intros Hx Hy.
  destruct (Qle_bool x y) eqn:E1; destruct (Qle_bool x' y') eqn:E2;
    try reflexivity; exfalso.
  - apply Qle_bool_iff in E1. rewrite Hx, Hy in E1.
    apply Qle_bool_iff in E1. congruence.
  - apply Qle_bool_iff in E2. rewrite <- Hx, <- Hy in E2.
    apply Qle_bool_iff in E2. congruence.
Qed.

Lemma Qlt_bool_comp (x x' y y' : Q) :
  (x == x')%Q -> (y == y')%Q -> Qlt_bool x y = Qlt_bool x' y'.
Proof.
  intros Hx Hy. unfold Qlt_bool. f_equal. now apply Qle_bool_comp.
Qed.

Lemma in_cut_iff (s : state) (y : Q) :
  in_cut s y = true <-> (CTmin s < y /\ y < CTmax s)%Q.
Proof.
  unfold in_cut. rewrite andb_true_iff, !Qlt_bool_iff. reflexivity.
Qed.

Section HCHKFacts.
Variable s : state.


(** The first loop: the sum and the number of the qualifying bins. *)
Lemma HCHK_mean_loop (l : list (Q * Z)) (a0 : Q) (c0 : Z) :
  let '(a, c) :=
    fold_left (fun '(aveH, icnt) '(y, h) =>
                 if in_cut s y then ((aveH + of_int h)%Q, icnt + 1)
                 else (aveH, icnt)) l (a0, c0) in
  (a == a0 + inject_Z (hist_sum (List.filter (fun p => in_cut s (fst p)) l)))%Q /\
  c = c0 + Z.of_nat (length (List.filter (fun p => in_cut s (fst p)) l)).
Proof.
  revert a0 c0. induction l as [|[y h] l IH]; intros a0 c0; simpl.
  - split; [ring | lia].
  - destruct (in_cut s y) eqn:E; simpl.
    + specialize (IH (a0 + of_int h)%Q (c0 + 1)).
      destruct (fold_left _ l _) as [a c]. destruct IH as [Ha Hc].
      split; [|lia]. rewrite Ha. unfold of_int. rewrite inject_Z_plus. ring.
    + apply IH.
Qed.

(** The second loop: the number of qualifying bins that deviate. *)
Lemma HCHK_check_loop (dev : Q * Z -> bool) (l : list (Q * Z)) (k0 : Z) :
  fold_left (fun ichk '(y, h) =>
               if in_cut s y then
                 if dev (y, h) then ichk + 1 else ichk
               else ichk) l k0 =
  k0 + Z.of_nat (length (List.filter dev (List.filter (fun p => in_cut s (fst p)) l))).
Proof.
  revert k0. induction l as [|[y h] l IH]; intros k0; simpl; [lia|].
  rewrite IH. destruct (in_cut s y); simpl; [|reflexivity].
  destruct (dev (y, h)); simpl; lia.
Qed.

Lemma hist_sum_nonneg (l : list (Q * Z)) :
  Forall (fun p => 0 <= snd p) l -> 0 <= hist_sum l.
Proof.
  induction 1 as [|p l Hp _ IH]; simpl; lia.
Qed.

End HCHKFacts.

Lemma In_zip_r {A B : Type} (l : list A) (k : list B) (a : A) (b : B) :
  In (a, b) (zip l k) -> In b k.
Proof.
  revert k. induction l as [|x l IH]; intros [|y k]; simpl; try tauto.
  intros [[= <- <-]|H]; [left; reflexivity | right; eauto].
Qed.

Lemma filter_ext_Forall {A : Type} (p q : A -> bool) (l : list A) :
  Forall (fun x => p x = q x) l -> List.filter p l = List.filter q l.
Proof.
  induction 1 as [|x l Hx _ IH]; simpl; [reflexivity|].
  rewrite Hx, IH. reflexivity.
Qed.

(** The deviation test of the source, [abs((Hist[i] - aveH) / aveH) > HCKtol],
    is the one of the specification when the mean is not negative. *)
Lemma deviates_code (aveH mean : Q) (p : Q * Z) :
  (aveH == mean)%Q -> (0 <= mean)%Q ->
  Qlt_bool HCKtol (Qabs ((of_int (snd p) - aveH) / aveH)) = deviates mean p.
Proof.
  intros E Hm. unfold deviates, of_int. apply Qlt_bool_comp; [reflexivity|].
  rewrite E. unfold Qdiv. rewrite Qabs_Qmult, Qabs_Qinv.
  rewrite (Qabs_pos mean Hm). reflexivity.
Qed.

(** C7.  For every table and every histogram of nonnegative counts, [HCHK]
    is the flatness check of the specification: [SWfold] receives the
    previous [SWf]; the mean of [Hist] is taken over exactly the bins with
    [CTmin < Y2[i] < CTmax]; with no such bin nothing else changes;
    otherwise [SWf] is incremented exactly when no qualifying bin has
    [|Hist[i] - mean| / mean > HCKtol], the deviation being real-valued.
    A change is reported, [SWfold != SWf] after the call, exactly in that
    case. *)
Theorem HCHK_flatness (s : state) :
  Forall (fun h => 0 <= h) (Hist s) ->
  HCHK s = hchk_spec s /\
  SWfold (HCHK s) = SWf s /\
  (SWfold (HCHK s) <> SWf (HCHK s) <->
   qualifying s <> [] /\
   List.filter (deviates (hist_mean (qualifying s))) (qualifying s) = []).
Proof.
  intros Hnn.
  assert (Hq : Forall (fun p : Q * Z => 0 <= snd p) (qualifying s)).
  { apply List.Forall_forall. intros [y h] Hin.
    apply List.filter_In in Hin as [Hin _]. apply In_zip_r in Hin.
    apply (proj1 (List.Forall_forall _ _) Hnn _ Hin). }
  assert (E : HCHK s = hchk_spec s).
  { unfold HCHK, hchk_spec.
    set (s0 := set_SWfold (SWf s) s).
    change (Y2 s0) with (Y2 s). change (Hist s0) with (Hist s).
    pose proof (HCHK_mean_loop s0 (zip (Y2 s) (Hist s)) 0%Q 0) as H1.
    destruct (fold_left _ (zip (Y2 s) (Hist s)) (0%Q, 0)) as [a c].
    change (List.filter (fun p => in_cut s0 (fst p)) (zip (Y2 s) (Hist s)))
      with (qualifying s) in H1.
    destruct H1 as [Ha ->].
    destruct (qualifying s) as [|p q] eqn:EQ; [reflexivity|].
    rewrite <- EQ in *.
    replace (0 + Z.of_nat (length (qualifying s)) =? 0) with false
      by (symmetry; apply Z.eqb_neq; rewrite EQ; simpl; lia).
    rewrite (HCHK_check_loop s0
               (fun p => Qlt_bool HCKtol
                  (Qabs ((of_int (snd p)
                          - a / of_int (0 + Z.of_nat (length (qualifying s))))
                         / (a / of_int (0 + Z.of_nat (length (qualifying s)))))))).
    change (List.filter (fun p => in_cut s0 (fst p)) (zip (Y2 s) (Hist s)))
      with (qualifying s).
    rewrite (filter_ext_Forall _ (deviates (hist_mean (qualifying s)))).
    - destruct (List.filter _ (qualifying s)) as [|x l]; [reflexivity|].
      destruct (Z.ltb_spec (0 + Z.of_nat (length (x :: l))) 1) as [Hlt|_];
        [simpl in Hlt; lia | reflexivity].
    - apply List.Forall_forall. intros x _. apply deviates_code.
      + unfold hist_mean, of_int. rewrite Ha. simpl (0 + _). 
        apply Qdiv_comp; [ring | reflexivity].
      + unfold hist_mean. apply Qle_shift_div_l.
        * rewrite EQ. simpl. reflexivity.
        * rewrite Qmult_0_l. rewrite <- (Zle_Qle 0).
          now apply hist_sum_nonneg. }
  split; [exact E|]. rewrite E. unfold hchk_spec.
  destruct (qualifying s) as [|p q] eqn:EQ.
  - simpl. split; [reflexivity|].
    split; [congruence | intros [H _]; congruence].
  - destruct (List.filter (deviates (hist_mean (p :: q))) (p :: q)) eqn:EF;
      simpl.
    + split; [reflexivity|]. split; [intros _; split; congruence | lia].
    + split; [reflexivity|]. split; [congruence | intros [_ H]; congruence].
Qed.

Lemma HCHK_flatness_witness :
  HCHK st5_flat = hchk_spec st5_flat /\
  SWfold (HCHK st5_flat) = SWf st5_flat /\
  (SWfold (HCHK st5_flat) <> SWf (HCHK st5_flat) <->
   qualifying st5_flat <> [] /\
   List.filter (deviates (hist_mean (qualifying st5_flat)))
     (qualifying st5_flat) = []).
Proof.
  apply (HCHK_flatness st5_flat).
  simpl. repeat (constructor; [lia|]). constructor.
Defined.

(** The flat histogram raises [SWf]; one bin off by more than a fifth of
    the mean does not. *)
Example HCHK_flat : SWf (HCHK st5_flat) = 2 /\ SWfold (HCHK st5_flat) = 1.
Proof. split; reflexivity. Qed.

Example HCHK_not_flat :
  SWf (HCHK (set_Hist [0; 10; 13; 7; 0] st5_flat)) = 1.
Proof. reflexivity. Qed.

(** ** The exchange rule *)

(** C9.  When either walker of a pair reports stage 1 the exchange is
    rejected, whatever the Metropolis factor, the random number, the
    energies and the windows are; in particular when both energies lie
    inside both windows. *)
Theorem stage1_forces_reject (exp : Q -> Q) (EX_flag : Z) (boltz : Q)
    (a b : TemperStmd.walker) (u : Q) :
  TemperStmd.STG_me a = 1 \/ TemperStmd.STG_me b = 1 ->
  TemperStmd.exchange exp EX_flag boltz a b u = false.
Proof.
  intros H. unfold TemperStmd.exchange, TemperStmd.admitted.
  apply andb_false_iff. left.
  destruct H as [-> | ->]; unfold TemperStmd.stage_gate; simpl;
    rewrite ?andb_false_r; reflexivity.
Qed.

(** Walker A in stage 1 at energy 2, walker B in stage 2 at energy 1, both
    windows [0, 4], swaps turned on and a Metropolis factor of 0. *)
Lemma stage1_forces_reject_witness :
  TemperStmd.exchange exp_q 1 1
    (TemperStmd.mkWalker 2 1 1 0 4) (TemperStmd.mkWalker 1 1 2 0 4) (1 # 2)
  = false.
Proof.
  apply (stage1_forces_reject exp_q 1 1
           (TemperStmd.mkWalker 2 1 1 0 4) (TemperStmd.mkWalker 1 1 2 0 4)).
  left. reflexivity.
Defined.

(** The same pair with both walkers in stage 2 is exchanged. *)
Example stage2_pair_exchanged :
  TemperStmd.exchange exp_q 1 1
    (TemperStmd.mkWalker 2 1 2 0 4) (TemperStmd.mkWalker 1 1 2 0 4) (1 # 2)
  = true.
Proof. reflexivity. Qed.

(** ** The restart file *)

Lemma nb_digits_pos (n : N) : 1 <= nb_digits n.
Proof.
  unfold nb_digits.
  assert (H : N.to_uint n <> Nil).
  { destruct n as [|p]; [discriminate|]. apply Unsigned.to_uint_nonnil. }
  destruct (N.to_uint n); [congruence | simpl; lia ..].
Qed.

Lemma numeral_len_fmt_f (x : Q) : 8 <= numeral_len (fmt_f x).
Proof.
  unfold fmt_f, numeral_len.
  pose proof (nb_digits_pos (round_half_even (Qabs x * inject_Z million)
                             / 1000000)%N).
  destruct (Qlt_bool x 0); lia.
Qed.

Lemma numeral_len_fmt_d (z : Z) : 1 <= numeral_len (fmt_d z).
Proof.
  unfold fmt_d, numeral_len.
  pose proof (nb_digits_pos (Z.to_N (Z.abs z))).
  destruct (z <? 0); lia.
Qed.

Lemma file_size_cons (t : numeral) (l : list numeral) :
  file_size (t :: l) = numeral_len t + 1 + file_size l.
Proof. reflexivity. Qed.

Lemma file_size_app (l k : list numeral) :
  file_size (l ++ k) = file_size l + file_size k - 3.
Proof.
  induction l as [|t l IH]; [change (file_size []) with 3; simpl app; lia|].
  rewrite <- app_comm_cons, !file_size_cons, IH. lia.
Qed.

Lemma file_size_fmt_f {A : Type} (g : A -> Q) (l : list A) :
  3 + 9 * Z.of_nat (length l) <= file_size ((fun x => fmt_f (g x)) <$> l).
Proof.
  induction l as [|x l IH]; [simpl; lia|].
  rewrite fmap_cons, file_size_cons. cbn [length].
  pose proof (numeral_len_fmt_f (g x)). lia.
Qed.

(** A written file passes the size test of [init]: every ["%f"] numeral
    and its separator take at least nine bytes. *)
Lemma write_orest_size (s : state) :
  8 * Z.of_nat (length (orest_list s)) <= file_size (orest_list s).
Proof.
  unfold orest_list. rewrite !file_size_app, !length_app, !length_fmap.
  assert (HY : 3 + 9 * Z.of_nat (length (Y2 s)) <= file_size (fmt_f <$> Y2 s))
    by apply (file_size_fmt_f (fun x => x)).
  pose proof (file_size_fmt_f of_int (Htot s)) as HT.
  pose proof (file_size_fmt_f of_int (PROH s)) as HP.
  rewrite !file_size_cons. change (file_size []) with 3. cbn [length].
  pose proof (numeral_len_fmt_d (STG s)).
  repeat match goal with
  | |- context [numeral_len (fmt_f ?x)] =>
      lazymatch goal with
      | _ : 8 <= numeral_len (fmt_f x) |- _ => fail
      | _ => pose proof (numeral_len_fmt_f x)
      end
  end.
  lia.
Qed.

Lemma orest_list_length (s : state) :
  length (orest_list s)
  = (13 + length (Y2 s) + length (Htot s) + length (PROH s))%nat.
Proof.
  unfold orest_list. rewrite !length_app, !length_fmap. simpl. lia.
Qed.

(** An integer survives the ["%f"] format. *)
Lemma reread_of_int (z : Z) : to_int (reread (of_int z)) = z.
Proof.
  unfold reread, fmt_f, of_int, numeral_value, round_half_even.
  change (Qabs (inject_Z z) * inject_Z million)%Q
    with (Qmake (Z.abs z * million) 1).
  cbn [Qnum Qden]. rewrite Z.div_1_r, Z.mod_1_r.
  change (2 * 0 <? 1) with true. cbv iota.
  rewrite Z2N.id by (unfold million; lia).
  replace (Qlt_bool (inject_Z z) 0) with (z <? 0).
  - unfold to_int, million.
    destruct (Z.ltb_spec z 0); cbn [Qopp Qnum Qden].
    + rewrite Z.quot_opp_l, Z.quot_mul by lia. lia.
    + rewrite Z.quot_mul by lia. lia.
  - unfold Qlt_bool, Qle_bool, inject_Z. cbn [Qnum Qden].
    rewrite Z.mul_1_r. simpl (0 * 1).
    destruct (Z.ltb_spec z 0); destruct (Z.leb_spec 0 z); reflexivity || lia.
Qed.

(** The ["%f"] format rounds to the nearest millionth: the value read
    back is within half a millionth of the value written, and it is the
    value written when that has at most six decimals. *)
Lemma round_half_even_close (x : Q) :
  (0 <= x)%Q ->
  (Qabs (inject_Z (Z.of_N (round_half_even x)) - x) <= 1 # 2)%Q.
Proof.
  destruct x as [a d]. unfold Qle at 1. cbn [Qnum Qden]. intros Ha.
  rewrite Z.mul_1_r in Ha. simpl in Ha.
  unfold round_half_even. cbn [Qnum Qden].
  pose proof (Z.div_mod a (Z.pos d) ltac:(lia)) as Hdm.
  pose proof (Z.mod_pos_bound a (Z.pos d) ltac:(lia)) as Hr.
  assert (Hq : 0 <= a / Z.pos d) by (apply Z.div_pos; lia).
  set (q := a / Z.pos d) in *. set (r := a mod Z.pos d) in *.
  apply Qabs_Qle_condition.
  assert (Hcase : forall rho : Z,
             0 <= rho -> - Z.pos d <= 2 * (rho * Z.pos d - a) <= Z.pos d ->
             (- (1 # 2) <= inject_Z (Z.of_N (Z.to_N rho)) - (a # d) <= 1 # 2)%Q).
  { intros rho H0 H1. rewrite Z2N.id by exact H0.
    unfold Qle, Qminus, Qplus, Qopp, inject_Z. cbn [Qnum Qden].
    rewrite !Pos2Z.inj_mul. lia. }
  destruct (Z.ltb_spec (2 * r) (Z.pos d)).
  - apply Hcase; nia.
  - destruct (Z.ltb_spec (Z.pos d) (2 * r)).
    + apply Hcase; nia.
    + destruct (Z.even q); apply Hcase; nia.
Qed.

Lemma round_half_even_integer (y : Q) (j : Z) :
  (y == inject_Z j)%Q -> round_half_even y = Z.to_N j.
Proof.
  destruct y as [a d]. unfold Qeq, inject_Z. cbn [Qnum Qden].
  rewrite Z.mul_1_r. intros ->.
  unfold round_half_even. cbn [Qnum Qden].
  rewrite Z.div_mul, Z.mod_mul by lia.
  destruct (Z.ltb_spec (2 * 0) (Z.pos d)); [reflexivity | lia].
Qed.

Lemma numeral_value_f (neg : bool) (m : N) :
  (numeral_value (Num_f neg m)
   == (if neg then -1 else 1) * (inject_Z (Z.of_N m) / inject_Z million))%Q.
Proof.
  unfold numeral_value.
  assert (E : (Z.of_N m # 1000000 == inject_Z (Z.of_N m) / inject_Z million)%Q).
  { unfold Qeq, Qdiv, Qmult, Qinv, inject_Z, million. cbn [Qnum Qden]. lia. }
  destruct neg; rewrite E; ring.
Qed.

Lemma reread_close (x : Q) : (Qabs (reread x - x) <= 1 # 2000000)%Q.
Proof.
  unfold reread, fmt_f. rewrite numeral_value_f.
  set (y := (Qabs x * inject_Z million)%Q).
  assert (Hy : (0 <= y)%Q).
  { unfold y. apply Qmult_le_0_compat; [apply Qabs_nonneg | discriminate]. }
  pose proof (round_half_even_close y Hy) as H.
  apply Qabs_Qle_condition in H. destruct H as [H1 H2].
  set (m := inject_Z (Z.of_N (round_half_even y))) in *.
  assert (Hm : (inject_Z million == 1000000)%Q) by reflexivity.
  apply Qabs_Qle_condition. rewrite Hm.
  change (m / 1000000)%Q with (m * (1 # 1000000))%Q.
  destruct (Qlt_bool x 0) eqn:E.
  - apply Qlt_bool_iff in E.
    assert (Ex : (y == - x * 1000000)%Q).
    { unfold y. rewrite Qabs_neg by lra. rewrite Hm. reflexivity. }
    rewrite Ex in H1, H2. lra.
  - apply Qlt_bool_false in E.
    assert (Ex : (y == x * 1000000)%Q).
    { unfold y. rewrite Qabs_pos by exact E. rewrite Hm. reflexivity. }
    rewrite Ex in H1, H2. lra.
Qed.

Lemma reread_exact (x : Q) (k : Z) :
  (x * inject_Z million == inject_Z k)%Q -> (reread x == x)%Q.
Proof.
  intros Hk. unfold reread, fmt_f. rewrite numeral_value_f.
  assert (Hm : (inject_Z million == 1000000)%Q) by reflexivity.
  assert (Ek : (Qabs x * inject_Z million == inject_Z (Z.abs k))%Q).
  { change (inject_Z (Z.abs k)) with (Qabs (inject_Z k)).
    rewrite <- Hk, Qabs_Qmult.
    rewrite (Qabs_pos (inject_Z million)) by discriminate. reflexivity. }
  rewrite (round_half_even_integer _ _ Ek).
  rewrite Z2N.id by lia. rewrite <- Ek, Hm.
  destruct (Qlt_bool x 0) eqn:E.
  - apply Qlt_bool_iff in E. rewrite Qabs_neg by lra. field.
  - apply Qlt_bool_false in E. rewrite Qabs_pos by exact E. field.
Qed.

Section Restart.
Variables (log exp : Q -> Q) (cfg : config).


(** Reading a file that holds the thirteen scalars and the three arrays. *)
Lemma read_orest_parse (file : restart_file) (s0 : state)
    (a0 a1 a2 a3 a4 a5 a6 a7 a8 a9 a10 a11 a12 : Q) (Ys Hs Ps : list Q) :
  0 <= Nbin cfg ->
  (3 * Nbin cfg + numb) * 8 <= sz file ->
  numeral_value <$> contents file
  = [a0; a1; a2; a3; a4; a5; a6; a7; a8; a9; a10; a11; a12]
    ++ Ys ++ Hs ++ Ps ->
  length Ys = Z.to_nat (Nbin cfg) -> length Hs = Z.to_nat (Nbin cfg) ->
  length Ps = Z.to_nat (Nbin cfg) ->
  read_orest log cfg file s0
  = Ok (mkState Ys (Hist s0) (to_int <$> Hs) (to_int <$> Ps)
          (to_int a0) a1 (df_of log cfg a1) a9 a10 a11 a12
          (pfinFval s0) (finFval s0)
          (to_int a6) (to_int a2) (to_int a8) (to_int a7)
          (to_int a3) (to_int a4) (to_int a5)
          (curbin s0) (Gamma s0) (T s0)).
Proof.
  intros HN Hsz E LY LH LP. unfold read_orest.
  destruct (Z.ltb_spec (sz file) ((3 * Nbin cfg + numb) * 8)); [lia|].
  assert (Hlen : length (contents file) = (13 + Z.to_nat (Nbin cfg) + Z.to_nat (Nbin cfg) + Z.to_nat (Nbin cfg))%nat).
  { rewrite <- (length_fmap numeral_value), E, !length_app. simpl. lia. }
  destruct (Z.ltb_spec (Z.of_nat (length (contents file)))
              (3 * Nbin cfg + numb)); [unfold numb in *; lia|].
  rewrite fmap_take, E.
  rewrite take_ge by (rewrite !length_app; simpl; unfold numb; lia).
  simpl. rewrite drop_0.
  rewrite (take_app_length' Ys) by (now symmetry).
  rewrite (drop_app_length' Ys) by (now symmetry).
  rewrite (take_app_length' Hs) by (now symmetry).
  rewrite <- drop_drop.
  rewrite (drop_app_length' Ys) by (now symmetry).
  rewrite (drop_app_length' Hs) by (now symmetry).
  rewrite take_ge by lia. reflexivity.
Qed.

Lemma orest_list_values (s : state) :
  numeral_value <$> orest_list s
  = [inject_Z (STG s); reread (f s);
     reread (of_int (CountH s)); reread (of_int (SWf s));
     reread (of_int (SWfold s)); reread (of_int (SWchk s));
     reread (of_int (Count s)); reread (of_int (totCi s));
     reread (of_int (CountPH s));
     reread (T1 s); reread (T2 s); reread (CTmin s); reread (CTmax s)]
    ++ (reread <$> Y2 s)
    ++ ((fun h => reread (of_int h)) <$> Htot s)
    ++ ((fun h => reread (of_int h)) <$> PROH s).
Proof.
  unfold orest_list. rewrite !fmap_app, <- !list_fmap_compose. reflexivity.
Qed.

Lemma to_int_reread_fmap (l : list Z) :
  to_int <$> ((fun h => reread (of_int h)) <$> l) = l.
Proof.
  rewrite <- list_fmap_compose. rewrite <- (list_fmap_id l) at 2.
  apply list_fmap_ext. intros i x _. apply reread_of_int.
Qed.

(** Writing the restart file and reloading it with [init]. *)
Lemma write_then_init (s : state) :
  OREST cfg = true -> 0 <= Nbin cfg ->
  length (Y2 s) = Z.to_nat (Nbin cfg) ->
  length (Htot s) = Z.to_nat (Nbin cfg) ->
  length (PROH s) = Z.to_nat (Nbin cfg) ->
  exists s' : state,
    init log exp cfg (Some (write_orest s)) = Ok s' /\ restored log cfg s s'.
Proof.
  intros HO HN LY LH LP. unfold init. rewrite HO.
  eexists. split.
  - apply read_orest_parse with (1 := HN).
    + unfold write_orest. cbn [sz].
      pose proof (write_orest_size s) as Hs.
      rewrite orest_list_length, LY, LH, LP in Hs.
      unfold numb. lia.
    + unfold write_orest. cbn [contents]. apply orest_list_values.
    + now rewrite length_fmap.
    + now rewrite length_fmap.
    + now rewrite length_fmap.
  - unfold restored.
    cbn [STG Htot PROH CountH SWf SWfold SWchk Count totCi CountPH f df
         T1 T2 CTmin CTmax Y2 Hist].
    rewrite !to_int_reread_fmap, !reread_of_int.
    unfold to_int, inject_Z. cbn [Qnum Qden]. rewrite Z.quot_1_r.
    repeat split; reflexivity.
Qed.

End Restart.

(** C5 as amended.  Writing the restart file and reloading it with
    [init] gives an engine whose [STG], [Htot], [PROH] and integer
    counters [CountH], [SWf], [SWfold], [SWchk], [Count], [totCi] and
    [CountPH] are those of the state written; whose real-valued [f], [T1],
    [T2], [CTmin], [CTmax] and [Y2[i]] are the written values rounded to
    six decimals by the ["%f"] format; whose [df] is recomputed from the
    reloaded [f]; and whose [Hist] is all zeros. *)
Theorem restart_round_trip (log exp : Q -> Q) (cfg : config) (s : state) :
  OREST cfg = true -> 0 <= Nbin cfg ->
  length (Y2 s) = Z.to_nat (Nbin cfg) ->
  length (Htot s) = Z.to_nat (Nbin cfg) ->
  length (PROH s) = Z.to_nat (Nbin cfg) ->
  exists s' : state,
    init log exp cfg (Some (write_orest s)) = Ok s' /\ restored log cfg s s'.
Proof. apply write_then_init. Qed.

Lemma restart_round_trip_witness :
  exists s' : state,
    init log_q exp_q cfg5 (Some (write_orest st5)) = Ok s' /\
    restored log_q cfg5 st5 s'.
Proof.
  apply (restart_round_trip log_q exp_q cfg5 st5); try reflexivity.
  vm_compute. discriminate.
Defined.

(** C5 as stated fails.  The state with [f = 1 + 2^-30] is written as
    ["1.000000"] and reloaded with [f = 1]. *)
Lemma restart_not_bit_identical :
  ~ (forall s s' : state,
       length (Y2 s) = 5%nat -> length (Hist s) = 5%nat ->
       length (Htot s) = 5%nat -> length (PROH s) = 5%nat ->
       init log_q exp_q cfg5 (Some (write_orest s)) = Ok s' ->
       same_after_restart s s').
Proof.
  intros H.
  destruct (write_then_init log_q exp_q cfg5
              (set_f (1 + (1 # 1073741824))%Q st5))
    as (s' & Hinit & R); try reflexivity; [vm_compute; discriminate|].
  specialize (H (set_f (1 + (1 # 1073741824))%Q st5) s'
                eq_refl eq_refl eq_refl eq_refl Hinit).
  destruct H as (_ & _ & _ & Hf & _).
  destruct R as (_ & _ & _ & _ & _ & _ & _ & _ & _ & _ & Ef & _).
  rewrite Ef in Hf. vm_compute in Hf. discriminate Hf.
Qed.

(** The values of the five-bin state have at most six decimals and come
    back as written; [f = 1 + 2^-30] does not. *)
Example reread_T1 : (reread (T1 st5) == T1 st5)%Q.
Proof. reflexivity. Qed.

Example reread_small_step : (reread (1 + (1 # 1073741824)) == 1)%Q.
Proof. reflexivity. Qed.

(** ** One step of [MAIN] *)

Lemma c_rem_Ok_inv (a b m : Z) :
  c_rem a b = Ok m -> b <> 0 /\ m = Z.rem a b.
Proof.
  unfold c_rem. destruct (Z.eqb_spec b 0); [discriminate|].
  intros [= <-]. split; [assumption | reflexivity].
Qed.

Lemma c_rem_Ok (a b : Z) : b <> 0 -> c_rem a b = Ok (Z.rem a b).
Proof.
  intros Hb. unfold c_rem. destruct (Z.eqb_spec b 0); [contradiction|].
  reflexivity.
Qed.

Lemma HCHK_cases (s : state) :
  HCHK s = set_SWfold (SWf s) s \/
  HCHK s = set_SWf (SWf s + 1) (set_SWfold (SWf s) s).
Proof.
  unfold HCHK. destruct (fold_left _ _ _) as [a c].
  destruct (c =? 0); [left; reflexivity|].
  destruct (_ <? 1); [right | left]; reflexivity.
Qed.

Ltac break_ifs :=
  repeat match goal with
  | |- context [if ?c then _ else _] => destruct c eqn:?
  | H : context [if ?c then _ else _] |- _ => destruct c eqn:?
  end.

Ltac flag_cases cfg :=
  destruct (Z.eqb_spec (f_flag cfg) 0);
  destruct (Z.eqb_spec (f_flag cfg) 1);
  destruct (Z.eqb_spec (f_flag cfg) 2);
  destruct (Z.eqb_spec (f_flag cfg) 3);
  destruct (Z.eqb_spec (f_flag cfg) 4);
  destruct (Z.ltb_spec 1 (f_flag cfg));
  try (exfalso; lia).

Section MAINFacts.
Variables (sqrt log exp : Q -> Q) (cfg : config).

Lemma GammaE_Ok_inv potE indx s s' :
  GammaE cfg potE indx s = Ok s' ->
  exists t : Q, s' = set_Gamma (1 / t)%Q (set_T t s).
Proof.
  unfold GammaE. intros H. apply bind_Ok_inv in H as (t & _ & H).
  injection H as <-. now exists t.
Qed.

Lemma AddedEHis_Ok_inv i s s' :
  AddedEHis i s = Ok s' ->
  0 <= i /\ exists h h' : Z,
    Hist s !! Z.to_nat i = Some h /\ Htot s !! Z.to_nat i = Some h' /\
    s' = set_Htot (<[Z.to_nat i := h' + 1]> (Htot s))
           (set_Hist (<[Z.to_nat i := h + 1]> (Hist s)) s).
Proof.
  unfold AddedEHis. intros H.
  apply bind_Ok_inv in H as (H1 & E1 & H).
  apply bind_Ok_inv in H as (H2 & E2 & H). injection H as <-.
  apply upd_Ok_inv in E1 as (Hi & h & Eh & ->).
  apply upd_Ok_inv in E2 as (_ & h' & Eh' & ->).
  split; [exact Hi|]. exists h, h'. repeat split; assumption.
Qed.

Lemma MAIN_sample_Ok_inv istep potE s i s' :
  MAIN_sample cfg istep potE s = Ok (i, s') -> sampled cfg istep s i s'.
Proof.
  unfold MAIN_sample. cbn [STG set_totCi set_Count].
  set (sa := if 3 <=? STG s then _ else _).
  assert (Ea : STG sa = STG s) by (subst sa; destruct (3 <=? STG s); reflexivity).
  intros H.
  apply bind_Ok_inv in H as ([j s1] & HY & H).
  apply bind_Ok_inv in H as (s2 & HG & H).
  apply bind_Ok_inv in H as (s3 & HA & H).
  apply bind_Ok_inv in H as (s4 & HP & H).
  apply bind_Ok_inv in H as (o & Ho & H).
  injection H as <- <-.
  apply c_rem_Ok_inv in Ho as [Ho _].
  apply Yval_Ok_inv in HY as (_ & Hj & yhi & ylo & _ & _ & ->).
  apply GammaE_Ok_inv in HG as (t & ->).
  apply AddedEHis_Ok_inv in HA as (_ & h & h' & Eh & Eh' & ->).
  cbn [STG Hist Htot PROH CountPH set_STG set_CountH set_Htot set_Hist
       set_Gamma set_T set_Y2 set_curbin] in HP, Eh, Eh'.
  rewrite Ea in HP.
  assert (EH : Hist sa = Hist s) by (subst sa; destruct (3 <=? STG s); reflexivity).
  assert (ET : Htot sa = Htot s) by (subst sa; destruct (3 <=? STG s); reflexivity).
  assert (EP : PROH sa = PROH s) by (subst sa; destruct (3 <=? STG s); reflexivity).
  rewrite EH in Eh. rewrite ET in Eh'.
  destruct (3 <=? STG s) eqn:E3.
  - apply bind_Ok_inv in HP as (P & EP' & HP). injection HP as <-.
    apply upd_Ok_inv in EP' as (_ & p & Ep & ->). rewrite EP in Ep.
    subst sa. constructor; rewrite ?E3; try reflexivity; try assumption.
    + cbn. lia.
    + exists h. split; [exact Eh | reflexivity].
    + exists h'. split; [exact Eh' | reflexivity].
    + exists p. split; [exact Ep | reflexivity].
  - injection HP as <-.
    subst sa. constructor; rewrite ?E3; try reflexivity; try assumption.
    + exists h. split; [exact Eh | reflexivity].
    + exists h'. split; [exact Eh' | reflexivity].
Qed.

Lemma MAIN_stg3_skip istep s :
  STG s < 3 -> MAIN_stg3 sqrt log cfg istep s = Ok s.
Proof.
  intros H. unfold MAIN_stg3.
  destruct (Z.leb_spec 3 (STG s)); [lia | reflexivity].
Qed.

Lemma MAIN_stg3_off_period istep s :
  3 <= STG s -> TSC2 cfg <> 0 -> Z.rem istep (TSC2 cfg) <> 0 ->
  MAIN_stg3 sqrt log cfg istep s = Ok s.
Proof.
  intros H HT Hm. unfold MAIN_stg3.
  destruct (Z.leb_spec 3 (STG s)); [|lia].
  rewrite (c_rem_Ok _ _ HT). cbn [bind].
  destruct (Z.eqb_spec (Z.rem istep (TSC2 cfg)) 0); [contradiction | reflexivity].
Qed.

Lemma MAIN_stg2_skip istep s :
  STG s <> 2 -> MAIN_stg2 sqrt log exp cfg istep s = Ok s.
Proof.
  intros H. unfold MAIN_stg2.
  destruct (Z.eqb_spec (STG s) 2); [contradiction | reflexivity].
Qed.

Lemma MAIN_stg1_skip istep s :
  STG s <> 1 -> MAIN_stg1 cfg istep s = Ok s.
Proof.
  intros H. unfold MAIN_stg1.
  destruct (Z.eqb_spec (STG s) 1); [contradiction | reflexivity].
Qed.

(** A step in stage 3 or 4 that is not a multiple of [TSC2] is its
    sampling part. *)
Lemma MAIN_production_off_period istep potE s s' :
  3 <= STG s -> Z.rem istep (TSC2 cfg) <> 0 -> TSC2 cfg <> 0 ->
  MAIN sqrt log exp cfg istep potE s = Ok s' ->
  exists i : Z, sampled cfg istep s i s'.
Proof.
  intros H3 Hm HT H. unfold MAIN in H.
  apply bind_Ok_inv in H as ([i s1] & Hs & H). cbn [snd] in H.
  apply MAIN_sample_Ok_inv in Hs.
  assert (E1 : STG s1 = STG s) by apply Hs.
  rewrite MAIN_stg3_off_period in H by (rewrite ?E1; assumption).
  cbn [bind] in H.
  rewrite MAIN_stg2_skip in H by lia. cbn [bind] in H.
  rewrite MAIN_stg1_skip in H by lia. injection H as <-.
  now exists i.
Qed.

(** *** The branches of the stage blocks *)

(** What a branch of the stage blocks keeps: the temperature table, the
    cumulative histograms, the size of the window histogram and the
    thresholds. *)
Lemma stg3_hchk_frame s :
  block_kept s (stg3_hchk sqrt log cfg s).
Proof.
  unfold stg3_hchk, reset_window, ResetPH.
  destruct (HCHK_cases s) as [E|E]; rewrite E; clear E;
    break_ifs; constructor; cbn; rewrite ?length_replicate; auto.
Qed.

Lemma stg3_unconditional_frame s :
  block_kept s (stg3_unconditional sqrt log cfg s).
Proof.
  unfold stg3_unconditional, reset_window, ResetPH.
  break_ifs; constructor; cbn; rewrite ?length_replicate; auto.
Qed.

Lemma stg2_none_frame s : block_kept s (stg2_none s).
Proof.
  unfold stg2_none, reset_window, ResetPH.
  constructor; cbn; rewrite ?length_replicate; auto.
Qed.

Lemma stg2_hchk_frame s : block_kept s (stg2_hchk sqrt log cfg s).
Proof.
  unfold stg2_hchk, reset_window, ResetPH.
  destruct (HCHK_cases s) as [E|E]; rewrite E; clear E;
    break_ifs; constructor; cbn; rewrite ?length_replicate; auto.
Qed.

Lemma stg2_sqrt_frame istep s : block_kept s (stg2_sqrt sqrt log cfg istep s).
Proof.
  unfold stg2_sqrt, reset_window, ResetPH.
  break_ifs; constructor; cbn; rewrite ?length_replicate; auto.
Qed.

Lemma stg2_constant_f_frame istep s :
  block_kept s (stg2_constant_f sqrt log cfg istep s).
Proof.
  unfold stg2_constant_f, reset_window, ResetPH.
  break_ifs; constructor; cbn; rewrite ?length_replicate; auto.
Qed.

Lemma stg2_constant_df_frame istep s :
  block_kept s (stg2_constant_df exp cfg istep s).
Proof.
  unfold stg2_constant_df. break_ifs; constructor; cbn; auto.
Qed.

Lemma block_kept_refl s : block_kept s s.
Proof. constructor; auto. Qed.

(** How a branch leaves [f], [df] and the stage. *)
Lemma stg3_hchk_df s :
  let s' := stg3_hchk sqrt log cfg s in
  STG s' = STG s /\
  (df s' = df_of log cfg (f s') \/ (f s' = f s /\ df s' = df s)).
Proof.
  unfold stg3_hchk, reset_window, ResetPH.
  destruct (HCHK_cases s) as [E|E]; rewrite E; clear E;
    break_ifs; cbn; auto.
Qed.

Lemma stg3_unconditional_df s :
  let s' := stg3_unconditional sqrt log cfg s in
  STG s' = STG s /\ df s' = df_of log cfg (f s') /\
  (STG s <> 3 -> f s' = f s) /\
  CountH s' = 0 /\ Hist s' = replicate (length (Hist s)) 0.
Proof.
  unfold stg3_unconditional, reset_window, ResetPH.
  destruct (Z.eqb_spec (STG s) 3); cbn; repeat split; auto; contradiction.
Qed.

Lemma stg2_hchk_df s :
  let s' := stg2_hchk sqrt log cfg s in
  (STG s' = STG s \/ STG s' = 3) /\
  (df s' = df_of log cfg (f s') \/ (f s' = f s /\ df s' = df s)).
Proof.
  unfold stg2_hchk, reset_window, ResetPH.
  destruct (HCHK_cases s) as [E|E]; rewrite E; clear E;
    break_ifs; cbn; auto.
Qed.

Lemma stg2_sqrt_df istep s :
  let s' := stg2_sqrt sqrt log cfg istep s in
  STG s' = STG s /\
  (df s' = df_of log cfg (f s') \/ (f s' = f s /\ df s' = df s)).
Proof.
  unfold stg2_sqrt, reset_window, ResetPH. break_ifs; cbn; auto.
Qed.

Lemma stg2_constant_f_df istep s :
  let s' := stg2_constant_f sqrt log cfg istep s in
  STG s' = STG s /\ df s' = df_of log cfg (f s').
Proof.
  unfold stg2_constant_f, reset_window, ResetPH. break_ifs; cbn; auto.
Qed.

Lemma stg2_constant_df_STG istep s :
  STG (stg2_constant_df exp cfg istep s) = STG s.
Proof. unfold stg2_constant_df. break_ifs; reflexivity. Qed.

(** *** The stage blocks, branch by branch *)

Lemma MAIN_stg3_cases istep s s' :
  MAIN_stg3 sqrt log cfg istep s = Ok s' ->
  ((STG s < 3 \/ Z.rem istep (TSC2 cfg) <> 0) /\ s' = s) \/
  (3 <= STG s /\ TSC2 cfg <> 0 /\ Z.rem istep (TSC2 cfg) = 0 /\
   exists s1 : state,
     ((f_flag cfg = 1 /\ s1 = stg3_hchk sqrt log cfg s) \/
      (1 < f_flag cfg /\ s1 = stg3_unconditional sqrt log cfg s) \/
      (f_flag cfg < 1 /\ s1 = s)) /\
     s' = if Qle_bool (f s1) (finFval s1) then set_STG 4 s1 else s1).
Proof.
  unfold MAIN_stg3.
  destruct (Z.leb_spec 3 (STG s)) as [H3|]; [|intros [= <-]; left; auto].
  intros H. apply bind_Ok_inv in H as (m & Hr & H).
  apply c_rem_Ok_inv in Hr as [HT ->].
  destruct (Z.eqb_spec (Z.rem istep (TSC2 cfg)) 0) as [Hm|];
    [|injection H as <-; left; auto].
  right. repeat split; try assumption.
  destruct (Z.eqb_spec (f_flag cfg) 1) as [E1|N1];
    destruct (Z.ltb_spec 1 (f_flag cfg)) as [G1|L1]; try (exfalso; lia);
    cbv zeta in H;
    match type of H with
    | Ok (if Qle_bool (f ?s1) _ then _ else _) = _ =>
        injection H as <-; exists s1
    end; (split; [|reflexivity]).
  - left. split; [assumption | reflexivity].
  - right. left. split; [assumption | reflexivity].
  - right. right. split; [lia | reflexivity].
Qed.

Lemma MAIN_stg2_cases istep s s' :
  MAIN_stg2 sqrt log exp cfg istep s = Ok s' ->
  ((STG s <> 2 \/ Z.rem istep (TSC2 cfg) <> 0) /\ s' = s) \/
  (STG s = 2 /\ TSC2 cfg <> 0 /\ Z.rem istep (TSC2 cfg) = 0 /\
   exists s1 : state,
     ((f_flag cfg = 0 /\ s1 = stg2_none s) \/
      (f_flag cfg = 1 /\ s1 = stg2_hchk sqrt log cfg s) \/
      (f_flag cfg = 2 /\ s1 = stg2_sqrt sqrt log cfg istep s) \/
      (f_flag cfg = 3 /\ s1 = stg2_constant_f sqrt log cfg istep s) \/
      (f_flag cfg = 4 /\ s1 = stg2_constant_df exp cfg istep s) \/
      ((f_flag cfg < 0 \/ 4 < f_flag cfg) /\ s1 = s)) /\
     Qle_bool (f s1) 1 = false /\
     s' = if Qle_bool (f s1) (pfinFval s1) && (1 <? f_flag cfg)
          then set_CountPH 0 (set_STG 3 s1) else s1).
Proof.
  unfold MAIN_stg2.
  destruct (Z.eqb_spec (STG s) 2) as [H2|]; [|intros [= <-]; left; auto].
  intros H. apply bind_Ok_inv in H as (m & Hr & H).
  apply c_rem_Ok_inv in Hr as [HT ->].
  destruct (Z.eqb_spec (Z.rem istep (TSC2 cfg)) 0) as [Hm|];
    [|injection H as <-; left; auto].
  right. repeat split; try assumption.
  destruct (Z.eqb_spec (f_flag cfg) 0) as [E0|N0];
    destruct (Z.eqb_spec (f_flag cfg) 1) as [E1|N1];
    destruct (Z.eqb_spec (f_flag cfg) 2) as [E2|N2];
    destruct (Z.eqb_spec (f_flag cfg) 3) as [E3|N3];
    destruct (Z.eqb_spec (f_flag cfg) 4) as [E4|N4];
    try (exfalso; lia); cbv zeta in H;
    match type of H with
    | (if Qle_bool (f ?s1) 1 then _ else _) = _ =>
        destruct (Qle_bool (f s1) 1) eqn:Ef; [discriminate|];
        injection H as <-; exists s1
    end;
    (split; [|split; [exact Ef | reflexivity]]).
  - left. auto.
  - right; left. auto.
  - do 2 right; left. auto.
  - do 3 right; left. auto.
  - do 4 right; left. auto.
  - do 5 right. split; [lia | reflexivity].
Qed.

(** In stage 4 with an unconditional scheme, a step that is a multiple of
    [TSC2] recomputes [df] from the unchanged [f] and resets the window. *)
Lemma MAIN_stg3_stage4 istep s :
  STG s = 4 -> 1 < f_flag cfg -> TSC2 cfg <> 0 ->
  Z.rem istep (TSC2 cfg) = 0 ->
  exists s' : state,
    MAIN_stg3 sqrt log cfg istep s = Ok s' /\
    STG s' = 4 /\ f s' = f s /\ df s' = df_of log cfg (f s) /\
    CountH s' = 0 /\ Hist s' = replicate (length (Hist s)) 0.
Proof.
  intros H4 Hf HT Hm. unfold MAIN_stg3. rewrite H4.
  change (3 <=? 4) with true. cbv iota.
  rewrite (c_rem_Ok _ _ HT). cbn [bind]. rewrite Hm.
  change (0 =? 0) with true. cbv iota.
  destruct (Z.eqb_spec (f_flag cfg) 1); [lia|].
  destruct (Z.ltb_spec 1 (f_flag cfg)); [|lia]. cbv zeta.
  destruct (stg3_unconditional_df s) as (ES & ED & EF & EC & EH).
  rewrite H4 in ES. specialize (EF ltac:(lia)).
  eexists. split; [reflexivity|].
  destruct (Qle_bool _ _); cbn [STG f df CountH Hist set_STG];
    rewrite <- EF at 2; auto.
Qed.

(** *** [df] follows [f] *)

Lemma init_df file s :
  init log exp cfg file = Ok s -> df s = df_of log cfg (f s).
Proof.
  unfold init. destruct (OREST cfg).
  - destruct file as [fl|]; [|discriminate]. unfold read_orest.
    destruct (_ <? _); [discriminate|]. destruct (_ <? _); [discriminate|].
    intros H.
    repeat (apply bind_Ok_inv in H as (? & _ & H)).
    injection H as <-. reflexivity.
  - intros [= <-]. reflexivity.
Qed.

Lemma MAIN_stg3_df istep s s' :
  MAIN_stg3 sqrt log cfg istep s = Ok s' ->
  df_follows_f log cfg s -> df_follows_f log cfg s'.
Proof.
  intros H HP. apply MAIN_stg3_cases in H as [[_ ->]|(_ & _ & _ & s1 & Hc & ->)];
    [exact HP|].
  assert (H1 : df s1 = df_of log cfg (f s1)).
  { destruct Hc as [[E ->]|[[E ->]|[E ->]]].
    - destruct (stg3_hchk_df s) as (ES & [Hd|[Hf Hd]]); [exact Hd|].
      rewrite Hd, Hf. apply HP. right. lia.
    - apply stg3_unconditional_df.
    - apply HP. right. lia. }
  intros _. destruct (Qle_bool _ _); exact H1.
Qed.

Lemma MAIN_stg2_df istep s s' :
  MAIN_stg2 sqrt log exp cfg istep s = Ok s' ->
  df_follows_f log cfg s -> df_follows_f log cfg s'.
Proof.
  intros H HP.
  apply MAIN_stg2_cases in H as [[_ ->]|(H2 & _ & _ & s1 & Hc & _ & ->)];
    [exact HP|].
  assert (H1 : (STG s1 = 2 \/ STG s1 = 3) /\
               (f_flag cfg <> 4 -> df s1 = df_of log cfg (f s1))).
  { destruct Hc as [[E ->]|[[E ->]|[[E ->]|[[E ->]|[[E ->]|[E ->]]]]]].
    - split; [left; exact H2|]. intros _. apply HP. right. lia.
    - destruct (stg2_hchk_df s) as (ES & Hd).
      split; [rewrite <- H2; exact ES|]. intros _.
      destruct Hd as [Hd|[Hf Hd]]; [exact Hd|].
      rewrite Hd, Hf. apply HP. right. lia.
    - destruct (stg2_sqrt_df istep s) as (ES & Hd).
      split; [left; congruence|]. intros _.
      destruct Hd as [Hd|[Hf Hd]]; [exact Hd|].
      rewrite Hd, Hf. apply HP. right. lia.
    - destruct (stg2_constant_f_df istep s) as (ES & Hd).
      split; [left; congruence|]. intros _. exact Hd.
    - split; [left; rewrite stg2_constant_df_STG; exact H2|]. lia.
    - split; [left; exact H2|]. intros _. apply HP. right. lia. }
  destruct H1 as [HS Hd]. intros Ha.
  destruct (Qle_bool (f s1) (pfinFval s1) && (1 <? f_flag cfg));
    cbn [STG f df set_CountPH set_STG] in *; apply Hd; lia.
Qed.

Lemma MAIN_stg1_df istep s s' :
  MAIN_stg1 cfg istep s = Ok s' ->
  df_follows_f log cfg s -> df_follows_f log cfg s'.
Proof.
  unfold MAIN_stg1, df_follows_f, reset_window, ResetPH, dig, TCHK.
  destruct (Z.eqb_spec (STG s) 1) as [E1|]; [|intros [= <-]; auto].
  intros H. apply bind_Ok_inv in H as (m & _ & H).
  destruct (m =? 0); [|injection H as <-; auto].
  apply bind_Ok_inv in H as (s1 & Hd & H).
  apply bind_Ok_inv in H as (s2 & Ht & H). injection H as <-.
  apply bind_Ok_inv in Hd as (y0 & _ & Hd).
  destruct (dig_scan _ _ _ _) as [k nk]. injection Hd as <-.
  apply bind_Ok_inv in Ht as (y1 & _ & Ht). injection Ht as <-.
  intros HP Ha. break_ifs; cbn in *; apply HP; right;
    destruct Ha as [Ha|Ha]; (exact Ha || exfalso; lia).
Qed.

Lemma MAIN_df istep potE s s' :
  MAIN sqrt log exp cfg istep potE s = Ok s' ->
  df_follows_f log cfg s -> df_follows_f log cfg s'.
Proof.
  unfold MAIN. intros H HP.
  apply bind_Ok_inv in H as ([i s1] & Hs & H). cbn [snd] in H.
  apply bind_Ok_inv in H as (s2 & H3 & H).
  apply bind_Ok_inv in H as (s3 & H2 & H1).
  apply MAIN_sample_Ok_inv in Hs.
  apply (MAIN_stg1_df _ _ _ H1), (MAIN_stg2_df _ _ _ H2),
    (MAIN_stg3_df _ _ _ H3).
  unfold df_follows_f in *.
  rewrite (smp_STG _ _ _ _ _ Hs), (smp_f _ _ _ _ _ Hs), (smp_df _ _ _ _ _ Hs).
  exact HP.
Qed.

Lemma reachable_df s :
  reachable sqrt log exp cfg s -> df_follows_f log cfg s.
Proof.
  induction 1 as [file s Hi | s istep potE s' _ IH H].
  - intros _. exact (init_df _ _ Hi).
  - exact (MAIN_df _ _ _ _ H IH).
Qed.

(** *** The arrays keep their [N] elements *)

Lemma init_allocated file s :
  init log exp cfg file = Ok s -> allocated cfg s.
Proof.
  unfold init, allocated. destruct (OREST cfg).
  - destruct file as [fl|]; [|discriminate]. unfold read_orest.
    destruct (_ <? _); [discriminate|].
    destruct (Z.ltb_spec (Z.of_nat (length (contents fl)))
                (3 * Nbin cfg + numb)) as [|Hlen]; [discriminate|].
    intros H.
    repeat (apply bind_Ok_inv in H as (? & _ & H)).
    injection H as <-. cbn [Y2 Hist Htot PROH init_fresh].
    rewrite !length_fmap, !length_take, !length_drop, !length_fmap,
      !length_take, length_replicate.
    unfold numb in *. lia.
  - intros [= <-]. cbn. rewrite !length_replicate. auto.
Qed.

Lemma sampled_allocated istep s i s' :
  sampled cfg istep s i s' -> length (Y2 s') = length (Y2 s) ->
  allocated cfg s -> allocated cfg s'.
Proof.
  intros Hs HY (LY & LH & LT & LP). unfold allocated.
  destruct (smp_Hist _ _ _ _ _ Hs) as (h & _ & ->).
  destruct (smp_Htot _ _ _ _ _ Hs) as (h' & _ & ->).
  pose proof (smp_PROH _ _ _ _ _ Hs) as HP.
  rewrite !length_insert, HY.
  repeat split; try assumption.
  destruct (3 <=? STG s).
  - destruct HP as (p & _ & ->). now rewrite length_insert.
  - now rewrite HP.
Qed.

Lemma MAIN_sample_Y2_length istep potE s i s' :
  MAIN_sample cfg istep potE s = Ok (i, s') ->
  length (Y2 s') = length (Y2 s).
Proof.
  unfold MAIN_sample. cbn [STG set_totCi set_Count].
  set (sa := if 3 <=? STG s then _ else _).
  assert (Ea : Y2 sa = Y2 s) by (subst sa; destruct (3 <=? STG s); reflexivity).
  assert (Eb : STG sa = STG s) by (subst sa; destruct (3 <=? STG s); reflexivity).
  intros H.
  apply bind_Ok_inv in H as ([j s1] & HY & H).
  apply bind_Ok_inv in H as (s2 & HG & H).
  apply bind_Ok_inv in H as (s3 & HA & H).
  apply bind_Ok_inv in H as (s4 & HP & H).
  apply bind_Ok_inv in H as (o & _ & H).
  injection H as <- <-.
  apply Yval_Ok_inv in HY as (_ & _ & yhi & ylo & _ & _ & ->).
  apply GammaE_Ok_inv in HG as (t & ->).
  apply AddedEHis_Ok_inv in HA as (_ & h & h' & _ & _ & ->).
  cbn [STG set_STG set_CountH set_Htot set_Hist set_Gamma set_T set_Y2
       set_curbin] in HP.
  rewrite Eb in HP. clearbody sa.
  destruct (3 <=? STG s).
  - apply bind_Ok_inv in HP as (P & _ & HP). injection HP as <-.
    cbn. now rewrite !length_insert, Ea.
  - injection HP as <-. cbn. now rewrite !length_insert, Ea.
Qed.

Lemma block_kept_allocated s s' :
  block_kept s s' -> allocated cfg s -> allocated cfg s'.
Proof.
  intros [EY ET EP EH _ _ _ _ _ _] (LY & LH & LT & LP). unfold allocated.
  rewrite EY, ET, EP, EH. auto.
Qed.

Lemma MAIN_stg3_allocated istep s s' :
  MAIN_stg3 sqrt log cfg istep s = Ok s' -> allocated cfg s -> allocated cfg s'.
Proof.
  intros H HA.
  apply MAIN_stg3_cases in H as [[_ ->]|(_ & _ & _ & s1 & Hc & ->)]; [exact HA|].
  assert (H1 : allocated cfg s1).
  { destruct Hc as [[E ->]|[[E ->]|[E ->]]];
      [apply (block_kept_allocated s); [apply stg3_hchk_frame | exact HA]
      |apply (block_kept_allocated s);
         [apply stg3_unconditional_frame | exact HA]
      |exact HA]. }
  destruct (Qle_bool _ _); exact H1.
Qed.

Lemma MAIN_stg2_allocated istep s s' :
  MAIN_stg2 sqrt log exp cfg istep s = Ok s' ->
  allocated cfg s -> allocated cfg s'.
Proof.
  intros H HA.
  apply MAIN_stg2_cases in H as [[_ ->]|(_ & _ & _ & s1 & Hc & _ & ->)];
    [exact HA|].
  assert (H1 : allocated cfg s1).
  { destruct Hc as [[E ->]|[[E ->]|[[E ->]|[[E ->]|[[E ->]|[E ->]]]]]];
      try exact HA; apply (block_kept_allocated s); try exact HA.
    - apply stg2_none_frame.
    - apply stg2_hchk_frame.
    - apply stg2_sqrt_frame.
    - apply stg2_constant_f_frame.
    - apply stg2_constant_df_frame. }
  destruct (_ && _); exact H1.
Qed.

Lemma MAIN_stg1_allocated istep s s' :
  MAIN_stg1 cfg istep s = Ok s' -> allocated cfg s -> allocated cfg s'.
Proof.
  unfold MAIN_stg1, allocated, reset_window, ResetPH, dig, TCHK.
  destruct (STG s =? 1); [|intros [= <-]; auto].
  intros H. apply bind_Ok_inv in H as (m & _ & H).
  destruct (m =? 0); [|injection H as <-; auto].
  apply bind_Ok_inv in H as (s1 & Hd & H).
  apply bind_Ok_inv in H as (s2 & Ht & H). injection H as <-.
  apply bind_Ok_inv in Hd as (y0 & _ & Hd).
  destruct (dig_scan _ _ _ _) as [k nk]. injection Hd as <-.
  apply bind_Ok_inv in Ht as (y1 & _ & Ht). injection Ht as <-.
  intros (LY & LH & LT & LP).
  break_ifs; cbn; rewrite ?length_replicate, ?dig_fill_length; auto.
Qed.

Lemma MAIN_allocated istep potE s s' :
  MAIN sqrt log exp cfg istep potE s = Ok s' ->
  allocated cfg s -> allocated cfg s'.
Proof.
  unfold MAIN. intros H HA.
  apply bind_Ok_inv in H as ([i s1] & Hs & H). cbn [snd] in H.
  apply bind_Ok_inv in H as (s2 & H3 & H).
  apply bind_Ok_inv in H as (s3 & H2 & H1).
  apply (MAIN_stg1_allocated _ _ _ H1), (MAIN_stg2_allocated _ _ _ H2),
    (MAIN_stg3_allocated _ _ _ H3).
  apply (sampled_allocated istep s i);
    [now apply (MAIN_sample_Ok_inv istep potE)
    | exact (MAIN_sample_Y2_length _ _ _ _ _ Hs) | exact HA].
Qed.

Lemma reachable_allocated s :
  reachable sqrt log exp cfg s -> allocated cfg s.
Proof.
  induction 1 as [file s Hi | s istep potE s' _ IH H].
  - exact (init_allocated _ _ Hi).
  - exact (MAIN_allocated _ _ _ _ H IH).
Qed.

(** *** A step on an interior bin completes *)

Lemma rd_total {A : Type} (a : list A) (i : Z) :
  0 <= i < Z.of_nat (length a) -> exists x : A, rd a i = Ok x.
Proof.
  intros Hi. destruct (lookup_lt_is_Some_2 a (Z.to_nat i)) as [x E]; [lia|].
  exists x. apply rd_Ok; [lia | exact E].
Qed.

Lemma upd_total {A : Type} (a : list A) (i : Z) (g : A -> A) :
  0 <= i < Z.of_nat (length a) -> exists a' : list A, upd a i g = Ok a'.
Proof.
  intros Hi. destruct (lookup_lt_is_Some_2 a (Z.to_nat i)) as [x E]; [lia|].
  eexists. apply (upd_Ok a i g x); [lia | exact E].
Qed.

Lemma GammaE_total potE i s :
  1 <= i -> i + 1 < Z.of_nat (length (Y2 s)) ->
  exists t : Q, GammaE cfg potE i s = Ok (set_Gamma (1 / t)%Q (set_T t s)).
Proof.
  intros H1 H2. unfold GammaE.
  destruct (rd_total (Y2 s) i) as [y Ey]; [lia|].
  destruct (rd_total (Y2 s) (i + 1)) as [yp Eyp]; [lia|].
  destruct (rd_total (Y2 s) (i - 1)) as [ym Eym]; [lia|].
  rewrite Ey, Eyp, Eym. cbn [bind].
  destruct (Qlt_bool 0 _); [eexists; reflexivity|].
  destruct (Qlt_bool _ 0); eexists; reflexivity.
Qed.

Lemma MAIN_sample_total istep potE s :
  allocated cfg s -> RSTFRQ cfg <> 0 ->
  1 <= Yval_index cfg potE <= Nbin cfg - 2 ->
  exists s1 : state,
    MAIN_sample cfg istep potE s = Ok (Yval_index cfg potE, s1).
Proof.
  intros (LY & LH & LT & LP) HR Hi. unfold MAIN_sample.
  cbn [STG set_totCi set_Count].
  set (sa := if 3 <=? STG s then _ else _).
  assert (Ea : Y2 sa = Y2 s /\ Hist sa = Hist s /\ Htot sa = Htot s /\
               PROH sa = PROH s /\ STG sa = STG s)
    by (subst sa; destruct (3 <=? STG s); repeat split; reflexivity).
  destruct Ea as (EY & EH & ET & EP & ES).
  set (i := Yval_index cfg potE) in *.
  destruct (lookup_lt_is_Some_2 (Y2 sa) (Z.to_nat (i + 1))) as [yhi Ehi];
    [rewrite EY; lia|].
  destruct (lookup_lt_is_Some_2 (Y2 sa) (Z.to_nat (i - 1))) as [ylo Elo];
    [rewrite EY; lia|].
  rewrite (Yval_Ok cfg potE sa yhi ylo) by (fold i; assumption || lia).
  fold i. cbn [bind].
  match goal with
  | |- context [GammaE cfg potE i ?st] =>
      destruct (GammaE_total potE i st) as [t Et];
        [lia | cbn [Y2 set_Y2 set_curbin]; rewrite !length_insert, EY; lia|]
  end.
  rewrite Et. cbn [bind]. unfold AddedEHis.
  cbn [Hist Htot set_Hist set_Gamma set_T set_Y2 set_curbin].
  destruct (upd_total (Hist sa) i (fun h => h + 1)) as [H1 E1];
    [rewrite EH; lia|].
  destruct (upd_total (Htot sa) i (fun h => h + 1)) as [H2 E2];
    [rewrite ET; lia|].
  rewrite E1. cbn [bind]. rewrite E2. cbn [bind].
  cbn [STG PROH set_CountH set_Htot set_Hist set_Gamma set_T set_Y2
       set_curbin]. rewrite ES.
  rewrite (c_rem_Ok _ _ HR).
  destruct (3 <=? STG s).
  - destruct (upd_total (PROH sa) i (fun h => h + 1)) as [P EP'];
      [rewrite EP; lia|].
    rewrite EP'. cbn [bind]. eexists. reflexivity.
  - cbn [bind]. eexists. reflexivity.
Qed.

End MAINFacts.

(** ** Production steps *)

(** C4.  The sampling part of [MAIN] increments [CountPH] twice in stages
    3 and 4: once before the temperature update and once more with
    [PROH].  In the five-bin engine in stage 3, the step 7 (not a multiple
    of [TSC2 = 10]) at energy 2 samples bin 3; [Hist[3]], [Htot[3]],
    [PROH[3]] and [CountH] go up by one and [CountPH] goes from 40 to 42. *)
Theorem MAIN_counts_production_step_twice :
  exists s' : state,
    MAIN sqrt_q log_q exp_q cfg5 7 2 st5_production = Ok s' /\
    curbin s' = 3 /\
    Hist st5_production !! 3%nat = Some 1 /\ Hist s' !! 3%nat = Some 2 /\
    Htot st5_production !! 3%nat = Some 9 /\ Htot s' !! 3%nat = Some 10 /\
    PROH st5_production !! 3%nat = Some 5 /\ PROH s' !! 3%nat = Some 6 /\
    CountH st5_production = 6 /\ CountH s' = 7 /\
    CountPH st5_production = 40 /\ CountPH s' = 42.
Proof.
  eexists. split; [vm_compute; reflexivity|].
  repeat split; reflexivity.
Qed.

(** The same for every step of stages 3 and 4 that is not a multiple of
    [TSC2]. *)
Lemma MAIN_production_counts sqrt log exp cfg istep potE s s' :
  3 <= STG s -> Z.rem istep (TSC2 cfg) <> 0 -> TSC2 cfg <> 0 ->
  MAIN sqrt log exp cfg istep potE s = Ok s' ->
  CountH s' = CountH s + 1 /\ CountPH s' = CountPH s + 2 /\
  exists h ht hp : Z,
    Hist s !! Z.to_nat (curbin s') = Some h /\
    Hist s' = <[Z.to_nat (curbin s') := h + 1]> (Hist s) /\
    Htot s !! Z.to_nat (curbin s') = Some ht /\
    Htot s' = <[Z.to_nat (curbin s') := ht + 1]> (Htot s) /\
    PROH s !! Z.to_nat (curbin s') = Some hp /\
    PROH s' = <[Z.to_nat (curbin s') := hp + 1]> (PROH s).
Proof.
  intros H3 Hm HT H.
  destruct (MAIN_production_off_period _ _ _ _ _ _ _ _ H3 Hm HT H) as [i Hs].
  pose proof (smp_CountPH _ _ _ _ _ Hs) as HC.
  pose proof (smp_PROH _ _ _ _ _ Hs) as HP.
  destruct (Z.leb_spec 3 (STG s)); [|lia].
  split; [apply Hs|]. split; [exact HC|].
  rewrite (smp_curbin _ _ _ _ _ Hs).
  destruct (smp_Hist _ _ _ _ _ Hs) as (h & Eh & EH).
  destruct (smp_Htot _ _ _ _ _ Hs) as (ht & Et & ET).
  destruct HP as (hp & Ep & EP).
  exists h, ht, hp. repeat split; assumption.
Qed.

(** C10.  In stage 4 of a run, with an unconditional scheme
    ([f_flag > 1]), a step whose index is a multiple of [TSC2] zeroes
    [Hist], resets [CountH] to 0 and leaves [f], [df] and the stage as
    they were; and the step completes whenever the sampled energy falls in
    a bin whose two neighbours are inside the table. *)
Theorem MAIN_stage4_window_reset (sqrt log exp : Q -> Q) (cfg : config)
    (s : state) (istep : Z) (potE : Q) :
  reachable sqrt log exp cfg s ->
  STG s = 4 -> 1 < f_flag cfg ->
  TSC2 cfg <> 0 -> Z.rem istep (TSC2 cfg) = 0 ->
  (forall s' : state,
      MAIN sqrt log exp cfg istep potE s = Ok s' ->
      Hist s' = replicate (Z.to_nat (Nbin cfg)) 0 /\ CountH s' = 0 /\
      f s' = f s /\ df s' = df s /\ STG s' = 4) /\
  (RSTFRQ cfg <> 0 -> 1 <= Yval_index cfg potE <= Nbin cfg - 2 ->
   exists s' : state, MAIN sqrt log exp cfg istep potE s = Ok s').
Proof.
  intros HR H4 Hf HT Hm.
  pose proof (reachable_allocated _ _ _ _ _ HR) as HA.
  pose proof (reachable_df _ _ _ _ _ HR (or_introl H4)) as Hdf.
  assert (Hstep : forall i s1,
             MAIN_sample cfg istep potE s = Ok (i, s1) ->
             exists s' : state,
               MAIN sqrt log exp cfg istep potE s = Ok s' /\
               Hist s' = replicate (Z.to_nat (Nbin cfg)) 0 /\ CountH s' = 0 /\
               f s' = f s /\ df s' = df s /\ STG s' = 4).
  { intros i s1 Hs. unfold MAIN. rewrite Hs. cbn [bind snd].
    pose proof (MAIN_sample_Y2_length _ _ _ _ _ _ Hs) as LY.
    apply MAIN_sample_Ok_inv in Hs.
    pose proof (sampled_allocated _ _ _ _ _ Hs LY HA) as (_ & LH & _).
    assert (E4 : STG s1 = 4) by (rewrite (smp_STG _ _ _ _ _ Hs); exact H4).
    destruct (MAIN_stg3_stage4 sqrt log cfg istep s1 E4 Hf HT Hm)
      as (s2 & -> & E2 & Ef & Ed & Ec & Eh).
    cbn [bind]. rewrite MAIN_stg2_skip by lia. cbn [bind].
    rewrite MAIN_stg1_skip by lia.
    exists s2. split; [reflexivity|].
    rewrite Eh, LH, Ef, Ed, (smp_f _ _ _ _ _ Hs). repeat split; auto. }
  split.
  - intros s' H. pose proof H as H'. unfold MAIN in H'.
    apply bind_Ok_inv in H' as ([i s1] & Hs & _).
    destruct (Hstep i s1 Hs) as (s2 & E & P). rewrite E in H.
    injection H as <-. exact P.
  - intros HRS Hi.
    destruct (MAIN_sample_total cfg istep potE s HA HRS Hi) as [s1 Hs].
    destruct (Hstep _ s1 Hs) as (s2 & E & _). now exists s2.
Qed.

Lemma MAIN_stage4_window_reset_witness :
  (forall s' : state,
      MAIN sqrt_q log_q exp_q cfg5 20 2 st5_stage4 = Ok s' ->
      Hist s' = replicate (Z.to_nat (Nbin cfg5)) 0 /\ CountH s' = 0 /\
      f s' = f st5_stage4 /\ df s' = df st5_stage4 /\ STG s' = 4) /\
  (RSTFRQ cfg5 <> 0 -> 1 <= Yval_index cfg5 2 <= Nbin cfg5 - 2 ->
   exists s' : state, MAIN sqrt_q log_q exp_q cfg5 20 2 st5_stage4 = Ok s').
Proof.
  apply (MAIN_stage4_window_reset sqrt_q log_q exp_q cfg5 st5_stage4 20 2).
  - apply (reach_init _ _ _ _ (Some st5_stage4_file)).
    vm_compute. reflexivity.
  - reflexivity.
  - vm_compute. reflexivity.
  - vm_compute. discriminate.
  - reflexivity.
Defined.

(** The step of the witness, run. *)
Example MAIN_stage4_step :
  exists s' : state,
    MAIN sqrt_q log_q exp_q cfg5 20 2 st5_stage4 = Ok s' /\
    Hist s' = [0; 0; 0; 0; 0] /\ CountH s' = 0 /\ CountPH s' = 42 /\
    PROH s' = [0; 7; 8; 6; 0].
Proof.
  eexists. split; [vm_compute; reflexivity|]. repeat split; reflexivity.
Qed.


(** ** Leaving stage 2 *)

Section Promotion.
Variables (sqrt log exp : Q -> Q) (cfg : config).

Lemma stg2_hchk_window s :
  let s' := stg2_hchk sqrt log cfg s in
  pfinFval s' = pfinFval s /\
  (Qle_bool (f s') (pfinFval s') = true ->
   STG s' = 3 /\ CountPH s' = 0 /\ SWchk s' = 1 /\ CountH s' = 0 /\
   Hist s' = replicate (length (Hist s)) 0).
Proof.
  unfold stg2_hchk, reset_window, ResetPH.
  destruct (HCHK_cases s) as [E|E]; rewrite E; clear E;
    break_ifs; cbn in *; rewrite ?length_replicate;
    (split; [reflexivity|]); intros Hle; try congruence;
    repeat split; reflexivity.
Qed.

Lemma stg2_sqrt_window istep s :
  let s' := stg2_sqrt sqrt log cfg istep s in
  STG s' = STG s /\ CountPH s' = CountPH s /\ SWchk s' = SWchk s /\
  CountH s' = 0 /\ Hist s' = replicate (length (Hist s)) 0.
Proof.
  unfold stg2_sqrt, reset_window, ResetPH. break_ifs; cbn; auto.
Qed.

Lemma stg2_constant_f_window istep s :
  let s' := stg2_constant_f sqrt log cfg istep s in
  STG s' = STG s /\ CountPH s' = CountPH s /\ SWchk s' = SWchk s /\
  CountH s' = 0 /\ Hist s' = replicate (length (Hist s)) 0.
Proof.
  unfold stg2_constant_f, reset_window, ResetPH. break_ifs; cbn; auto.
Qed.

Lemma stg2_constant_df_window istep s :
  let s' := stg2_constant_df exp cfg istep s in
  STG s' = STG s /\ CountPH s' = CountPH s /\ SWchk s' = SWchk s /\
  CountH s' = CountH s /\ Hist s' = Hist s.
Proof.
  unfold stg2_constant_df. break_ifs; cbn; auto.
Qed.

Lemma MAIN_stg2_promotion istep s s' :
  STG s = 2 -> Z.rem istep (TSC2 cfg) = 0 ->
  MAIN_stg2 sqrt log exp cfg istep s = Ok s' ->
  (f s' <= pfinFval s')%Q ->
  STG s' <> 1 /\
  (1 <= f_flag cfg -> STG s' = 3 /\ CountPH s' = 0) /\
  (f_flag cfg = 1 ->
   SWchk s' = 1 /\ CountH s' = 0 /\
   Hist s' = replicate (length (Hist s)) 0) /\
  (f_flag cfg = 2 \/ f_flag cfg = 3 ->
   SWchk s' = SWchk s /\ CountH s' = 0 /\
   Hist s' = replicate (length (Hist s)) 0) /\
  (f_flag cfg = 4 ->
   SWchk s' = SWchk s /\ CountH s' = CountH s /\ Hist s' = Hist s) /\
  (f_flag cfg <= 0 -> STG s' = 2).
Proof.
  intros H2 Hm H Hle.
  apply MAIN_stg2_cases in H as [[[N|N] _]|(_ & HT & _ & s1 & Hc & _ & ->)];
    [contradiction | contradiction |].
  assert (Hle1 : Qle_bool (f s1) (pfinFval s1) = true).
  { apply Qle_bool_iff. destruct (_ && _); exact Hle. }
  rewrite Hle1. cbn [andb].
  destruct Hc as [[E ->]|[[E ->]|[[E ->]|[[E ->]|[[E ->]|[E ->]]]]]].
  - destruct (Z.ltb_spec 1 (f_flag cfg)); [lia|].
    unfold stg2_none, reset_window, ResetPH. cbn.
    repeat split; intros; try (exfalso; lia); congruence.
  - destruct (Z.ltb_spec 1 (f_flag cfg)); [lia|].
    destruct (stg2_hchk_window s) as (_ & Hw).
    destruct (Hw Hle1) as (E3 & EC & ES & EH & EZ).
    repeat split; intros; try (exfalso; lia); try assumption; lia.
  - destruct (Z.ltb_spec 1 (f_flag cfg)); [|lia].
    destruct (stg2_sqrt_window istep s) as (E3 & EC & ES & EH & EZ).
    cbn [STG CountPH SWchk CountH Hist set_CountPH set_STG].
    repeat split; intros; try (exfalso; lia); try assumption; lia.
  - destruct (Z.ltb_spec 1 (f_flag cfg)); [|lia].
    destruct (stg2_constant_f_window istep s) as (E3 & EC & ES & EH & EZ).
    cbn [STG CountPH SWchk CountH Hist set_CountPH set_STG].
    repeat split; intros; try (exfalso; lia); try assumption; lia.
  - destruct (Z.ltb_spec 1 (f_flag cfg)); [|lia].
    destruct (stg2_constant_df_window istep s) as (E3 & EC & ES & EH & EZ).
    cbn [STG CountPH SWchk CountH Hist set_CountPH set_STG].
    repeat split; intros; try (exfalso; lia); try assumption; lia.
  - destruct (Z.ltb_spec 1 (f_flag cfg)).
    + cbn [STG CountPH SWchk CountH Hist set_CountPH set_STG].
      repeat split; intros; try (exfalso; lia); try assumption; lia.
    + repeat split; intros; try (exfalso; lia); try assumption; lia.
Qed.

End Promotion.

(** C6 as amended.  In stage 2, on a step that is a multiple of [TSC2],
    completes (so [f > 1]) and leaves [f <= pfinFval]: every reducing
    scheme promotes [STG] to 3 and resets [CountPH] to 0; hchk also sets
    [SWchk] to 1 and resets the window; sqrt and constant_f leave [SWchk]
    as it was and have reset the window with the f-update; constant_df
    leaves [SWchk] as it was and does not reset the window, [Hist] and
    [CountH] keep the sample of the step; scheme none does not promote. *)
Theorem stage2_promotion (sqrt log exp : Q -> Q) (cfg : config)
    (s : state) (istep : Z) (potE : Q) (s' : state) :
  STG s = 2 -> Z.rem istep (TSC2 cfg) = 0 ->
  MAIN sqrt log exp cfg istep potE s = Ok s' ->
  (f s' <= pfinFval s')%Q ->
  (1 <= f_flag cfg -> STG s' = 3 /\ CountPH s' = 0) /\
  (f_flag cfg = 1 ->
   SWchk s' = 1 /\ CountH s' = 0 /\
   Hist s' = replicate (length (Hist s)) 0) /\
  (f_flag cfg = 2 \/ f_flag cfg = 3 ->
   SWchk s' = SWchk s /\ CountH s' = 0 /\
   Hist s' = replicate (length (Hist s)) 0) /\
  (f_flag cfg = 4 ->
   SWchk s' = SWchk s /\ CountH s' = CountH s + 1 /\
   exists h : Z,
     Hist s !! Z.to_nat (curbin s') = Some h /\
     Hist s' = <[Z.to_nat (curbin s') := h + 1]> (Hist s)) /\
  (f_flag cfg <= 0 -> STG s' = 2).
Proof.
  intros H2 Hm H Hle. unfold MAIN in H.
  apply bind_Ok_inv in H as ([i s1] & Hs & H). cbn [snd] in H.
  apply MAIN_sample_Ok_inv in Hs.
  assert (E1 : STG s1 = 2) by (rewrite (smp_STG _ _ _ _ _ Hs); exact H2).
  rewrite MAIN_stg3_skip in H by lia. cbn [bind] in H.
  apply bind_Ok_inv in H as (s2 & Hb & H).
  assert (Hskip : s' = s2 ->
                  (f s2 <= pfinFval s2)%Q) by (intros <-; exact Hle).
  destruct (Z.eq_dec (STG s2) 1) as [Es|Ns].
  - exfalso.
    apply MAIN_stg2_cases in Hb
      as [[[N|N] _]|(_ & _ & _ & s3 & Hc & _ & ->)]; try contradiction.
    revert Es. destruct (_ && _); cbn [STG set_CountPH set_STG]; [lia|].
    destruct Hc as [[E ->]|[[E ->]|[[E ->]|[[E ->]|[[E ->]|[E ->]]]]]].
    + unfold stg2_none, reset_window, ResetPH. cbn. lia.
    + destruct (stg2_hchk_df sqrt log cfg s1) as ([ES|ES] & _); lia.
    + destruct (stg2_sqrt_df sqrt log cfg istep s1) as (ES & _). lia.
    + destruct (stg2_constant_f_df sqrt log cfg istep s1) as (ES & _). lia.
    + rewrite stg2_constant_df_STG. lia.
    + lia.
  - rewrite MAIN_stg1_skip in H by exact Ns. injection H as <-.
    destruct (MAIN_stg2_promotion sqrt log exp cfg istep s1 s2 E1 Hm Hb Hle)
      as (_ & Ha & Hb1 & Hb2 & Hb4 & Hb0).
    destruct (smp_Hist _ _ _ _ _ Hs) as (h & Eh & EH).
    split; [exact Ha|]. split; [|split; [|split; [|exact Hb0]]].
    + intros E. destruct (Hb1 E) as (A & B & C).
      rewrite C, EH, length_insert. auto.
    + intros E. destruct (Hb2 E) as (A & B & C).
      rewrite A, C, EH, length_insert, (smp_SWchk _ _ _ _ _ Hs). auto.
    + intros E. destruct (Hb4 E) as (A & B & C).
      rewrite A, B, C, (smp_SWchk _ _ _ _ _ Hs), (smp_CountH _ _ _ _ _ Hs).
      split; [reflexivity|]. split; [reflexivity|].
      assert (Ec : curbin s2 = i).
      { apply MAIN_stg2_cases in Hb
          as [[[N|N] _]|(_ & _ & _ & s3 & Hc & _ & ->)]; try contradiction.
        rewrite <- (smp_curbin _ _ _ _ _ Hs).
        destruct Hc as [[E' ->]|[[E' ->]|[[E' ->]|[[E' ->]|[[E' ->]|[E' ->]]]]]];
          try (exfalso; lia).
        unfold stg2_constant_df. break_ifs; reflexivity. }
      rewrite Ec. exists h. split; [exact Eh | exact EH].
Qed.

Lemma stage2_promotion_witness :
  (1 <= f_flag cfg5_df -> STG st5_learn_next = 3 /\ CountPH st5_learn_next = 0)
  /\
  (f_flag cfg5_df = 4 ->
   SWchk st5_learn_next = SWchk st5_learn /\
   CountH st5_learn_next = CountH st5_learn + 1 /\
   exists h : Z,
     Hist st5_learn !! Z.to_nat (curbin st5_learn_next) = Some h /\
     Hist st5_learn_next
     = <[Z.to_nat (curbin st5_learn_next) := h + 1]> (Hist st5_learn)).
Proof.
  assert (H : MAIN sqrt_q log_q exp_q cfg5_df 10 2 st5_learn
              = Ok st5_learn_next) by (vm_compute; reflexivity).
  assert (Hle : (f st5_learn_next <= pfinFval st5_learn_next)%Q)
    by (apply Qle_bool_iff; vm_compute; reflexivity).
  destruct (stage2_promotion sqrt_q log_q exp_q cfg5_df st5_learn 10 2
              st5_learn_next eq_refl eq_refl H Hle) as (A & _ & _ & B & _).
  split; [exact A | exact B].
Defined.

(** C6 as stated fails.  Under constant_df the step 10 at energy 2 takes
    [f] from [exp(0.008)] to [exp(0.00792)], below [pfinFval = 1.01]:
    [STG] becomes 3 and [CountPH] 0, but the window is not reset: [Hist]
    is [0; 2; 3; 2; 0] and [CountH] is 7. *)
Lemma stage2_promotion_without_reset :
  ~ (forall (cfg : config) (istep : Z) (potE : Q) (s s' : state),
       STG s = 2 -> 0 <= f_flag cfg <= 4 ->
       TSC2 cfg <> 0 -> Z.rem istep (TSC2 cfg) = 0 ->
       MAIN sqrt_q log_q exp_q cfg istep potE s = Ok s' ->
       ~ (f s' == f s)%Q -> (f s' <= pfinFval s')%Q ->
       STG s' = 3 /\ CountPH s' = 0 /\ SWchk s' = 1 /\
       Hist s' = replicate (length (Hist s')) 0 /\ CountH s' = 0).
Proof.
  intros H.
  destruct (H cfg5_df 10 2%Q st5_learn st5_learn_next)
    as (_ & _ & _ & _ & Hc0).
  - reflexivity.
  - vm_compute. split; discriminate.
  - discriminate.
  - reflexivity.
  - vm_compute. reflexivity.
  - intros Hq. apply Qeq_bool_iff in Hq. vm_compute in Hq. discriminate.
  - apply Qle_bool_iff. vm_compute. reflexivity.
  - vm_compute in Hc0. discriminate.
Qed.

Example stage2_promotion_step :
  STG st5_learn_next = 3 /\ CountPH st5_learn_next = 0 /\
  Hist st5_learn_next = [0; 2; 3; 2; 0] /\ CountH st5_learn_next = 7 /\
  (df st5_learn_next == 396 # 100000)%Q.
Proof. repeat split. Qed.

(** * Further properties of the engine *)

(** ** Rounding to the nearest bin *)

Lemma Qle_bool_false (x y : Q) : Qle_bool x y = false <-> (y < x)%Q.
Proof.
  split.
  - intros H. apply Qnot_le_lt. intros Hle.
    apply Qle_bool_iff in Hle. congruence.
  - intros H. destruct (Qle_bool x y) eqn:E; [|reflexivity].
    apply Qle_bool_iff in E. exfalso. apply (Qlt_not_le _ _ H E).
Qed.

Lemma c_round_close (x : Q) :
  (- (1 # 2) <= inject_Z (c_round x) - x <= 1 # 2)%Q.
Proof.
  unfold c_round. destruct (Qle_bool 0 x).
  - pose proof (Qfloor_le (x + (1 # 2))) as H1.
    pose proof (Qlt_floor (x + (1 # 2))) as H2.
    rewrite inject_Z_plus in H2. change (inject_Z 1) with 1%Q in H2.
    split; lra.
  - pose proof (Qle_ceiling (x - (1 # 2))) as H1.
    pose proof (Qceiling_lt (x - (1 # 2))) as H2.
    unfold Z.sub in H2. rewrite inject_Z_plus, inject_Z_opp in H2.
    change (inject_Z 1) with 1%Q in H2.
    split; lra.
Qed.

Lemma c_round_mono (x y : Q) : (x <= y)%Q -> c_round x <= c_round y.
Proof.
  intros Hxy. unfold c_round.
  destruct (Qle_bool 0 x) eqn:Ex, (Qle_bool 0 y) eqn:Ey.
  - apply Qfloor_resp_le. lra.
  - apply Qle_bool_iff in Ex. apply Qle_bool_false in Ey. lra.
  - apply Qle_bool_false in Ex. apply Qle_bool_iff in Ey.
    transitivity 0.
    + change 0 with (Qceiling 0). apply Qceiling_resp_le. lra.
    + change 0 with (Qfloor 0). apply Qfloor_resp_le. lra.
  - apply Qceiling_resp_le. lra.
Qed.

Lemma c_round_comp (x y : Q) : (x == y)%Q -> c_round x = c_round y.
Proof.
  intros H. apply Z.le_antisymm; apply c_round_mono; rewrite H; apply Qle_refl.
Qed.

Lemma c_round_inject_Z (z : Z) : c_round (inject_Z z) = z.
Proof.
  pose proof (c_round_close (inject_Z z)) as [H1 H2].
  unfold Qminus in H1, H2. rewrite <- inject_Z_opp, <- inject_Z_plus in H1, H2.
  assert (L : (inject_Z (-1) < inject_Z (c_round (inject_Z z) + - z))%Q) by
    (change (inject_Z (-1)) with (-1)%Q; lra).
  assert (U : (inject_Z (c_round (inject_Z z) + - z) < inject_Z 1)%Q) by
    (change (inject_Z 1) with 1%Q; lra).
  rewrite <- Zlt_Qlt in L, U. lia.
Qed.

(** The offset of an energy from the centre of its bin is at most half a
    bin. *)
Lemma bin_offset (b potE : Q) :
  (0 < b)%Q ->
  let u := ((potE - inject_Z (c_round (potE / b)) * b) / b)%Q in
  (- (1 # 2) <= u <= 1 # 2)%Q.
Proof.
  intros Hb u.
  pose proof (c_round_close (potE / b)) as [H1 H2].
  assert (E : (u == potE / b - inject_Z (c_round (potE / b)))%Q).
  { unfold u. field. lra. }
  rewrite E. split; lra.
Qed.

(** ** The force scale [GammaE] *)

Lemma convex_in_range (t1 t2 y z u : Q) :
  (t1 <= y <= t2 -> t1 <= z <= t2 -> 0 <= u <= 1 ->
   t1 <= y + (z - y) * u <= t2)%Q.
Proof.
  intros [Hy1 Hy2] [Hz1 Hz2] [Hu1 Hu2].
  assert (A : (0 <= (1 - u) * (y - t1))%Q) by (apply Qmult_le_0_compat; lra).
  assert (B : (0 <= u * (z - t1))%Q) by (apply Qmult_le_0_compat; lra).
  assert (C : (0 <= (1 - u) * (t2 - y))%Q) by (apply Qmult_le_0_compat; lra).
  assert (D : (0 <= u * (t2 - z))%Q) by (apply Qmult_le_0_compat; lra).
  split; lra.
Qed.

Lemma inverse_in_range (t1 t2 t : Q) :
  (0 < t1 -> t1 <= t <= t2 ->
   1 / t2 <= 1 / t <= 1 / t1 /\ 1 / t * t == 1)%Q.
Proof.
  intros H1 [Ht1 Ht2].
  assert (Ht : (0 < t)%Q) by lra.
  assert (H2 : (0 < t2)%Q) by lra.
  repeat split.
  - apply Qle_shift_div_l; [assumption|].
    assert (E : (1 / t2 * t == t / t2)%Q) by (field; lra). rewrite E.
    apply Qle_shift_div_r; [assumption | lra].
  - apply Qle_shift_div_l; [assumption|].
    assert (E : (1 / t * t1 == t1 / t)%Q) by (field; lra). rewrite E.
    apply Qle_shift_div_r; [assumption | lra].
  - field. lra.
Qed.

Lemma GammaE_value (cfg : config) (potE : Q) (i : Z) (s s' : state) :
  GammaE cfg potE i s = Ok s' ->
  let e := (potE - inject_Z (c_round (potE / bin cfg)) * bin cfg)%Q in
  s' = set_Gamma (1 / T s')%Q (set_T (T s') s) /\
  exists y : Q, Y2 s !! Z.to_nat i = Some y /\
    (((0 < e)%Q /\ exists yp : Q,
        Y2 s !! Z.to_nat (i + 1) = Some yp /\
        T s' = (y + (yp - y) / bin cfg * e)%Q) \/
     ((e < 0)%Q /\ exists ym : Q,
        Y2 s !! Z.to_nat (i - 1) = Some ym /\
        T s' = (y + (y - ym) / bin cfg * e)%Q) \/
     ((e == 0)%Q /\ T s' = y)).
Proof.
  intros H e. unfold GammaE in H. cbv zeta in H. fold e in H.
  apply bind_Ok_inv in H as (t & Ht & H). injection H as <-.
  split; [reflexivity|]. cbn [T set_Gamma set_T].
  destruct (Qlt_bool 0 e) eqn:E1.
  - apply Qlt_bool_iff in E1.
    apply bind_Ok_inv in Ht as (yp & Hp & Ht).
    apply bind_Ok_inv in Ht as (y & Hy & Ht). injection Ht as <-.
    apply rd_Ok_inv in Hp as [_ Hp]. apply rd_Ok_inv in Hy as [_ Hy].
    exists y. split; [exact Hy|]. left. split; [exact E1|].
    exists yp. split; [exact Hp | reflexivity].
  - apply Qlt_bool_false in E1. destruct (Qlt_bool e 0) eqn:E2.
    + apply Qlt_bool_iff in E2.
      apply bind_Ok_inv in Ht as (y & Hy & Ht).
      apply bind_Ok_inv in Ht as (ym & Hm & Ht). injection Ht as <-.
      apply rd_Ok_inv in Hm as [_ Hm]. apply rd_Ok_inv in Hy as [_ Hy].
      exists y. split; [exact Hy|]. right; left. split; [exact E2|].
      exists ym. split; [exact Hm | reflexivity].
    + apply Qlt_bool_false in E2. apply rd_Ok_inv in Ht as [_ Ht].
      exists t. split; [exact Ht|]. right; right.
      split; [apply Qle_antisym; assumption | reflexivity].
Qed.

(** On a table whose bins lie in [[T1, T2]], with a positive bin width
    and [T1 > 0], [GammaE] interpolates between the sampled bin and one
    neighbour, at most half way. *)
Lemma GammaE_bounds (cfg : config) (potE : Q) (i : Z)
    (s s' : state) :
  (0 < bin cfg)%Q -> (0 < T1 s)%Q -> in_range s ->
  GammaE cfg potE i s = Ok s' ->
  (T1 s <= T s' <= T2 s)%Q /\
  (1 / T2 s <= Gamma s' <= 1 / T1 s)%Q /\
  (Gamma s' * T s' == 1)%Q /\
  s' = set_Gamma (Gamma s') (set_T (T s') s).
Proof.
  intros Hb H1 Hr H.
  apply GammaE_value in H as (Es & y & Hy & Hc).
  pose proof (bin_offset (bin cfg) potE Hb) as Hu. cbv zeta in Hu, Hc.
  set (e := (potE - inject_Z (c_round (potE / bin cfg)) * bin cfg)%Q) in *.
  assert (Ry : (T1 s <= y <= T2 s)%Q)
    by exact (Forall_lookup_1 _ _ _ _ Hr Hy).
  assert (HT : (T1 s <= T s' <= T2 s)%Q).
  { destruct Hc as [(He & yp & Hp & ->) | [(He & ym & Hm & ->) | (He & ->)]].
    - assert (Rp : (T1 s <= yp <= T2 s)%Q)
        by exact (Forall_lookup_1 _ _ _ _ Hr Hp).
      assert (E : ((yp - y) / bin cfg * e == (yp - y) * (e / bin cfg))%Q)
        by (field; lra).
      rewrite E. apply convex_in_range; try assumption.
      assert (0 < e / bin cfg)%Q by (apply Qlt_shift_div_l; lra). lra.
    - assert (Rm : (T1 s <= ym <= T2 s)%Q)
        by exact (Forall_lookup_1 _ _ _ _ Hr Hm).
      assert (E : ((y - ym) / bin cfg * e == (ym - y) * (- (e / bin cfg)))%Q)
        by (field; lra).
      rewrite E. apply convex_in_range; try assumption.
      assert (e / bin cfg < 0)%Q by (apply Qlt_shift_div_r; lra). lra.
    - exact Ry. }
  assert (EG : Gamma s' = (1 / T s')%Q) by (rewrite Es at 1; reflexivity).
  destruct (inverse_in_range _ _ _ H1 HT) as (HG & HI).
  rewrite EG. repeat split; try apply HT; try apply HG; try exact HI.
  exact Es.
Qed.

(** ** The bin of a sampled energy *)

Lemma bin_of_mono (b x y : Q) :
  (0 < b)%Q -> (x <= y)%Q -> c_round (x / b) <= c_round (y / b).
Proof.
  intros Hb Hxy. apply c_round_mono. unfold Qdiv.
  apply Qmult_le_compat_r; [exact Hxy|].
  apply Qinv_le_0_compat. lra.
Qed.

Lemma Yval_index_window (cfg : config) (potE : Q) :
  (0 < bin cfg)%Q -> (Emin cfg <= potE <= Emax cfg)%Q ->
  1 <= Yval_index cfg potE <= Nbin cfg.
Proof.
  intros Hb [H1 H2]. unfold Yval_index, Nbin, BinMin, BinMax.
  pose proof (bin_of_mono _ _ _ Hb H1). pose proof (bin_of_mono _ _ _ Hb H2).
  lia.
Qed.

(** ** Errors of a step *)

Lemma bind_Fatal_inv {A B : Type} (m : outcome A) (k : A -> outcome B)
    (e : fatal) :
  bind m k = Fatal e -> m = Fatal e \/ exists a, m = Ok a /\ k a = Fatal e.
Proof.
  destruct m as [a| |]; cbn; intros H.
  - right. now exists a.
  - left. injection H as ->. reflexivity.
  - discriminate.
Qed.

Lemma rd_not_Fatal {A : Type} (a : list A) (i : Z) (e : fatal) :
  rd a i <> Fatal e.
Proof.
  unfold rd. destruct (i <? 0); [discriminate|].
  destruct (a !! Z.to_nat i); discriminate.
Qed.

Lemma c_rem_not_Fatal (a b : Z) (e : fatal) : c_rem a b <> Fatal e.
Proof. unfold c_rem. destruct (b =? 0); discriminate. Qed.

Ltac no_fatal H :=
  repeat first
    [ discriminate H
    | exfalso; exact (rd_not_Fatal _ _ _ H)
    | exfalso; exact (upd_not_Fatal _ _ _ _ H)
    | exfalso; exact (c_rem_not_Fatal _ _ _ H)
    | apply bind_Fatal_inv in H as [H | (? & _ & H)]
    | match type of H with
      | context [if ?c then _ else _] => destruct c
      | context [let '(_, _) := ?p in _] => destruct p
      end ].

Section StepErrors.
Variables (sqrt log exp : Q -> Q) (cfg : config).

Lemma GammaE_not_Fatal potE i s e : GammaE cfg potE i s <> Fatal e.
Proof. unfold GammaE. intros H. no_fatal H. Qed.

Lemma AddedEHis_not_Fatal i s e : AddedEHis i s <> Fatal e.
Proof. unfold AddedEHis. intros H. no_fatal H. Qed.

Lemma dig_not_Fatal s e : dig s <> Fatal e.
Proof. unfold dig. intros H. no_fatal H. Qed.

Lemma TCHK_not_Fatal s e : TCHK s <> Fatal e.
Proof. unfold TCHK. intros H. no_fatal H. Qed.

Lemma MAIN_sample_Fatal_inv istep potE s e :
  MAIN_sample cfg istep potE s = Fatal e <->
  e = HistogramIndexOutOfRange /\
  (Yval_index cfg potE < 1 \/ Yval_index cfg potE > Nbin cfg - 1).
Proof.
  unfold MAIN_sample. split.
  - intros H. apply bind_Fatal_inv in H as [H | ([j s1] & _ & H)].
    + apply Yval_fatal_iff in H. exact H.
    + exfalso.
      apply bind_Fatal_inv in H as [H | (s2 & _ & H)];
        [exact (GammaE_not_Fatal _ _ _ _ H)|].
      apply bind_Fatal_inv in H as [H | (s3 & _ & H)];
        [exact (AddedEHis_not_Fatal _ _ _ H)|].
      no_fatal H.
  - intros H. cbv zeta.
    match goal with
    | |- bind (Yval _ _ ?sa) _ = _ =>
        rewrite (proj2 (Yval_fatal_iff cfg potE sa e) H)
    end.
    reflexivity.
Qed.

Lemma MAIN_stg3_not_Fatal istep s e :
  MAIN_stg3 sqrt log cfg istep s <> Fatal e.
Proof.
  unfold MAIN_stg3. intros H.
  destruct (3 <=? STG s); [|discriminate].
  apply bind_Fatal_inv in H as [H | (m & _ & H)];
    [exact (c_rem_not_Fatal _ _ _ H)|].
  destruct (m =? 0); discriminate.
Qed.

Lemma MAIN_stg2_Fatal_inv istep s e :
  MAIN_stg2 sqrt log exp cfg istep s = Fatal e ->
  e = FValueLessThanUnity /\ STG s = 2 /\ TSC2 cfg <> 0 /\
  Z.rem istep (TSC2 cfg) = 0.
Proof.
  unfold MAIN_stg2. intros H.
  destruct (Z.eqb_spec (STG s) 2) as [E2|]; [|discriminate].
  apply bind_Fatal_inv in H as [H | (m & Hm & H)];
    [exfalso; exact (c_rem_not_Fatal _ _ _ H)|].
  apply c_rem_Ok_inv in Hm as [HT ->].
  destruct (Z.eqb_spec (Z.rem istep (TSC2 cfg)) 0) as [E0|]; [|discriminate].
  cbv zeta in H.
  match type of H with
  | (if ?c then _ else _) = _ => destruct c; [|discriminate]
  end.
  injection H as <-. auto.
Qed.

Lemma MAIN_stg1_not_Fatal istep s e : MAIN_stg1 cfg istep s <> Fatal e.
Proof.
  unfold MAIN_stg1. intros H.
  destruct (STG s =? 1); [|discriminate].
  apply bind_Fatal_inv in H as [H | (m & _ & H)];
    [exact (c_rem_not_Fatal _ _ _ H)|].
  destruct (m =? 0); [|discriminate].
  apply bind_Fatal_inv in H as [H | (s1 & _ & H)];
    [exact (dig_not_Fatal _ _ H)|].
  apply bind_Fatal_inv in H as [H | (s2 & _ & H)];
    [exact (TCHK_not_Fatal _ _ H)|].
  discriminate.
Qed.

(** The stage after the stage-3 block. *)
Lemma MAIN_stg3_STG istep s s' :
  MAIN_stg3 sqrt log cfg istep s = Ok s' ->
  (STG s < 3 /\ s' = s) \/
  (3 <= STG s /\ (STG s' = STG s \/ STG s' = 4)).
Proof.
  intros H. destruct (Z.ltb_spec (STG s) 3) as [L|G].
  - rewrite MAIN_stg3_skip in H by assumption. injection H as <-. auto.
  - right. split; [assumption|].
    apply MAIN_stg3_cases in H as [(_ & ->) | (_ & _ & _ & s1 & Hs1 & ->)];
      [auto|].
    assert (E : STG s1 = STG s).
    { destruct Hs1 as [(_ & ->) | [(_ & ->) | (_ & ->)]].
      - apply stg3_hchk_df.
      - apply stg3_unconditional_df.
      - reflexivity. }
    destruct (Qle_bool _ _); cbn [STG set_STG]; auto.
Qed.

Lemma MAIN_stg2_STG istep s s' :
  MAIN_stg2 sqrt log exp cfg istep s = Ok s' ->
  (STG s <> 2 /\ s' = s) \/ (STG s = 2 /\ (STG s' = 2 \/ STG s' = 3)).
Proof.
  intros H. destruct (Z.eq_dec (STG s) 2) as [E|N].
  - right. split; [assumption|].
    apply MAIN_stg2_cases in H as [(_ & ->) | (_ & _ & _ & s1 & Hs1 & _ & ->)];
      [auto|].
    assert (E1 : STG s1 = 2 \/ STG s1 = 3).
    { destruct Hs1 as [(_ & ->) | [(_ & ->) | [(_ & ->) | [(_ & ->) |
        [(_ & ->) | (_ & ->)]]]]].
      - left. exact E.
      - destruct (stg2_hchk_df sqrt log cfg s) as [[E1|E1] _]; rewrite E1; auto.
      - left. rewrite (proj1 (stg2_sqrt_df sqrt log cfg istep s)). exact E.
      - left. rewrite (proj1 (stg2_constant_f_df sqrt log cfg istep s)).
        exact E.
      - left. rewrite stg2_constant_df_STG. exact E.
      - left. exact E. }
    destruct (_ && _); cbn [STG set_STG set_CountPH]; auto.
  - rewrite MAIN_stg2_skip in H by assumption. injection H as <-. auto.
Qed.

(** A step is its sampling part followed by one stage block, the one of
    the stage in which the step starts. *)
Lemma MAIN_cases istep potE s s' :
  MAIN sqrt log exp cfg istep potE s = Ok s' ->
  exists (i : Z) (s1 : state),
    MAIN_sample cfg istep potE s = Ok (i, s1) /\
    ((3 <= STG s /\ MAIN_stg3 sqrt log cfg istep s1 = Ok s') \/
     (STG s = 2 /\ MAIN_stg2 sqrt log exp cfg istep s1 = Ok s') \/
     (STG s = 1 /\ MAIN_stg1 cfg istep s1 = Ok s') \/
     (STG s < 1 /\ s' = s1)).
Proof.
  unfold MAIN. intros H.
  apply bind_Ok_inv in H as ([i s1] & Hs & H). cbn [snd] in H.
  apply bind_Ok_inv in H as (s2 & H3 & H).
  apply bind_Ok_inv in H as (s3 & H2 & H).
  exists i, s1. split; [exact Hs|].
  assert (E1 : STG s1 = STG s) by (apply MAIN_sample_Ok_inv in Hs; apply Hs).
  pose proof (MAIN_stg3_STG _ _ _ H3) as [(L & ->) | (G & Hc)].
  - pose proof (MAIN_stg2_STG _ _ _ H2) as [(N & ->) | (E & Hc)].
    + destruct (Z.eq_dec (STG s1) 1) as [E|N1].
      * right; right; left. split; [lia | exact H].
      * rewrite MAIN_stg1_skip in H by assumption. injection H as <-.
        right; right; right. split; [lia | reflexivity].
    + rewrite MAIN_stg1_skip in H by lia. injection H as <-.
      right; left. split; [lia | exact H2].
  - rewrite MAIN_stg2_skip in H2 by lia. injection H2 as <-.
    rewrite MAIN_stg1_skip in H by lia. injection H as <-.
    left. split; [lia | exact H3].
Qed.

Lemma MAIN_Fatal_inv istep potE s e :
  MAIN sqrt log exp cfg istep potE s = Fatal e ->
  (e = HistogramIndexOutOfRange /\
   (Yval_index cfg potE < 1 \/ Yval_index cfg potE > Nbin cfg - 1)) \/
  (e = FValueLessThanUnity /\ STG s = 2 /\ TSC2 cfg <> 0 /\
   Z.rem istep (TSC2 cfg) = 0).
Proof.
  unfold MAIN. intros H.
  apply bind_Fatal_inv in H as [H | ([i s1] & Hs & H)].
  { left. apply MAIN_sample_Fatal_inv in H. exact H. }
  cbn [snd] in H.
  assert (E1 : STG s1 = STG s) by (apply MAIN_sample_Ok_inv in Hs; apply Hs).
  apply bind_Fatal_inv in H as [H | (s2 & H3 & H)];
    [exfalso; exact (MAIN_stg3_not_Fatal _ _ _ H)|].
  apply bind_Fatal_inv in H as [H | (s3 & _ & H)];
    [|exfalso; exact (MAIN_stg1_not_Fatal _ _ _ H)].
  apply MAIN_stg2_Fatal_inv in H as (-> & E2 & HT & Hm).
  right. repeat split; try assumption.
  apply MAIN_stg3_STG in H3 as [(_ & ->) | (G & [E|E])]; lia.
Qed.

End StepErrors.

(** X1.  The errors of [post_force], for a positive bin width.  The range
    check fails exactly for an energy outside [[Emin, Emax]].  The
    histogram index error is raised exactly for the energies of the window
    that round to the highest bin [BinMax].  The f-value error is raised
    only in stage 2 on a multiple of [TSC2].  No error of [init] is
    raised. *)
Theorem post_force_errors (sqrt log exp : Q -> Q) (cfg : config)
    (ntimestep : Z) (potE : Q) (s : state) :
  (0 < bin cfg)%Q ->
  let r := post_force sqrt log exp cfg ntimestep potE s in
  (r = Fatal PotentialEnergyOutOfRange <->
   (potE < Emin cfg \/ Emax cfg < potE)%Q) /\
  (r = Fatal HistogramIndexOutOfRange <->
   (Emin cfg <= potE <= Emax cfg)%Q /\
   c_round (potE / bin cfg) = BinMax cfg) /\
  (r = Fatal FValueLessThanUnity ->
   STG s = 2 /\ TSC2 cfg <> 0 /\ Z.rem ntimestep (TSC2 cfg) = 0) /\
  r <> Fatal RestartFileMissing /\ r <> Fatal RestartFileInvalid.
Proof.
  intros Hb r. subst r. unfold post_force.
  destruct (Qlt_bool potE (Emin cfg)) eqn:E1;
    [|destruct (Qlt_bool (Emax cfg) potE) eqn:E2]; cbn [orb].
  - apply Qlt_bool_iff in E1.
    repeat split; try discriminate; auto; intros [[H _] _]; lra.
  - apply Qlt_bool_iff in E2.
    repeat split; try discriminate; auto; intros [[_ H] _]; lra.
  - apply Qlt_bool_false in E1. apply Qlt_bool_false in E2.
    pose proof (Yval_index_window cfg potE Hb (conj E1 E2)) as Hi.
    repeat split.
    + intros H. apply MAIN_Fatal_inv in H as [(H & _) | (H & _)];
        discriminate.
    + intros [H | H]; lra.
    + assumption.
    + assumption.
    + apply MAIN_Fatal_inv in H as [(_ & H) | (H & _)]; [|discriminate].
      unfold Yval_index, Nbin in *. lia.
    + intros (_ & H). unfold MAIN.
      rewrite (proj2 (MAIN_sample_Fatal_inv cfg ntimestep potE s
                        HistogramIndexOutOfRange)); [reflexivity|].
      split; [reflexivity|]. right. unfold Yval_index, Nbin. lia.
    + apply MAIN_Fatal_inv in H as [(H & _) | (_ & H & _)];
        [discriminate | exact H].
    + apply MAIN_Fatal_inv in H as [(H & _) | (_ & _ & H & _)];
        [discriminate | exact H].
    + apply MAIN_Fatal_inv in H as [(H & _) | (_ & _ & _ & H)];
        [discriminate | exact H].
    + intros H. apply MAIN_Fatal_inv in H as [(H & _) | (H & _)];
        discriminate.
    + intros H. apply MAIN_Fatal_inv in H as [(H & _) | (H & _)];
        discriminate.
Qed.

Lemma post_force_errors_witness :
  post_force sqrt_q log_q exp_q cfg5 1 4 st5
  = Fatal HistogramIndexOutOfRange /\
  (Emin cfg5 <= 4 <= Emax cfg5)%Q /\ c_round (4 / bin cfg5) = BinMax cfg5.
Proof.
  assert (Hb : (0 < bin cfg5)%Q) by reflexivity.
  destruct (post_force_errors sqrt_q log_q exp_q cfg5 1 4 st5 Hb)
    as (_ & H & _).
  split; [reflexivity|]. apply H. reflexivity.
Defined.

(** X2.  The energies of the window that round to the bin below the
    highest one pass both checks, and the temperature update then writes
    [Y2[N]], one element past the end of the table: the step is undefined
    behaviour and no error is raised. *)
Theorem post_force_last_bin_undefined (sqrt log exp : Q -> Q) (cfg : config)
    (ntimestep : Z) (potE : Q) (s : state) :
  (0 < bin cfg)%Q -> length (Y2 s) = Z.to_nat (Nbin cfg) ->
  (Emin cfg <= potE <= Emax cfg)%Q ->
  c_round (potE / bin cfg) = BinMax cfg - 1 ->
  post_force sqrt log exp cfg ntimestep potE s = Undefined.
Proof.
  intros Hb Hl [H1 H2] Hr. unfold post_force.
  rewrite (proj2 (Qlt_bool_false _ _) H1), (proj2 (Qlt_bool_false _ _) H2).
  cbn [orb]. unfold MAIN, MAIN_sample. cbv zeta.
  pose proof (bin_of_mono _ _ _ Hb H1) as Hm.
  match goal with
  | |- bind (bind (Yval _ _ ?sa) _) _ = _ =>
      rewrite (Yval_top_bin_Undefined cfg potE sa)
  end.
  - reflexivity.
  - cbn [STG set_totCi set_Count]. destruct (3 <=? STG s); exact Hl.
  - unfold Yval_index, Nbin. lia.
  - unfold Nbin, BinMin. lia.
Qed.

Lemma post_force_last_bin_undefined_witness :
  post_force sqrt_q log_q exp_q cfg5 1 (13 # 4) st5 = Undefined.
Proof.
  apply post_force_last_bin_undefined.
  - reflexivity.
  - reflexivity.
  - split; vm_compute; discriminate.
  - reflexivity.
Defined.

(** ** The stage blocks of a step *)

Ltac upkeep_block :=
  constructor; cbn in *; rewrite ?length_replicate; intros;
  repeat match goal with
         | H : (_ =? _) = true |- _ => apply Z.eqb_eq in H
         end;
  auto 8; try (exfalso; lia).

Lemma upkeep_refl (s : state) : upkeep s s.
Proof. constructor; auto. Qed.

Lemma upkeep_set_STG_4 (s s1 : state) :
  upkeep s s1 -> 3 <= STG s -> upkeep s (set_STG 4 s1).
Proof. intros [] H3. constructor; cbn; auto 8. Qed.

Lemma upkeep_promote_3 (s s1 : state) :
  upkeep s s1 -> STG s = 2 -> upkeep s (set_CountPH 0 (set_STG 3 s1)).
Proof. intros [] H2. constructor; cbn; auto 8. Qed.

(** The table after [dig]: the last bin [j] that attains the minimum [k],
    and [k] in every bin below [j]. *)
Lemma dig_Ok_inv (s s' : state) :
  dig s = Ok s' ->
  exists (j : nat) (k : Q),
    Y2 s !! j = Some k /\ Forall (fun z => (k <= z)%Q) (Y2 s) /\
    (forall (j' : nat) (z : Q),
        (j < j')%nat -> Y2 s !! j' = Some z -> (k < z)%Q) /\
    s' = set_Y2 (dig_fill k j (Y2 s)) s.
Proof.
  unfold dig. intros H. apply bind_Ok_inv in H as (y0 & H0 & H).
  apply rd_Ok_inv in H0 as [_ H0]. change (Z.to_nat 0) with 0%nat in H0.
  pose proof (dig_scan_spec (Y2 s) 0 y0 0) as Hs.
  destruct (dig_scan (Y2 s) 0 y0 0) as [k n]. injection H as <-.
  destruct Hs as (_ & HF & [(_ & _ & Hgt) | (j & Ej & -> & Hlast)]).
  { exfalso. apply (Qlt_irrefl y0). exact (Forall_lookup_1 _ _ _ _ Hgt H0). }
  exists j, k. repeat split; assumption.
Qed.

Lemma dig_fill_Forall (P : Q -> Prop) (k : Q) (n : nat) (Y : list Q) :
  Forall P Y -> P k -> Forall P (dig_fill k n Y).
Proof.
  intros HY Hk. induction n as [|n IH]; [exact HY|].
  rewrite dig_fill_S. apply Forall_insert; assumption.
Qed.

Lemma dig_fill_head (k : Q) (j : nat) (Y : list Q) :
  Y !! j = Some k -> dig_fill k j Y !! 0%nat = Some k.
Proof.
  intros Hj. destruct j as [|j].
  - exact Hj.
  - apply dig_fill_lookup_lt; [lia|]. apply lookup_lt_Some in Hj. lia.
Qed.

Section StageBlocks.
Variables (sqrt log exp : Q -> Q) (cfg : config).

Lemma stg3_hchk_upkeep s :
  3 <= STG s -> upkeep s (stg3_hchk sqrt log cfg s).
Proof.
  intros H3. unfold stg3_hchk, reset_window, ResetPH.
  destruct (HCHK_cases s) as [E|E]; rewrite E; clear E;
    break_ifs; upkeep_block.
Qed.

Lemma stg3_unconditional_upkeep s :
  3 <= STG s -> upkeep s (stg3_unconditional sqrt log cfg s).
Proof.
  intros H3. unfold stg3_unconditional, reset_window, ResetPH.
  break_ifs; upkeep_block.
Qed.

Lemma stg2_none_upkeep s : STG s = 2 -> upkeep s (stg2_none s).
Proof. intros H2. unfold stg2_none, reset_window, ResetPH. upkeep_block. Qed.

Lemma stg2_hchk_upkeep s : STG s = 2 -> upkeep s (stg2_hchk sqrt log cfg s).
Proof.
  intros H2. unfold stg2_hchk, reset_window, ResetPH.
  destruct (HCHK_cases s) as [E|E]; rewrite E; clear E;
    break_ifs; upkeep_block.
Qed.

Lemma stg2_sqrt_upkeep istep s :
  STG s = 2 -> upkeep s (stg2_sqrt sqrt log cfg istep s).
Proof.
  intros H2. unfold stg2_sqrt, reset_window, ResetPH. break_ifs; upkeep_block.
Qed.

Lemma stg2_constant_f_upkeep istep s :
  STG s = 2 -> upkeep s (stg2_constant_f sqrt log cfg istep s).
Proof.
  intros H2. unfold stg2_constant_f, reset_window, ResetPH.
  break_ifs; upkeep_block.
Qed.

Lemma stg2_constant_df_upkeep istep s :
  STG s = 2 -> upkeep s (stg2_constant_df exp cfg istep s).
Proof. intros H2. unfold stg2_constant_df. break_ifs; upkeep_block. Qed.

Lemma MAIN_stg3_upkeep istep s s' :
  MAIN_stg3 sqrt log cfg istep s = Ok s' -> upkeep s s'.
Proof.
  intros H.
  apply MAIN_stg3_cases in H as [(_ & ->) | (H3 & _ & _ & s1 & Hc & ->)];
    [apply upkeep_refl|].
  assert (U : upkeep s s1).
  { destruct Hc as [(_ & ->) | [(_ & ->) | (_ & ->)]].
    - now apply stg3_hchk_upkeep.
    - now apply stg3_unconditional_upkeep.
    - apply upkeep_refl. }
  destruct (Qle_bool _ _); [now apply upkeep_set_STG_4 | exact U].
Qed.

Lemma MAIN_stg2_upkeep istep s s' :
  MAIN_stg2 sqrt log exp cfg istep s = Ok s' -> upkeep s s'.
Proof.
  intros H.
  apply MAIN_stg2_cases in H
    as [(_ & ->) | (H2 & _ & _ & s1 & Hc & _ & ->)];
    [apply upkeep_refl|].
  assert (U : upkeep s s1).
  { destruct Hc as [(_ & ->) | [(_ & ->) | [(_ & ->) | [(_ & ->) |
      [(_ & ->) | (_ & ->)]]]]].
    - now apply stg2_none_upkeep.
    - now apply stg2_hchk_upkeep.
    - now apply stg2_sqrt_upkeep.
    - now apply stg2_constant_f_upkeep.
    - now apply stg2_constant_df_upkeep.
    - apply upkeep_refl. }
  destruct (_ && _); [now apply upkeep_promote_3 | exact U].
Qed.

(** The stage-1 block on a multiple of [TSC1]: [dig], then the promotion
    to stage 2 with a cleared window when the minimum of the table is
    [T1]. *)
Lemma MAIN_stg1_cases istep s s' :
  MAIN_stg1 cfg istep s = Ok s' ->
  ((STG s <> 1 \/ Z.rem istep (TSC1 cfg) <> 0) /\ s' = s) \/
  (STG s = 1 /\ TSC1 cfg <> 0 /\ Z.rem istep (TSC1 cfg) = 0 /\
   exists (j : nat) (k : Q),
     Y2 s !! j = Some k /\ Forall (fun z => (k <= z)%Q) (Y2 s) /\
     (forall (j' : nat) (z : Q),
         (j < j')%nat -> Y2 s !! j' = Some z -> (k < z)%Q) /\
     s' = if Qeq_bool k (T1 s)
          then reset_window (set_STG 2 (set_Y2 (dig_fill k j (Y2 s)) s))
          else set_Y2 (dig_fill k j (Y2 s)) s).
Proof.
  unfold MAIN_stg1.
  destruct (Z.eqb_spec (STG s) 1) as [E1|]; [|intros [= <-]; left; auto].
  intros H. apply bind_Ok_inv in H as (m & Hm & H).
  apply c_rem_Ok_inv in Hm as [HT ->].
  destruct (Z.eqb_spec (Z.rem istep (TSC1 cfg)) 0) as [E0|];
    [|injection H as <-; left; auto].
  apply bind_Ok_inv in H as (sd & Hd & H).
  apply bind_Ok_inv in H as (st & Ht & H). injection H as <-.
  apply dig_Ok_inv in Hd as (j & k & Ej & HF & Hlast & ->).
  right. repeat split; try assumption.
  exists j, k. repeat split; try assumption.
  unfold TCHK in Ht. apply bind_Ok_inv in Ht as (y0 & H0 & Ht).
  apply rd_Ok_inv in H0 as [_ H0]. cbn [Y2 set_Y2] in H0.
  change (Z.to_nat 0) with 0%nat in H0.
  rewrite (dig_fill_head _ _ _ Ej) in H0. injection H0 as <-.
  injection Ht as <-. cbn [T1 set_Y2].
  destruct (Qeq_bool k (T1 s)); cbn [STG set_STG set_Y2]; [reflexivity|].
  rewrite E1. reflexivity.
Qed.

Lemma MAIN_stg1_upkeep istep s s' :
  MAIN_stg1 cfg istep s = Ok s' -> upkeep s s'.
Proof.
  intros H.
  apply MAIN_stg1_cases in H
    as [(_ & ->) | (E1 & _ & _ & j & k & _ & _ & _ & ->)];
    [apply upkeep_refl|].
  unfold reset_window, ResetPH.
  destruct (Qeq_bool _ _); constructor; cbn;
    rewrite ?length_replicate, ?dig_fill_length; intros; auto 8;
    exfalso; lia.
Qed.

(** What a step leaves after its sampling part. *)
Lemma MAIN_upkeep istep potE s s' :
  MAIN sqrt log exp cfg istep potE s = Ok s' ->
  exists (i : Z) (s1 : state),
    MAIN_sample cfg istep potE s = Ok (i, s1) /\
    sampled cfg istep s i s1 /\ upkeep s1 s'.
Proof.
  intros H. apply MAIN_cases in H as (i & s1 & Hs & Hc).
  exists i, s1. split; [exact Hs|].
  split; [exact (MAIN_sample_Ok_inv _ _ _ _ _ _ Hs)|].
  destruct Hc as [(_ & H) | [(_ & H) | [(_ & H) | (_ & ->)]]].
  - exact (MAIN_stg3_upkeep _ _ _ H).
  - exact (MAIN_stg2_upkeep _ _ _ H).
  - exact (MAIN_stg1_upkeep _ _ _ H).
  - apply upkeep_refl.
Qed.

End StageBlocks.

(** ** Whole steps *)

Section Steps.
Variables (sqrt log exp : Q -> Q) (cfg : config).

Lemma MAIN_sample_table istep potE s i s1 :
  MAIN_sample cfg istep potE s = Ok (i, s1) ->
  i = Yval_index cfg potE /\
  exists sa sy : state,
    Y2 sa = Y2 s /\ df sa = df s /\ T1 sa = T1 s /\ T2 sa = T2 s /\
    Yval cfg potE sa = Ok (i, sy) /\ Y2 s1 = Y2 sy.
Proof.
  unfold MAIN_sample. cbn [STG set_totCi set_Count].
  set (sa := if 3 <=? STG s then _ else _).
  assert (Ea : Y2 sa = Y2 s /\ df sa = df s /\ T1 sa = T1 s /\ T2 sa = T2 s /\
               STG sa = STG s)
    by (subst sa; destruct (3 <=? STG s); repeat split; reflexivity).
  destruct Ea as (EY & Ed & E1 & E2 & ES).
  intros H.
  apply bind_Ok_inv in H as ([j sy] & HY & H).
  apply bind_Ok_inv in H as (s2 & HG & H).
  apply bind_Ok_inv in H as (s3 & HA & H).
  apply bind_Ok_inv in H as (s4 & HP & H).
  apply bind_Ok_inv in H as (o & _ & H).
  injection H as <- <-.
  split; [apply Yval_Ok_inv in HY; apply HY|].
  exists sa, sy. repeat split; try assumption.
  apply GammaE_Ok_inv in HG as (t & ->).
  apply AddedEHis_Ok_inv in HA as (_ & h & h' & _ & _ & ->).
  clearbody sa.
  destruct (3 <=? STG _).
  - apply bind_Ok_inv in HP as (P & _ & HP). injection HP as <-. reflexivity.
  - injection HP as <-. reflexivity.
Qed.

Lemma MAIN_stg3_frequency istep s s' :
  MAIN_stg3 sqrt log cfg istep s = Ok s' -> 3 <= STG s -> TSC2 cfg <> 0.
Proof.
  unfold MAIN_stg3. intros H H3.
  destruct (Z.leb_spec 3 (STG s)); [|lia].
  apply bind_Ok_inv in H as (m & Hm & _).
  now apply c_rem_Ok_inv in Hm.
Qed.

Lemma MAIN_stg2_frequency istep s s' :
  MAIN_stg2 sqrt log exp cfg istep s = Ok s' -> STG s = 2 -> TSC2 cfg <> 0.
Proof.
  unfold MAIN_stg2. intros H H2.
  destruct (Z.eqb_spec (STG s) 2); [|lia].
  apply bind_Ok_inv in H as (m & Hm & _).
  now apply c_rem_Ok_inv in Hm.
Qed.

Lemma MAIN_stg1_frequency istep s s' :
  MAIN_stg1 cfg istep s = Ok s' -> STG s = 1 -> TSC1 cfg <> 0.
Proof.
  unfold MAIN_stg1. intros H H1.
  destruct (Z.eqb_spec (STG s) 1); [|lia].
  apply bind_Ok_inv in H as (m & Hm & _).
  now apply c_rem_Ok_inv in Hm.
Qed.

End Steps.

(** X3.  The stage never goes back and rises by at most one per step: a
    step that starts in a stage between 1 and 4 ends in the same stage or
    in the next one, never beyond stage 4.  The stage rises only on a
    maintenance step: a multiple of [TSC1] in stage 1, of [TSC2] in the
    later stages. *)
Theorem MAIN_stage_progress (sqrt log exp : Q -> Q) (cfg : config)
    (istep : Z) (potE : Q) (s s' : state) :
  1 <= STG s <= 4 ->
  MAIN sqrt log exp cfg istep potE s = Ok s' ->
  STG s <= STG s' <= 4 /\ STG s' <= STG s + 1 /\
  (STG s' <> STG s ->
   (STG s = 1 /\ Z.rem istep (TSC1 cfg) = 0) \/
   (2 <= STG s /\ Z.rem istep (TSC2 cfg) = 0)).
Proof.
  intros HS H. apply MAIN_cases in H as (i & s1 & Hs & Hc).
  apply MAIN_sample_Ok_inv in Hs.
  assert (E1 : STG s1 = STG s) by apply Hs.
  destruct Hc as [(G & H) | [(E & H) | [(E & H) | (L & ->)]]].
  - pose proof (uk_STG _ _ (MAIN_stg3_upkeep _ _ _ _ _ _ H)) as U.
    split; [lia|]. split; [lia|]. intros N.
    apply MAIN_stg3_cases in H as [(_ & ->) | (_ & _ & Hm & _)];
      [congruence|].
    right. split; [lia | exact Hm].
  - pose proof (uk_STG _ _ (MAIN_stg2_upkeep _ _ _ _ _ _ _ H)) as U.
    split; [lia|]. split; [lia|]. intros N.
    apply MAIN_stg2_cases in H as [(_ & ->) | (_ & _ & Hm & _)];
      [congruence|].
    right. split; [lia | exact Hm].
  - pose proof (uk_STG _ _ (MAIN_stg1_upkeep _ _ _ _ H)) as U.
    split; [lia|]. split; [lia|]. intros N.
    apply MAIN_stg1_cases in H as [(_ & ->) | (_ & _ & Hm & _)];
      [congruence|].
    left. split; [lia | exact Hm].
  - lia.
Qed.

Lemma MAIN_stage_progress_witness :
  STG st5_learn <= STG st5_learn_next <= 4 /\
  STG st5_learn_next <= STG st5_learn + 1 /\
  (STG st5_learn_next <> STG st5_learn ->
   (STG st5_learn = 1 /\ Z.rem 10 (TSC1 cfg5_df) = 0) \/
   (2 <= STG st5_learn /\ Z.rem 10 (TSC2 cfg5_df) = 0)).
Proof.
  apply (MAIN_stage_progress sqrt_q log_q exp_q cfg5_df 10 2).
  - vm_compute. split; discriminate.
  - vm_compute. reflexivity.
Defined.

(** X4.  What every completed step does to the members that the schedule
    never writes: the cut-offs [T1], [T2], [CTmin], [CTmax] and the
    f-tolerances are kept, [Count] is the step number, [totCi] goes up by
    one, [curbin] is the sampled bin, and the cumulative histogram [Htot]
    goes up by one in that bin and is never cleared. *)
Theorem MAIN_keeps_thresholds (sqrt log exp : Q -> Q) (cfg : config)
    (istep : Z) (potE : Q) (s s' : state) :
  MAIN sqrt log exp cfg istep potE s = Ok s' ->
  T1 s' = T1 s /\ T2 s' = T2 s /\ CTmin s' = CTmin s /\ CTmax s' = CTmax s /\
  pfinFval s' = pfinFval s /\ finFval s' = finFval s /\
  Count s' = istep /\ totCi s' = totCi s + 1 /\
  curbin s' = Yval_index cfg potE /\ 1 <= curbin s' <= Nbin cfg - 1 /\
  exists h : Z,
    Htot s !! Z.to_nat (curbin s') = Some h /\
    Htot s' = <[Z.to_nat (curbin s') := h + 1]> (Htot s).
Proof.
  intros H. apply MAIN_upkeep in H as (i & s1 & Hs & S & U).
  apply MAIN_sample_table in Hs as (Ei & _).
  assert (Ec : curbin s' = i)
    by (rewrite (uk_curbin _ _ U); apply S).
  pose proof (smp_index _ _ _ _ _ S) as Hi.
  repeat split.
  - rewrite (uk_T1 _ _ U). apply S.
  - rewrite (uk_T2 _ _ U). apply S.
  - rewrite (uk_CTmin _ _ U). apply S.
  - rewrite (uk_CTmax _ _ U). apply S.
  - rewrite (uk_pfinFval _ _ U). apply S.
  - rewrite (uk_finFval _ _ U). apply S.
  - rewrite (uk_Count _ _ U). apply S.
  - rewrite (uk_totCi _ _ U). apply S.
  - congruence.
  - lia.
  - lia.
  - rewrite Ec, (uk_Htot _ _ U). apply S.
Qed.

Lemma MAIN_keeps_thresholds_witness :
  T1 st5_learn_next = T1 st5_learn /\ T2 st5_learn_next = T2 st5_learn /\
  CTmin st5_learn_next = CTmin st5_learn /\
  CTmax st5_learn_next = CTmax st5_learn /\
  pfinFval st5_learn_next = pfinFval st5_learn /\
  finFval st5_learn_next = finFval st5_learn /\
  Count st5_learn_next = 10 /\ totCi st5_learn_next = totCi st5_learn + 1 /\
  curbin st5_learn_next = Yval_index cfg5_df 2 /\
  1 <= curbin st5_learn_next <= Nbin cfg5_df - 1 /\
  exists h : Z,
    Htot st5_learn !! Z.to_nat (curbin st5_learn_next) = Some h /\
    Htot st5_learn_next
    = <[Z.to_nat (curbin st5_learn_next) := h + 1]> (Htot st5_learn).
Proof.
  apply (MAIN_keeps_thresholds sqrt_q log_q exp_q cfg5_df 10 2).
  vm_compute. reflexivity.
Defined.

(** X5.  Outside stages 2 and 3 no step changes [f], whatever the scheme
    and the step number; in stage 1 no step changes [df] either. *)
Theorem MAIN_f_frozen (sqrt log exp : Q -> Q) (cfg : config)
    (istep : Z) (potE : Q) (s s' : state) :
  MAIN sqrt log exp cfg istep potE s = Ok s' ->
  (STG s <> 2 -> STG s <> 3 -> f s' = f s) /\
  (STG s < 2 -> df s' = df s).
Proof.
  intros H. apply MAIN_upkeep in H as (i & s1 & Hs & S & U).
  assert (E1 : STG s1 = STG s) by apply S.
  split.
  - intros N2 N3. rewrite (uk_f _ _ U) by congruence. apply S.
  - intros L. rewrite (uk_df _ _ U) by congruence. apply S.
Qed.

Lemma MAIN_f_frozen_witness :
  f st5_fresh_next = f (init_fresh log_q exp_q cfg5_fresh) /\
  df st5_fresh_next = df (init_fresh log_q exp_q cfg5_fresh).
Proof.
  destruct (MAIN_f_frozen sqrt_q log_q exp_q cfg5_fresh 1 2
              (init_fresh log_q exp_q cfg5_fresh) st5_fresh_next) as [A B].
  - vm_compute. reflexivity.
  - split; [apply A; vm_compute; discriminate | apply B; reflexivity].
Defined.

(** X6.  A step completes only with nonzero frequencies: [RSTFRQ] in
    every stage, [TSC1] in stage 1 and [TSC2] from stage 2 on.  With a
    zero frequency the remainder [istep % 0] is undefined behaviour; the
    constructor accepts such a command. *)
Theorem MAIN_needs_nonzero_frequencies (sqrt log exp : Q -> Q)
    (cfg : config) (istep : Z) (potE : Q) (s s' : state) :
  MAIN sqrt log exp cfg istep potE s = Ok s' ->
  RSTFRQ cfg <> 0 /\ (STG s = 1 -> TSC1 cfg <> 0) /\
  (2 <= STG s -> TSC2 cfg <> 0).
Proof.
  intros H. apply MAIN_cases in H as (i & s1 & Hs & Hc).
  apply MAIN_sample_Ok_inv in Hs.
  assert (E1 : STG s1 = STG s) by apply Hs.
  split; [apply Hs|].
  destruct Hc as [(G & H) | [(E & H) | [(E & H) | (L & ->)]]].
  - split; [lia|]. intros _.
    apply (MAIN_stg3_frequency _ _ _ _ _ _ H). lia.
  - split; [lia|]. intros _.
    apply (MAIN_stg2_frequency _ _ _ _ _ _ _ H). lia.
  - split; [|lia]. intros _.
    apply (MAIN_stg1_frequency _ _ _ _ H). lia.
  - split; lia.
Qed.

Lemma MAIN_needs_nonzero_frequencies_witness :
  RSTFRQ cfg5_df <> 0 /\ (STG st5_learn = 1 -> TSC1 cfg5_df <> 0) /\
  (2 <= STG st5_learn -> TSC2 cfg5_df <> 0).
Proof.
  apply (MAIN_needs_nonzero_frequencies sqrt_q log_q exp_q cfg5_df 10 2
           st5_learn st5_learn_next).
  vm_compute. reflexivity.
Defined.

(** ** The temperature table over a step *)

Section Table.
Variables (sqrt log exp : Q -> Q) (cfg : config).

Lemma MAIN_table istep potE s s' :
  MAIN sqrt log exp cfg istep potE s = Ok s' ->
  exists (sa sy : state) (i : Z),
    Y2 sa = Y2 s /\ df sa = df s /\ T1 sa = T1 s /\ T2 sa = T2 s /\
    Yval cfg potE sa = Ok (i, sy) /\
    T1 s' = T1 s /\ T2 s' = T2 s /\
    (Y2 s' = Y2 sy \/
     exists (j : nat) (k : Q),
       Y2 sy !! j = Some k /\ Y2 s' = dig_fill k j (Y2 sy)).
Proof.
  intros H. pose proof (MAIN_cases _ _ _ _ _ _ _ _ H) as (i & s1 & Hs & Hc).
  apply MAIN_upkeep in H as (i' & s1' & Hs' & S & U).
  rewrite Hs in Hs'. injection Hs' as <- <-.
  apply MAIN_sample_table in Hs as (_ & sa & sy & EY & Ed & E1 & E2 & HY & E).
  exists sa, sy, i. repeat split; try assumption.
  - rewrite (uk_T1 _ _ U). apply S.
  - rewrite (uk_T2 _ _ U). apply S.
  - assert (ES : STG s1 = STG s) by apply S.
    destruct Hc as [(G & H) | [(E' & H) | [(E' & H) | (L & ->)]]].
    + left. rewrite (uk_Y2 _ _ U) by lia. exact E.
    + left. rewrite (uk_Y2 _ _ U) by lia. exact E.
    + apply MAIN_stg1_cases in H
        as [(_ & ->) | (_ & _ & _ & j & k & Ej & _ & _ & ->)];
        [left; exact E|].
      right. exists j, k. rewrite <- E. split; [exact Ej|].
      unfold reset_window, ResetPH. destruct (Qeq_bool _ _); reflexivity.
    + left. exact E.
Qed.

End Table.

(** The update keeps the table inside the cut-offs when the two
    denominators stay positive on it. *)
Lemma Yval_keeps_in_range (cfg : config) (potE : Q) (s : state) (i : Z)
    (s' : state) :
  in_range s -> (0 <= df s)%Q -> (df s * T2 s < 1)%Q ->
  (-1 < df s * T1 s)%Q ->
  Yval cfg potE s = Ok (i, s') ->
  in_range s' /\ T1 s' = T1 s /\ T2 s' = T2 s.
Proof.
  intros R Hd Hhi Hlo H.
  apply Yval_Ok_inv in H as (_ & _ & yhi & ylo & Ehi & Elo & ->).
  unfold in_range in *. cbn [Y2 T1 T2 set_Y2 set_curbin].
  pose proof (Forall_lookup_1 _ _ _ _ R Ehi) as Rhi.
  pose proof (Forall_lookup_1 _ _ _ _ R Elo) as Rlo.
  assert (Nhi : ~ (1 - df s * yhi == 0)%Q)
    by (intros E; destruct Rhi; nra).
  assert (Nlo : ~ (1 + df s * ylo == 0)%Q)
    by (intros E; destruct Rlo; nra).
  rewrite (raised_finite _ _ _ Nhi), (lowered_finite _ _ _ Nlo).
  destruct (update_up_in_range _ _ _ _ Hd Hhi Rhi) as [Ur _].
  destruct (update_down_in_range _ _ _ _ Hd (or_intror Hlo) Rlo) as [Dr _].
  split; [|split; reflexivity].
  apply Forall_insert; [apply Forall_insert; [exact R|]|]; assumption.
Qed.

(** X7.  A step keeps the temperature table inside the cut-offs: when every
    bin lies in [[T1, T2]] and the learning rate has [0 <= df],
    [df * T2 < 1] and [-1 < df * T1] (the last holds whenever
    [T1 >= 0]), so that the two denominators of the update are positive
    on the table, every bin lies in [[T1, T2]] after the step, through the
    update of the two neighbours of the sampled bin and through [dig];
    the cut-offs are kept. *)
Theorem MAIN_keeps_table_in_range (sqrt log exp : Q -> Q) (cfg : config)
    (istep : Z) (potE : Q) (s s' : state) :
  in_range s ->
  (0 <= df s)%Q -> (df s * T2 s < 1)%Q -> (-1 < df s * T1 s)%Q ->
  MAIN sqrt log exp cfg istep potE s = Ok s' ->
  in_range s' /\ T1 s' = T1 s /\ T2 s' = T2 s.
Proof.
  intros Hr Hd Hhi Hlo H.
  apply MAIN_table in H
    as (sa & sy & i & EY & Ed & E1 & E2 & HY & F1 & F2 & Hc).
  assert (Ha : in_range sa) by (unfold in_range; rewrite EY, E1, E2; exact Hr).
  destruct (Yval_keeps_in_range cfg potE sa i sy Ha) as (Hy & G1 & G2);
    rewrite ?Ed, ?E1, ?E2; try assumption.
  unfold in_range in *.
  rewrite F1, F2. rewrite G1, E1, G2, E2 in Hy.
  destruct Hc as [-> | (j & k & Ej & ->)].
  - auto.
  - repeat split; try reflexivity.
    apply dig_fill_Forall; [exact Hy|].
    exact (Forall_lookup_1 _ _ _ _ Hy Ej).
Qed.

Lemma MAIN_keeps_table_in_range_witness :
  in_range st5_fresh_next /\
  T1 st5_fresh_next = T1 (init_fresh log_q exp_q cfg5_fresh) /\
  T2 st5_fresh_next = T2 (init_fresh log_q exp_q cfg5_fresh).
Proof.
  apply (MAIN_keeps_table_in_range sqrt_q log_q exp_q cfg5_fresh 1 2).
  - unfold in_range. vm_compute. repeat constructor; discriminate.
  - vm_compute. discriminate.
  - reflexivity.
  - reflexivity.
  - vm_compute. reflexivity.
Defined.

(** ** The counters and the histograms *)

Lemma hist_total_replicate (n : nat) : hist_total (replicate n 0) = 0.
Proof. induction n as [|n IH]; [reflexivity|]. cbn. exact IH. Qed.

Lemma hist_total_insert (l : list Z) (i : nat) (h v : Z) :
  l !! i = Some h -> hist_total (<[i := v]> l) = hist_total l - h + v.
Proof.
  revert i. induction l as [|x l IH]; intros [|i] Hi; try discriminate.
  - injection Hi as ->.
    change (<[0%nat := v]> (h :: l)) with (v :: l).
    change (hist_total (v :: l)) with (v + hist_total l).
    change (hist_total (h :: l)) with (h + hist_total l). lia.
  - change (<[S i := v]> (x :: l)) with (x :: <[i := v]> l).
    change (hist_total (x :: <[i := v]> l))
      with (x + hist_total (<[i := v]> l)).
    change (hist_total (x :: l)) with (x + hist_total l).
    rewrite (IH i Hi). lia.
Qed.

Lemma Forall_nonneg_replicate (n : nat) :
  Forall (fun h => 0 <= h) (replicate n 0).
Proof. apply Forall_replicate. lia. Qed.

Lemma Forall_nonneg_incr (l : list Z) (i : nat) (h : Z) :
  Forall (fun h => 0 <= h) l -> l !! i = Some h ->
  Forall (fun h => 0 <= h) (<[i := h + 1]> l).
Proof.
  intros Hl Hi. apply Forall_insert; [exact Hl|].
  pose proof (Forall_lookup_1 _ _ _ _ Hl Hi). cbn in *. lia.
Qed.

Lemma sampled_accounted (cfg : config) (istep : Z) (s : state) (i : Z)
    (s1 : state) :
  sampled cfg istep s i s1 -> accounted s -> accounted s1.
Proof.
  intros S A.
  destruct (smp_Hist _ _ _ _ _ S) as (h & Eh & EH).
  destruct (smp_Htot _ _ _ _ _ S) as (t & Et & ET).
  pose proof (smp_PROH _ _ _ _ _ S) as HP.
  pose proof (smp_CountPH _ _ _ _ _ S) as HC.
  pose proof (ac_STG _ A). pose proof (ac_PROH _ A).
  constructor.
  - rewrite (smp_STG _ _ _ _ _ S). assumption.
  - rewrite ET, (hist_total_insert _ _ _ _ Et), (smp_totCi _ _ _ _ _ S),
      (ac_Htot _ A). lia.
  - rewrite EH, (hist_total_insert _ _ _ _ Eh), (smp_CountH _ _ _ _ _ S),
      (ac_Hist _ A). lia.
  - rewrite HC. destruct (3 <=? STG s).
    + destruct HP as (p & Ep & ->).
      rewrite (hist_total_insert _ _ _ _ Ep). lia.
    + rewrite HP. assumption.
  - rewrite (smp_STG _ _ _ _ _ S). intros L.
    destruct (Z.leb_spec 3 (STG s)); [lia|].
    rewrite HP. exact (ac_learning _ A L).
  - rewrite EH. exact (Forall_nonneg_incr _ _ _ (ac_Hist_nonneg _ A) Eh).
  - rewrite ET. exact (Forall_nonneg_incr _ _ _ (ac_Htot_nonneg _ A) Et).
  - destruct (3 <=? STG s).
    + destruct HP as (p & Ep & ->).
      exact (Forall_nonneg_incr _ _ _ (ac_PROH_nonneg _ A) Ep).
    + rewrite HP. exact (ac_PROH_nonneg _ A).
Qed.

Lemma upkeep_accounted (s1 s' : state) :
  upkeep s1 s' -> accounted s1 -> accounted s'.
Proof.
  intros U A.
  pose proof (ac_STG _ A). pose proof (ac_PROH _ A).
  pose proof (uk_STG _ _ U) as HS.
  constructor.
  - lia.
  - rewrite (uk_Htot _ _ U), (uk_totCi _ _ U). exact (ac_Htot _ A).
  - destruct (uk_window _ _ U) as [(-> & ->) | (-> & ->)].
    + exact (ac_Hist _ A).
    + apply hist_total_replicate.
  - rewrite (uk_PROH _ _ U).
    destruct (uk_CountPH _ _ U) as [-> | (E2 & ->)]; [assumption|].
    rewrite (ac_learning _ A) by lia. reflexivity.
  - intros L. rewrite (uk_PROH _ _ U). apply (ac_learning _ A). lia.
  - destruct (uk_window _ _ U) as [(-> & _) | (-> & _)].
    + exact (ac_Hist_nonneg _ A).
    + apply Forall_nonneg_replicate.
  - rewrite (uk_Htot _ _ U). exact (ac_Htot_nonneg _ A).
  - rewrite (uk_PROH _ _ U). exact (ac_PROH_nonneg _ A).
Qed.

Lemma MAIN_accounted (sqrt log exp : Q -> Q) (cfg : config)
    (istep : Z) (potE : Q) (s s' : state) :
  MAIN sqrt log exp cfg istep potE s = Ok s' -> accounted s -> accounted s'.
Proof.
  intros H A. apply MAIN_upkeep in H as (i & s1 & _ & S & U).
  exact (upkeep_accounted _ _ U (sampled_accounted _ _ _ _ _ S A)).
Qed.

Lemma init_fresh_accounted (log exp : Q -> Q) (cfg : config) :
  accounted (init_fresh log exp cfg).
Proof.
  constructor; cbn; rewrite ?hist_total_replicate;
    try apply Forall_nonneg_replicate; intros; lia.
Qed.

(** X8.  In a run started without a restart file the counters agree with
    the histograms at every step: the stage lies between 1 and 4, [totCi]
    is the total of [Htot], [CountH] is the total of the window histogram
    [Hist], [CountPH] is twice the total of [PROH], [PROH] is empty before
    stage 3, and no count is negative. *)
Theorem fresh_run_accounted (sqrt log exp : Q -> Q) (cfg : config)
    (s : state) :
  OREST cfg = false -> reachable sqrt log exp cfg s -> accounted s.
Proof.
  intros HO HR. induction HR as [file s Hi | s istep potE s' _ IH HM].
  - unfold init in Hi. rewrite HO in Hi. injection Hi as <-.
    apply init_fresh_accounted.
  - exact (MAIN_accounted _ _ _ _ _ _ _ _ HM IH).
Qed.

Lemma fresh_run_accounted_witness : accounted st5_fresh_next.
Proof.
  apply (fresh_run_accounted sqrt_q log_q exp_q cfg5_fresh).
  - reflexivity.
  - apply (reach_MAIN _ _ _ _ (init_fresh log_q exp_q cfg5_fresh) 1 2).
    + apply (reach_init _ _ _ _ None). reflexivity.
    + vm_compute. reflexivity.
Defined.

(** ** Digging *)

(** X9.  [dig] is idempotent: on the table that it leaves, a second call
    changes nothing. *)
Theorem dig_idempotent (s s' : state) : dig s = Ok s' -> dig s' = Ok s'.
Proof.
  intros H. apply dig_Ok_inv in H as (j & k & Ej & HF & Hlast & ->).
  set (Y' := dig_fill k j (Y2 s)).
  assert (Hj : (j < length (Y2 s))%nat) by (apply lookup_lt_Some in Ej; lia).
  assert (Ej' : Y' !! j = Some k)
    by (unfold Y'; rewrite dig_fill_lookup_ge by lia; exact Ej).
  assert (E0 : Y' !! 0%nat = Some k) by (apply dig_fill_head; exact Ej).
  unfold dig. cbn [Y2 set_Y2]. fold Y'.
  rewrite (rd_Ok _ 0 k) by (try lia; exact E0).
  cbv beta iota delta [bind].
  pose proof (dig_scan_spec Y' 0 k 0) as Hs.
  destruct (dig_scan Y' 0 k 0) as [k2 n2].
  destruct Hs as (Hle & HF2 & [(_ & _ & Hgt) | (j2 & Ej2 & -> & Hlast2)]).
  { exfalso. apply (Qlt_irrefl k). exact (Forall_lookup_1 _ _ _ _ Hgt E0). }
  cbn [Nat.add].
  assert (Ejj : j2 = j).
  { destruct (Nat.lt_trichotomy j2 j) as [L | [E | G]]; [|exact E|].
    - exfalso. unfold Y' in Ej2.
      rewrite dig_fill_lookup_lt in Ej2 by lia. injection Ej2 as <-.
      apply (Qlt_irrefl k). exact (Hlast2 j k L Ej').
    - exfalso. unfold Y' in Ej2. rewrite dig_fill_lookup_ge in Ej2 by lia.
      pose proof (Hlast j2 k2 G Ej2) as Hlt.
      apply (Qlt_irrefl k). apply (Qlt_le_trans _ k2); assumption. }
  subst j2. rewrite Ej' in Ej2. injection Ej2 as <-.
  f_equal.
  assert (EY : dig_fill k j Y' = Y').
  { apply list_eq. intros i. destruct (Nat.lt_ge_cases i j) as [L | G].
    - rewrite dig_fill_lookup_lt
        by (try lia; unfold Y'; rewrite dig_fill_length; lia).
      unfold Y'. rewrite dig_fill_lookup_lt by lia. reflexivity.
    - apply dig_fill_lookup_ge. exact G. }
  rewrite EY. reflexivity.
Qed.

Lemma dig_idempotent_witness :
  dig (set_Y2 [1; 1; 1; 1; 5]%Q st5) = Ok (set_Y2 [1; 1; 1; 1; 5]%Q st5).
Proof.
  apply (dig_idempotent (set_Y2 [2; 1; 3; 1; 5]%Q st5)). reflexivity.
Defined.

(** X10.  Leaving stage 1.  On a multiple of [TSC1] a stage-1 step digs the
    updated table, whose first bin then holds the minimum of the table,
    and moves to stage 2 exactly when that minimum equals [T1]; the window
    is cleared on promotion and keeps the sample of the step otherwise. *)
Theorem MAIN_stage1_promotion (sqrt log exp : Q -> Q) (cfg : config)
    (istep : Z) (potE : Q) (s s' : state) :
  STG s = 1 -> Z.rem istep (TSC1 cfg) = 0 ->
  MAIN sqrt log exp cfg istep potE s = Ok s' ->
  exists ymin : Q,
    Y2 s' !! 0%nat = Some ymin /\
    Forall (fun z => (ymin <= z)%Q) (Y2 s') /\
    (((ymin == T1 s)%Q /\ STG s' = 2 /\ CountH s' = 0 /\
      Hist s' = replicate (length (Hist s)) 0) \/
     (~ (ymin == T1 s)%Q /\ STG s' = 1 /\ CountH s' = CountH s + 1)).
Proof.
  intros E1 Hm H. apply MAIN_cases in H as (i & s1 & Hs & Hc).
  apply MAIN_sample_Ok_inv in Hs.
  assert (ES : STG s1 = STG s) by apply Hs.
  assert (ET : T1 s1 = T1 s) by apply Hs.
  assert (EC : CountH s1 = CountH s + 1) by apply Hs.
  assert (EL : length (Hist s1) = length (Hist s)).
  { destruct (smp_Hist _ _ _ _ _ Hs) as (h & _ & ->).
    apply length_insert. }
  destruct Hc as [(G & H) | [(E & H) | [(_ & H) | (L & ->)]]]; try lia.
  apply MAIN_stg1_cases in H
    as [([N | N] & _) | (_ & _ & _ & j & k & Ej & HF & _ & ->)];
    try congruence.
  exists k.
  assert (E0 : dig_fill k j (Y2 s1) !! 0%nat = Some k)
    by (apply dig_fill_head; exact Ej).
  assert (HF' : Forall (fun z => (k <= z)%Q) (dig_fill k j (Y2 s1)))
    by (apply dig_fill_Forall; [exact HF | apply Qle_refl]).
  rewrite ET. unfold reset_window, ResetPH.
  destruct (Qeq_bool k (T1 s)) eqn:Ek;
    cbn [Y2 Hist STG CountH set_Y2 set_STG set_Hist set_CountH];
    (split; [exact E0|]); (split; [exact HF'|]).
  - apply Qeq_bool_iff in Ek. left. rewrite EL. repeat split. exact Ek.
  - right. split; [|split; [lia | exact EC]].
    intros Hk. apply Qeq_bool_iff in Hk. congruence.
Qed.

Lemma MAIN_stage1_promotion_witness :
  exists (s' : state) (ymin : Q),
    MAIN sqrt_q log_q exp_q cfg5_fresh 10 2
      (init_fresh log_q exp_q cfg5_fresh) = Ok s' /\
    Y2 s' !! 0%nat = Some ymin /\
    Forall (fun z => (ymin <= z)%Q) (Y2 s') /\
    (((ymin == T1 (init_fresh log_q exp_q cfg5_fresh))%Q /\ STG s' = 2 /\
      CountH s' = 0 /\
      Hist s' = replicate
                  (length (Hist (init_fresh log_q exp_q cfg5_fresh))) 0) \/
     (~ (ymin == T1 (init_fresh log_q exp_q cfg5_fresh))%Q /\ STG s' = 1 /\
      CountH s' = CountH (init_fresh log_q exp_q cfg5_fresh) + 1)).
Proof.
  assert (E : exists s', MAIN sqrt_q log_q exp_q cfg5_fresh 10 2
                           (init_fresh log_q exp_q cfg5_fresh) = Ok s')
    by (eexists; vm_compute; reflexivity).
  destruct E as [s' E]. exists s'.
  destruct (MAIN_stage1_promotion sqrt_q log_q exp_q cfg5_fresh 10 2
              (init_fresh log_q exp_q cfg5_fresh) s' eq_refl eq_refl E)
    as (ymin & H).
  exists ymin. split; [exact E | exact H].
Defined.

(** X11.  Entering stage 4.  On a multiple of [TSC2] a stage-3 step ends in
    stage 4 exactly when the f-value that it leaves is at most [finFval],
    under every reduction scheme; otherwise it stays in stage 3. *)
Theorem MAIN_stage3_promotion (sqrt log exp : Q -> Q) (cfg : config)
    (istep : Z) (potE : Q) (s s' : state) :
  STG s = 3 -> Z.rem istep (TSC2 cfg) = 0 ->
  MAIN sqrt log exp cfg istep potE s = Ok s' ->
  (STG s' = 4 <-> (f s' <= finFval s')%Q) /\ (STG s' = 3 \/ STG s' = 4).
Proof.
  intros E3 Hm H. apply MAIN_cases in H as (i & s1 & Hs & Hc).
  apply MAIN_sample_Ok_inv in Hs.
  assert (ES : STG s1 = STG s) by apply Hs.
  destruct Hc as [(_ & H) | [(E & H) | [(E & H) | (L & ->)]]]; try lia.
  apply MAIN_stg3_cases in H
    as [([N | N] & _) | (_ & _ & _ & s2 & Hs2 & ->)]; try lia.
  assert (E2 : STG s2 = 3).
  { rewrite <- E3, <- ES.
    destruct Hs2 as [(_ & ->) | [(_ & ->) | (_ & ->)]].
    - apply stg3_hchk_df.
    - apply stg3_unconditional_df.
    - reflexivity. }
  destruct (Qle_bool (f s2) (finFval s2)) eqn:Ef; cbn [STG f finFval set_STG].
  - apply Qle_bool_iff in Ef. split; [tauto | auto].
  - apply Qle_bool_false in Ef. split; [|auto].
    split; [lia|]. intros Hle. exfalso. apply (Qlt_not_le _ _ Ef Hle).
Qed.

Lemma MAIN_stage3_promotion_witness :
  exists s' : state,
    MAIN sqrt_q log_q exp_q cfg5 20 2 st5_production = Ok s' /\
    (STG s' = 4 <-> (f s' <= finFval s')%Q) /\ (STG s' = 3 \/ STG s' = 4).
Proof.
  assert (E : exists s', MAIN sqrt_q log_q exp_q cfg5 20 2 st5_production
                         = Ok s')
    by (eexists; vm_compute; reflexivity).
  destruct E as [s' E]. exists s'. split; [exact E|].
  exact (MAIN_stage3_promotion sqrt_q log_q exp_q cfg5 20 2 st5_production s'
           eq_refl eq_refl E).
Defined.

(** X12.  The f-value stays above one.  A stage-2 step on a multiple of
    [TSC2] that completes leaves [f > 1]; when the schedule brings [f] to
    one or below, the step is the error "f-value is less than unity" and
    not a state. *)
Theorem MAIN_stage2_f_above_one (sqrt log exp : Q -> Q) (cfg : config)
    (istep : Z) (potE : Q) (s s' : state) :
  STG s = 2 -> Z.rem istep (TSC2 cfg) = 0 ->
  MAIN sqrt log exp cfg istep potE s = Ok s' -> (1 < f s')%Q.
Proof.
  intros E2 Hm H. apply MAIN_cases in H as (i & s1 & Hs & Hc).
  apply MAIN_sample_Ok_inv in Hs.
  assert (ES : STG s1 = STG s) by apply Hs.
  destruct Hc as [(G & H) | [(_ & H) | [(E & H) | (L & ->)]]]; try lia.
  apply MAIN_stg2_cases in H
    as [([N | N] & _) | (_ & _ & _ & s2 & _ & Ef & ->)]; try lia.
  apply Qle_bool_false in Ef.
  destruct (_ && _); exact Ef.
Qed.

Lemma MAIN_stage2_f_above_one_witness : (1 < f st5_learn_next)%Q.
Proof.
  apply (MAIN_stage2_f_above_one sqrt_q log_q exp_q cfg5_df 10 2 st5_learn);
    reflexivity.
Defined.

(** ** The direction of the temperature update *)

Lemma update_up_raises (d y t2 : Q) :
  (0 <= d -> d * t2 < 1 -> y <= t2 -> y <= Qmin (y / (1 - d * y)) t2)%Q.
Proof.
  intros Hd Ht Hy.
  assert (Hdy : (d * y <= d * t2)%Q).
  { rewrite (Qmult_comm d y), (Qmult_comm d t2).
    apply Qmult_le_compat_r; assumption. }
  assert (Hc : (0 < 1 - d * y)%Q) by lra.
  apply Q.min_glb; [|exact Hy].
  apply Qle_shift_div_l; [exact Hc|].
  assert (Hsq : (0 <= d * (y * y))%Q).
  { apply Qmult_le_0_compat; [exact Hd|].
    destruct (Qlt_le_dec y 0) as [Hn | Hp].
    - assert (E : (y * y == (- y) * (- y))%Q) by ring. rewrite E.
      apply Qmult_le_0_compat; lra.
    - apply Qmult_le_0_compat; assumption. }
  assert (E : (y * (1 - d * y) == y - d * (y * y))%Q) by ring.
  rewrite E. lra.
Qed.

Lemma update_down_lowers (d y t1 : Q) :
  (0 <= d -> 0 < 1 + d * y -> t1 <= y -> Qmax (y / (1 + d * y)) t1 <= y)%Q.
Proof.
  intros Hd Hc Hy.
  apply Q.max_lub; [|exact Hy].
  apply Qle_shift_div_r; [exact Hc|].
  assert (Hsq : (0 <= d * (y * y))%Q).
  { apply Qmult_le_0_compat; [exact Hd|].
    destruct (Qlt_le_dec y 0) as [Hn | Hp].
    - assert (E : (y * y == (- y) * (- y))%Q) by ring. rewrite E.
      apply Qmult_le_0_compat; lra.
    - apply Qmult_le_0_compat; assumption. }
  assert (E : (y * (1 + d * y) == y + d * (y * y))%Q) by ring.
  rewrite E. lra.
Qed.

(** X13.  The update moves the two neighbours of the sampled bin apart: on
    a table inside the cut-offs and with a learning rate that has
    [0 <= df], [df * T2 < 1] and [-1 < df * T1] (the last holds whenever
    [T1 >= 0]), the bin above the sampled one never decreases and the bin
    below it never increases. *)
Theorem Yval_moves_neighbours_apart (cfg : config) (potE : Q) (i : Z)
    (s s' : state) :
  in_range s ->
  (0 <= df s)%Q -> (df s * T2 s < 1)%Q -> (-1 < df s * T1 s)%Q ->
  Yval cfg potE s = Ok (i, s') ->
  exists yhi ylo yhi' ylo' : Q,
    Y2 s !! Z.to_nat (i + 1) = Some yhi /\
    Y2 s !! Z.to_nat (i - 1) = Some ylo /\
    Y2 s' !! Z.to_nat (i + 1) = Some yhi' /\
    Y2 s' !! Z.to_nat (i - 1) = Some ylo' /\
    (yhi <= yhi')%Q /\ (ylo' <= ylo)%Q.
Proof.
  intros Hr Hd Ht Hs H.
  apply Yval_Ok_inv in H as (_ & Hi & yhi & ylo & Ehi & Elo & ->).
  pose proof (Forall_lookup_1 _ _ _ _ Hr Ehi) as [Hh1 Hh2].
  pose proof (Forall_lookup_1 _ _ _ _ Hr Elo) as [Hl1 Hl2].
  assert (Hdy : (df s * T1 s <= df s * ylo)%Q).
  { rewrite (Qmult_comm (df s) (T1 s)), (Qmult_comm (df s) ylo).
    apply Qmult_le_compat_r; assumption. }
  assert (Hdh : (df s * yhi <= df s * T2 s)%Q).
  { rewrite (Qmult_comm (df s) yhi), (Qmult_comm (df s) (T2 s)).
    apply Qmult_le_compat_r; assumption. }
  assert (Nhi : ~ (1 - df s * yhi == 0)%Q) by (intros E; lra).
  assert (Nlo : ~ (1 + df s * ylo == 0)%Q) by (intros E; lra).
  exists yhi, ylo, (Qmin (yhi / (1 - df s * yhi)) (T2 s)),
    (Qmax (ylo / (1 + df s * ylo)) (T1 s)).
  cbn [Y2 set_Y2 set_curbin].
  rewrite (raised_finite _ _ _ Nhi), (lowered_finite _ _ _ Nlo).
  split; [exact Ehi|]. split; [exact Elo|]. split; [|split; [|split]].
  - apply list_lookup_insert_eq. rewrite length_insert.
    apply lookup_lt_Some in Ehi. exact Ehi.
  - rewrite list_lookup_insert_ne by lia.
    apply list_lookup_insert_eq. apply lookup_lt_Some in Elo. exact Elo.
  - apply update_up_raises; assumption.
  - apply update_down_lowers; try assumption. lra.
Qed.

Lemma Yval_moves_neighbours_apart_witness :
  exists (s' : state) (yhi ylo yhi' ylo' : Q),
    Yval cfg5 1 (set_Y2 [2; 1; 1; 1; 2]%Q st5) = Ok (2, s') /\
    [2; 1; 1; 1; 2]%Q !! Z.to_nat (2 + 1) = Some yhi /\
    [2; 1; 1; 1; 2]%Q !! Z.to_nat (2 - 1) = Some ylo /\
    Y2 s' !! Z.to_nat (2 + 1) = Some yhi' /\
    Y2 s' !! Z.to_nat (2 - 1) = Some ylo' /\
    (yhi <= yhi')%Q /\ (ylo' <= ylo)%Q.
Proof.
  assert (E : exists s', Yval cfg5 1 (set_Y2 [2; 1; 1; 1; 2]%Q st5)
                         = Ok (2, s'))
    by (eexists; vm_compute; reflexivity).
  destruct E as [s' E]. exists s'.
  destruct (Yval_moves_neighbours_apart cfg5 1 2
              (set_Y2 [2; 1; 1; 1; 2]%Q st5) s')
    as (yhi & ylo & yhi' & ylo' & H).
  - unfold in_range. vm_compute. repeat constructor; discriminate.
  - vm_compute. discriminate.
  - reflexivity.
  - reflexivity.
  - exact E.
  - exists yhi, ylo, yhi', ylo'. split; [exact E | exact H].
Defined.

(** ** A second restart *)

(** A value read from the file is written again with the same digits. *)
Lemma reread_numeral (b : bool) (m : N) :
  reread (numeral_value (Num_f b m)) = numeral_value (Num_f b m).
Proof.
  unfold reread, fmt_f.
  assert (Er : round_half_even
                 (Qabs (numeral_value (Num_f b m)) * inject_Z million) = m).
  { rewrite (round_half_even_integer _ (Z.of_N m)); [apply N2Z.id|].
    destruct b; unfold numeral_value, Qabs, Qopp, Qeq, Qmult, inject_Z, million;
      cbn [Qnum Qden]; lia. }
  rewrite Er. destruct b, m as [|p]; reflexivity.
Qed.

Lemma reread_idempotent (x : Q) : reread (reread x) = reread x.
Proof. unfold reread at 2 3. unfold fmt_f. apply reread_numeral. Qed.

Lemma reread_fmap_idempotent (l : list Q) :
  reread <$> (reread <$> l) = reread <$> l.
Proof.
  rewrite <- list_fmap_compose. apply list_fmap_ext.
  intros i x _. apply reread_idempotent.
Qed.

Section SecondRestart.
Variables (log exp : Q -> Q) (cfg : config).

(** The state that [init] reloads from the file written in state [s]. *)
Lemma write_then_init_state (s : state) :
  OREST cfg = true -> 0 <= Nbin cfg ->
  length (Y2 s) = Z.to_nat (Nbin cfg) ->
  length (Htot s) = Z.to_nat (Nbin cfg) ->
  length (PROH s) = Z.to_nat (Nbin cfg) ->
  init log exp cfg (Some (write_orest s))
  = Ok (mkState (reread <$> Y2 s) (replicate (Z.to_nat (Nbin cfg)) 0)
          (Htot s) (PROH s) (STG s) (reread (f s))
          (df_of log cfg (reread (f s)))
          (reread (T1 s)) (reread (T2 s)) (reread (CTmin s))
          (reread (CTmax s))
          (pfinFval (init_fresh log exp cfg))
          (finFval (init_fresh log exp cfg))
          (Count s) (CountH s) (CountPH s) (totCi s)
          (SWf s) (SWfold s) (SWchk s)
          (curbin (init_fresh log exp cfg)) (Gamma (init_fresh log exp cfg))
          (T (init_fresh log exp cfg))).
Proof.
  intros HO HN LY LH LP. unfold init. rewrite HO.
  rewrite (read_orest_parse log cfg (write_orest s) (init_fresh log exp cfg)
             (inject_Z (STG s)) (reread (f s))
             (reread (of_int (CountH s))) (reread (of_int (SWf s)))
             (reread (of_int (SWfold s))) (reread (of_int (SWchk s)))
             (reread (of_int (Count s))) (reread (of_int (totCi s)))
             (reread (of_int (CountPH s)))
             (reread (T1 s)) (reread (T2 s)) (reread (CTmin s))
             (reread (CTmax s))
             (reread <$> Y2 s)
             ((fun h => reread (of_int h)) <$> Htot s)
             ((fun h => reread (of_int h)) <$> PROH s) HN).
  - rewrite !to_int_reread_fmap, !reread_of_int.
    unfold to_int, inject_Z. cbn [Qnum Qden]. rewrite Z.quot_1_r.
    reflexivity.
  - unfold write_orest. cbn [sz].
    pose proof (write_orest_size s) as Hs.
    rewrite orest_list_length, LY, LH, LP in Hs.
    unfold numb. lia.
  - unfold write_orest. cbn [contents]. apply orest_list_values.
  - now rewrite length_fmap.
  - now rewrite length_fmap.
  - now rewrite length_fmap.
Qed.

End SecondRestart.

(** X14.  The restart round trip is idempotent.  The state that [init]
    reloads from a restart file is a fixed point of writing and
    reloading: written again, it reloads as itself, in every member.  The
    six-decimal rounding of the first round trip is the only loss. *)
Theorem restart_twice (log exp : Q -> Q) (cfg : config) (s s1 : state) :
  OREST cfg = true -> 0 <= Nbin cfg ->
  length (Y2 s) = Z.to_nat (Nbin cfg) ->
  length (Htot s) = Z.to_nat (Nbin cfg) ->
  length (PROH s) = Z.to_nat (Nbin cfg) ->
  init log exp cfg (Some (write_orest s)) = Ok s1 ->
  init log exp cfg (Some (write_orest s1)) = Ok s1.
Proof.
  intros HO HN LY LH LP H.
  rewrite (write_then_init_state log exp cfg s HO HN LY LH LP) in H.
  injection H as <-.
  rewrite write_then_init_state; cbn [Y2 Htot PROH]; try assumption;
    [|now rewrite length_fmap].
  cbn [Y2 Hist Htot PROH STG f df T1 T2 CTmin CTmax Count CountH CountPH
       totCi SWf SWfold SWchk].
  rewrite reread_fmap_idempotent, !reread_idempotent. reflexivity.
Qed.

Lemma restart_twice_witness :
  init log_q exp_q cfg5 (Some (write_orest st5_stage4)) = Ok st5_stage4.
Proof.
  apply (restart_twice log_q exp_q cfg5
           (set_f (1001 # 1000) (set_STG 4 st5_production)));
    try reflexivity.
  vm_compute. discriminate.
Defined.

(** ** What the host sees *)

Section Scale.
Variables (sqrt log exp : Q -> Q) (cfg : config).

Lemma MAIN_sample_scale istep potE s i s1 :
  MAIN_sample cfg istep potE s = Ok (i, s1) ->
  exists sa sy sg : state,
    Y2 sa = Y2 s /\ df sa = df s /\ T1 sa = T1 s /\ T2 sa = T2 s /\
    Yval cfg potE sa = Ok (i, sy) /\ GammaE cfg potE i sy = Ok sg /\
    T s1 = T sg /\ Gamma s1 = Gamma sg.
Proof.
  unfold MAIN_sample. cbn [STG set_totCi set_Count].
  set (sa := if 3 <=? STG s then _ else _).
  assert (Ea : Y2 sa = Y2 s /\ df sa = df s /\ T1 sa = T1 s /\ T2 sa = T2 s)
    by (subst sa; destruct (3 <=? STG s); repeat split; reflexivity).
  destruct Ea as (EY & Ed & E1 & E2).
  intros H.
  apply bind_Ok_inv in H as ([j sy] & HY & H).
  apply bind_Ok_inv in H as (sg & HG & H).
  apply bind_Ok_inv in H as (s3 & HA & H).
  apply bind_Ok_inv in H as (s4 & HP & H).
  apply bind_Ok_inv in H as (o & _ & H).
  injection H as <- <-.
  exists sa, sy, sg. repeat split; try assumption.
  - apply AddedEHis_Ok_inv in HA as (_ & h & h' & _ & _ & ->).
    clearbody sa. destruct (3 <=? STG _).
    + apply bind_Ok_inv in HP as (P & _ & HP). injection HP as <-.
      reflexivity.
    + injection HP as <-. reflexivity.
  - apply AddedEHis_Ok_inv in HA as (_ & h & h' & _ & _ & ->).
    clearbody sa. destruct (3 <=? STG _).
    + apply bind_Ok_inv in HP as (P & _ & HP). injection HP as <-.
      reflexivity.
    + injection HP as <-. reflexivity.
Qed.

End Scale.

(** X15.  The temperature and the force scale of a step lie inside the
    cut-offs.  On a table whose bins lie in [[T1, T2]], with a positive
    bin width, [T1 > 0] and a learning rate with [0 <= df] and
    [df * T2 < 1], a completed step leaves [T] in [[T1, T2]] and the force
    scale [Gamma] in [[1/T2, 1/T1]] with [Gamma * T = 1]; the temperature
    [compute_scalar] reported to the host lies in
    [[T1 * ST, T2 * ST]]. *)
Theorem MAIN_scale_within_cutoffs (sqrt log exp : Q -> Q) (cfg : config)
    (istep : Z) (potE : Q) (s s' : state) :
  (0 < bin cfg)%Q -> (0 < T1 s)%Q -> in_range s ->
  (0 <= df s)%Q -> (df s * T2 s < 1)%Q ->
  MAIN sqrt log exp cfg istep potE s = Ok s' ->
  (T1 s <= T s' <= T2 s)%Q /\
  (1 / T2 s <= Gamma s' <= 1 / T1 s)%Q /\
  (Gamma s' * T s' == 1)%Q /\
  ((0 <= ST cfg)%Q ->
   (T1 s * ST cfg <= compute_scalar cfg s' <= T2 s * ST cfg)%Q).
Proof.
  intros Hb H1 Hr Hd Ht H.
  apply MAIN_upkeep in H as (i & s1 & Hs & _ & U).
  apply MAIN_sample_scale in Hs
    as (sa & sy & sg & EY & Ed & E1 & E2 & HY & HG & ET & EG).
  assert (Ha : in_range sa) by (unfold in_range; rewrite EY, E1, E2; exact Hr).
  assert (Hna : nonneg_table sa).
  { intros _. rewrite EY. unfold in_range in Hr.
    apply (Forall_impl _ _ _ Hr). intros y [Hy _]. lra. }
  assert (Hda : df_small sa).
  { unfold df_small. rewrite Ed, E1, E2. split; [exact Hd|].
    split; [exact Ht|]. right.
    assert (0 <= df s * T1 s)%Q by (apply Qmult_le_0_compat; lra). lra. }
  destruct (Yval_in_range _ _ _ _ _ Ha Hna Hda HY) as (Hy & _ & G1 & G2).
  assert (H1y : (0 < T1 sy)%Q) by (rewrite G1, E1; exact H1).
  destruct (GammaE_bounds cfg potE i sy sg Hb H1y Hy HG) as (A & B & C & _).
  rewrite G1, G2, E1, E2 in A, B.
  rewrite (uk_T _ _ U), (uk_Gamma _ _ U), ET, EG.
  split; [exact A|]. split; [exact B|]. split; [exact C|].
  intros HST. unfold compute_scalar. rewrite (uk_T _ _ U), ET.
  destruct A as [A1 A2].
  split; apply Qmult_le_compat_r; assumption.
Qed.

Lemma MAIN_scale_within_cutoffs_witness :
  (T1 st5_learn <= T st5_learn_next <= T2 st5_learn)%Q /\
  (1 / T2 st5_learn <= Gamma st5_learn_next <= 1 / T1 st5_learn)%Q /\
  (Gamma st5_learn_next * T st5_learn_next == 1)%Q /\
  ((0 <= ST cfg5_df)%Q ->
   (T1 st5_learn * ST cfg5_df <= compute_scalar cfg5_df st5_learn_next
    <= T2 st5_learn * ST cfg5_df)%Q).
Proof.
  apply (MAIN_scale_within_cutoffs sqrt_q log_q exp_q cfg5_df 10 2).
  - reflexivity.
  - reflexivity.
  - unfold in_range. vm_compute. repeat constructor; discriminate.
  - vm_compute. discriminate.
  - reflexivity.
  - vm_compute. reflexivity.
Defined.

(** X16.  The energy that the fix reports for the sampled bin.  With a
    positive bin width and [Emin] on the grid of the bins, the binned
    energy [compute_array(0, curbin)] of the bin that a completed step has
    sampled lies between half a bin and one bin and a half above the
    sampled energy: the sample is counted one bin above the bin that is
    labelled with its energy. *)
Theorem sampled_bin_label (sqrt log exp : Q -> Q) (cfg : config)
    (istep : Z) (potE : Q) (s s' : state) :
  (0 < bin cfg)%Q -> (Emin cfg == inject_Z (BinMin cfg) * bin cfg)%Q ->
  MAIN sqrt log exp cfg istep potE s = Ok s' ->
  compute_vector cfg s' 4 = Ok (of_int (Yval_index cfg potE)) /\
  exists label : Q,
    compute_array cfg s' 0 (Yval_index cfg potE) = Ok label /\
    (potE + bin cfg / 2 <= label <= potE + 3 * bin cfg / 2)%Q.
Proof.
  intros Hb HE H.
  apply MAIN_upkeep in H as (i & s1 & Hs & S & U).
  apply MAIN_sample_table in Hs as (-> & _).
  split.
  - unfold compute_vector. cbn [Z.eqb].
    rewrite (uk_curbin _ _ U), (smp_curbin _ _ _ _ _ S). reflexivity.
  - eexists. split; [reflexivity|].
    unfold Yval_index, of_int.
    pose proof (c_round_close (potE / bin cfg)) as [H1 H2].
    set (r := c_round (potE / bin cfg)) in *.
    rewrite HE. unfold Z.sub.
    rewrite !inject_Z_plus, inject_Z_opp. change (inject_Z 1) with 1%Q.
    assert (Ep : (potE == potE / bin cfg * bin cfg)%Q) by (field; lra).
    assert (L : ((inject_Z r - potE / bin cfg + (1 # 2)) * bin cfg >= 0)%Q)
      by (apply Qmult_le_0_compat; lra).
    assert (R : ((potE / bin cfg - inject_Z r + (1 # 2)) * bin cfg >= 0)%Q)
      by (apply Qmult_le_0_compat; lra).
    set (q := (potE / bin cfg)%Q) in *.
    assert (E3 : (3 * bin cfg / 2 == (3 # 2) * bin cfg)%Q) by field.
    assert (E1 : (bin cfg / 2 == (1 # 2) * bin cfg)%Q) by field.
    rewrite E3, E1. split; lra.
Qed.

Lemma sampled_bin_label_witness :
  compute_vector cfg5_df st5_learn_next 4 = Ok (of_int (Yval_index cfg5_df 2))
  /\
  exists label : Q,
    compute_array cfg5_df st5_learn_next 0 (Yval_index cfg5_df 2) = Ok label /\
    (2 + bin cfg5_df / 2 <= label <= 2 + 3 * bin cfg5_df / 2)%Q.
Proof.
  apply (sampled_bin_label sqrt_q log_q exp_q cfg5_df 10 2 st5_learn).
  - reflexivity.
  - reflexivity.
  - vm_compute. reflexivity.
Defined.

(** ** The outcomes of [init] *)

(** X17.  The outcomes of [init].  Without the restart option [init]
    always succeeds, with the fresh state.  With it, [init] raises
    "Restart file does not exist" exactly when the file is missing and
    "Restart file is empty/invalid" exactly when the file has fewer than
    [8 * (3N + 13)] bytes.  The size test counts bytes, not numerals: a
    file that has those bytes and fewer than [3N + 13] numerals passes it
    and is read past its last numeral, which no error reports.  [init]
    loads a file only if it has both those bytes and those numerals. *)
Theorem init_outcomes (log exp : Q -> Q) (cfg : config)
    (file : option restart_file) :
  (forall e : fatal,
      init log exp cfg file = Fatal e <->
      OREST cfg = true /\
      ((file = None /\ e = RestartFileMissing) \/
       exists fl : restart_file,
         file = Some fl /\ sz fl < (3 * Nbin cfg + numb) * 8 /\
         e = RestartFileInvalid)) /\
  (OREST cfg = false -> init log exp cfg file = Ok (init_fresh log exp cfg)) /\
  (forall fl : restart_file,
      OREST cfg = true -> file = Some fl ->
      (3 * Nbin cfg + numb) * 8 <= sz fl ->
      Z.of_nat (length (contents fl)) < 3 * Nbin cfg + numb ->
      init log exp cfg file = Undefined) /\
  ((exists s : state, init log exp cfg file = Ok s) ->
   OREST cfg = false \/
   exists fl : restart_file,
     file = Some fl /\ (3 * Nbin cfg + numb) * 8 <= sz fl /\
     3 * Nbin cfg + numb <= Z.of_nat (length (contents fl))).
Proof.
  unfold init.
  destruct (OREST cfg); [destruct file as [fl|]|].
  - assert (HF : sz fl < (3 * Nbin cfg + numb) * 8 ->
                 read_orest log cfg fl (init_fresh log exp cfg)
                 = Fatal RestartFileInvalid).
    { intros Hs. unfold read_orest.
      destruct (Z.ltb_spec (sz fl) ((3 * Nbin cfg + numb) * 8));
        [reflexivity | lia]. }
    assert (HU : (3 * Nbin cfg + numb) * 8 <= sz fl ->
                 Z.of_nat (length (contents fl)) < 3 * Nbin cfg + numb ->
                 read_orest log cfg fl (init_fresh log exp cfg) = Undefined).
    { intros Hs Hl. unfold read_orest.
      destruct (Z.ltb_spec (sz fl) ((3 * Nbin cfg + numb) * 8)); [lia|].
      destruct (Z.ltb_spec (Z.of_nat (length (contents fl)))
                  (3 * Nbin cfg + numb)); [reflexivity | lia]. }
    destruct (Z.lt_ge_cases (sz fl) ((3 * Nbin cfg + numb) * 8)) as [Hs | Hs];
      [|destruct (Z.lt_ge_cases (Z.of_nat (length (contents fl)))
                    (3 * Nbin cfg + numb)) as [Hl | Hl]].
    + rewrite (HF Hs). split; [intros e; split | split; [|split]].
      * intros [= <-]. split; [reflexivity|]. right. exists fl. auto.
      * intros (_ & [(D & _) | (fl' & [= <-] & _ & ->)]);
          [discriminate | reflexivity].
      * discriminate.
      * intros fl' _ [= <-] Hs' _. lia.
      * intros [s0 D]. discriminate.
    + rewrite (HU Hs Hl). split; [intros e; split | split; [|split]].
      * discriminate.
      * intros (_ & [(D & _) | (fl' & [= <-] & Hs' & _)]);
          [discriminate | lia].
      * discriminate.
      * reflexivity.
      * intros [s0 D]. discriminate.
    + split; [intros e; split | split; [|split]].
      * intros H. exfalso. unfold read_orest in H.
        destruct (Z.ltb_spec (sz fl) ((3 * Nbin cfg + numb) * 8)); [lia|].
        destruct (Z.ltb_spec (Z.of_nat (length (contents fl)))
                    (3 * Nbin cfg + numb)); [lia|].
        no_fatal H.
      * intros (_ & [(D & _) | (fl' & [= <-] & Hs' & _)]);
          [discriminate | lia].
      * discriminate.
      * intros fl' _ [= <-] _ Hl'. lia.
      * intros _. right. exists fl. auto.
  - split; [intros e; split | split; [|split]].
    + intros [= <-]. split; [reflexivity|]. left. auto.
    + intros (_ & [(_ & ->) | (fl' & D & _)]); [reflexivity | discriminate].
    + discriminate.
    + intros fl' _ D. discriminate.
    + intros [s0 D]. discriminate.
  - split; [intros e; split | split; [|split]].
    + discriminate.
    + intros (D & _). discriminate.
    + reflexivity.
    + intros fl' D. discriminate.
    + intros _. left. reflexivity.
Qed.

Example init_reads_past_the_end :
  init log_q exp_q cfg5 (Some (mkFile 300 (replicate 27 (Num_d 0))))
  = Undefined.
Proof. reflexivity. Qed.

(** ** The fix command *)

Lemma f_style_range (a : string) (v : Z) : f_style a = Some v -> 0 <= v <= 4.
Proof.
  unfold f_style. intros H.
  repeat match type of H with
         | (if ?c then _ else _) = _ => destruct c
         end;
    try discriminate; injection H as <-; lia.
Qed.

Section CommandFacts.
Variables (atoi : string -> Z) (atof : string -> Q).

Lemma FixStmd_inr_inv (arg : list string) (cfg : config) (dir : string) :
  FixStmd atoi atof arg = inr (cfg, dir) ->
  16 <= Z.of_nat (length arg) <= 17 /\
  f_style (arg_at arg 4) = Some (f_flag cfg) /\
  restart_option (arg_at arg 15) = Some (OREST cfg) /\
  (atof (arg_at arg 5) <= 1)%Q /\ (1 # 100000 <= atof (arg_at arg 6))%Q /\
  cfg = mkConfig (atoi (arg_at arg 3)) (f_flag cfg)
          (atof (arg_at arg 5)) (atof (arg_at arg 6))
          (atof (arg_at arg 7)) (atof (arg_at arg 8))
          (atof (arg_at arg 9)) (atof (arg_at arg 10))
          (atof (arg_at arg 11))
          (atoi (arg_at arg 12)) (atoi (arg_at arg 13))
          (atof (arg_at arg 14)) (OREST cfg) /\
  dir = if Z.of_nat (length arg) =? 17 then arg_at arg 16 else "./"%string.
Proof.
  unfold FixStmd.
  destruct (Z.ltb_spec (Z.of_nat (length arg)) 16) as [|H16];
    [discriminate|].
  destruct (Z.gtb_spec (Z.of_nat (length arg)) 17) as [|H17];
    [discriminate|].
  cbn [orb].
  destruct (f_style (arg_at arg 4)) as [v|]; [|discriminate].
  destruct (Qlt_bool 1 (atof (arg_at arg 5))) eqn:E5; [discriminate|].
  destruct (Qlt_bool (atof (arg_at arg 6)) (1 # 100000)) eqn:E6;
    [discriminate|].
  destruct (restart_option (arg_at arg 15)) as [o|]; [|discriminate].
  intros [= <- <-]. cbn [f_flag OREST].
  apply Qlt_bool_false in E5. apply Qlt_bool_false in E6.
  repeat split; try assumption; try reflexivity; lia.
Qed.

End CommandFacts.


Example FixStmd_fix5 :
  FixStmd atoi_q atof_q fix5 = inr (cfg_fix5, "./"%string).
Proof. vm_compute. reflexivity. Qed.

(** X19.  The configuration of an accepted command: the f-reduction
    scheme is one of the five schemes 0 to 4, [initf <= 1],
    [dFval3 >= 0.00001] and [dFval4 >= 0.000001], and the output directory
    is the seventeenth argument or ["./"]. *)
Theorem FixStmd_accepted_config (atoi : string -> Z) (atof : string -> Q)
    (arg : list string) (cfg : config) (dir : string) :
  FixStmd atoi atof arg = inr (cfg, dir) ->
  0 <= f_flag cfg <= 4 /\ (initf cfg <= 1)%Q /\
  (1 # 100000 <= dFval3 cfg)%Q /\ (1 # 1000000 <= dFval4 cfg)%Q /\
  (dir = "./"%string \/ (length arg = 17%nat /\ dir = arg_at arg 16)).
Proof.
  intros H. apply FixStmd_inr_inv in H as (Hn & Ef & _ & H5 & H6 & Ec & Ed).
  split; [exact (f_style_range _ _ Ef)|].
  assert (Ei : initf cfg = atof (arg_at arg 5)) by (rewrite Ec; reflexivity).
  assert (E3 : dFval3 cfg = atof (arg_at arg 6)) by (rewrite Ec; reflexivity).
  unfold dFval4. rewrite Ei, E3.
  split; [exact H5|]. split; [exact H6|]. split.
  - apply Qle_shift_div_l; [reflexivity|].
    apply (Qle_trans _ (1 # 100000)); [discriminate | exact H6].
  - destruct (Z.eqb_spec (Z.of_nat (length arg)) 17) as [E | N].
    + right. split; [lia | exact Ed].
    + left. exact Ed.
Qed.

Lemma FixStmd_accepted_config_witness :
  0 <= f_flag cfg_fix5 <= 4 /\ (initf cfg_fix5 <= 1)%Q /\
  (1 # 100000 <= dFval3 cfg_fix5)%Q /\
  (1 # 1000000 <= dFval4 cfg_fix5)%Q /\
  ("./"%string = "./"%string \/
   (length fix5 = 17%nat /\ "./"%string = arg_at fix5 16)).
Proof.
  apply (FixStmd_accepted_config atoi_q atof_q fix5 cfg_fix5 "./"%string).
  vm_compute. reflexivity.
Defined.

(** ** Checkpoints *)




(** ** Steps that are defined *)

Section DefinedSteps.
Variables (sqrt log exp : Q -> Q) (cfg : config).




End DefinedSteps.

(** *** The counters of the flatness check *)

Section FlatCounters.
Variables (sqrt log exp : Q -> Q) (cfg : config).













End FlatCounters.





